(** * Account migration between two identity-platform instances

    A shallow embedding of the migration scripts (tenants, categories and
    permissions, roles, users, applications, JWT settings) and of the
    orchestrator's flags, followed by the properties of the specification
    checked against them.

    Python dictionaries that come from the platform's JSON are records, one
    per entity type; a field read with [d.get(k)] is an [option], a field
    read with [d[k]] is mandatory.  Dictionaries used as maps are [gmap]s,
    sets are [gset]s.  Code that calls the network, sleeps, logs or raises
    lives in a state-and-exception monad over a [world]: the state of
    everything outside the process, the rate limiter's tables and the trace
    of what the process did. *)

From Stdlib Require Import String Ascii List ZArith QArith Bool Lia Lqa.
From stdpp Require Import base option gmap strings list pretty.
Import ListNotations.

Local Open Scope string_scope.
Local Open Scope list_scope.

(** ** Python values *)

(** Truth value of a string: the empty string is falsy. *)
Definition truthy (s : string) : bool :=
  match s with
  | EmptyString => false
  | String _ _ => true
  end.

(** Truth value of [d.get(k)] for a string field: [None] is falsy. *)
Definition truthy_opt (o : option string) : bool :=
  match o with
  | Some s => truthy s
  | None => false
  end.

(** [d.get(k, default)]. *)
Definition get_default {A : Type} (o : option A) (d : A) : A :=
  match o with
  | Some a => a
  | None => d
  end.

(** [str.lower()] on the ASCII range. *)
Definition lower_ascii (c : ascii) : ascii :=
  let n := nat_of_ascii c in
  if andb (Nat.leb 65 n) (Nat.leb n 90) then ascii_of_nat (n + 32) else c.

Fixpoint lower (s : string) : string :=
  match s with
  | EmptyString => EmptyString
  | String c s' => String (lower_ascii c) (lower s')
  end.

(** [needle in haystack] for strings. *)
Fixpoint contains (needle haystack : string) : bool :=
  if String.prefix needle haystack then true
  else match haystack with
       | EmptyString => false
       | String _ h => contains needle h
       end.

(** ** Entity records *)

Record tenant := {
  t_tenantId : string;
  t_name : string;
  t_metadata : option string
}.

Record raw_category := {
  rc_id : string;
  rc_name : string;
  rc_description : option string;
  rc_createdAt : option string;
  rc_feCategory : option bool
}.

Record category := {
  c_id : string;
  c_name : string;
  c_description : string;
  c_createdAt : string;
  c_feCategory : bool
}.

Record permission := {
  p_id : string;
  p_key : string;
  p_name : string;
  p_description : option string;
  p_categoryId : option string
}.

Record permission_data := {
  pd_key : string;
  pd_name : string;
  pd_description : string;
  pd_categoryId : string
}.

Record role := {
  r_id : string;
  r_name : string;
  r_key : string;
  r_description : option string;
  r_isDefault : option bool;
  r_level : Z;
  r_tenantId : option string;
  r_permissions : option (list string);
  r_permissionsData : option (list permission)
}.

Record role_data := {
  rd_name : string;
  rd_key : string;
  rd_description : string;
  rd_isDefault : bool;
  rd_tenantId : option string;
  rd_level : Z
}.

Record application := {
  a_id : string;
  a_name : string;
  a_appURL : option string;
  a_loginURL : option string;
  a_accessType : option string;
  a_isActive : option bool;
  a_type : option string;
  a_frontendStack : option string;
  a_isDefault : option bool;
  a_logoURL : option string;
  a_description : option string;
  a_metadata : option string
}.

Record application_body := {
  ab_name : string;
  ab_appURL : string;
  ab_loginURL : string;
  ab_accessType : string;
  ab_isActive : bool;
  ab_type : string;
  ab_frontendStack : string;
  ab_isDefault : bool;
  ab_logoURL : option string;
  ab_description : option string;
  ab_metadata : option string
}.

Record user := {
  u_id : option string;
  u_email : option string
}.

(** The three JWT settings of the configuration endpoint; [None] is a
    key that is absent or null. *)
Record jwt_settings := {
  j_defaultTokenExpiration : option Z;
  j_defaultRefreshTokenExpiration : option Z;
  j_cookieSameSite : option string
}.

(** The [_links.next] entry of a page of a listing: absent or empty, a
    link in which [_offset=(\d+)] matches, or a non-empty link in which it
    does not. *)
Inductive next_link :=
| NoNext
| NextOffset (offset_value : string)
| NextOpaque.

(** ** HTTP *)

Inductive http_method := GET | POST | PUT | DELETE.

Definition method_eqb (a b : http_method) : bool :=
  match a, b with
  | GET, GET | POST, POST | PUT, PUT | DELETE, DELETE => true
  | _, _ => false
  end.

(** JSON payloads and response bodies, one constructor per shape the
    scripts build or decode.  [JInvalid] is a body that is not JSON; a
    decoder that meets a shape other than its endpoint's fails like on
    [JInvalid]. *)
Inductive body :=
| JNothing
| JInvalid
| JTenantItems (items : list tenant) (next : next_link)
| JTenantBody (tenantId name : string)
| JMetadataBody (metadata : string)
| JCategories (cats : list raw_category)
| JCategoryBody (name description : string)
| JCreated (id : string)
| JPermissions (perms : list permission)
| JPermissionsBody (data : list permission_data)
| JRoleItems (items : list role) (next : next_link)
| JRolesBody (data : list role_data)
| JCreatedRoles (created : list role)
| JPermissionIds (ids : list string)
| JApplications (apps : list application)
| JApplicationBody (b : application_body)
| JCreatedApplication (app : application)
| JUsersPage (items : list user) (next : next_link)
| JUserRoles (infos : list (option (list string)))
| JConfiguration (cfg : jwt_settings)
| JAuthBody (clientId : string) (secret : option string)
| JToken (token : option string) (expiresIn : option Z)
| JErrors (errors : list string).

Record request := {
  method : http_method;
  url : string;
  headers : list (string * string);
  json : body
}.

Record response := {
  status_code : Z;
  content : body
}.

Record client := {
  base_url : string;
  token : string;
  client_id : string
}.

(** [HTTPError] is raised by [raise_for_status] and carries the response;
    [ConnectionError] is a call that got no response; [DecodeError] stands
    for what decoding an unexpected body raises (a JSON decoding error, a
    missing key, a wrong type); [ValueError] is raised by [authenticate].
    Only the first is an [requests.exceptions.HTTPError]. *)
Inductive exn :=
| HTTPError (r : response)
| ConnectionError
| DecodeError
| ValueError.

Inductive result (A : Type) :=
| Ok (a : A)
| Raise (e : exn).
Arguments Ok {A} a.
Arguments Raise {A} e.

Inductive level := DEBUG | INFO | WARNING | ERROR.

(** A value of a statistics table of the logger. *)
Inductive stat :=
| SNum (n : nat)
| SText (s : string).

Inductive event :=
| EvRequest (r : request)
| EvSleep (seconds : Q)
| EvLog (lvl : level) (msg : string)
| EvStats (title : string) (stats : list (string * stat)).

(** ** What the process runs on

    [net] is the state of everything outside the process: the two
    platform instances and the clock.  [session_request] is
    [requests.Session.request] (and [requests.get], [requests.post]):
    [None] is a call that raised instead of returning a response. *)
Class Runtime := {
  net : Type;
  session_request : request → net → option response * net;
  time_time : net → Q;
  time_sleep : Q → net → net;
  json_loads : string → option string
}.

(** The module-level [last_request_times] tables: [tenants.py] and
    [applications.py] each have their own. *)
Inductive limiter := TenantsModule | ApplicationsModule.

Record world `{Runtime} := {
  w_net : net;
  w_trace : list event;
  w_last_request_times : limiter → gmap string Q
}.

Section Monad.
Context `{Runtime}.

Definition M (A : Type) : Type := world → result A * world.

Definition ret {A : Type} (a : A) : M A := λ w, (Ok a, w).

Definition bind {A B : Type} (m : M A) (k : A → M B) : M B :=
  λ w, match m w with
       | (Ok a, w') => k a w'
       | (Raise e, w') => (Raise e, w')
       end.

Definition raise {A : Type} (e : exn) : M A := λ w, (Raise e, w).

(** [try: m except Exception as e: handler e]. *)
Definition try_except {A : Type} (m : M A) (handler : exn → M A) : M A :=
  λ w, match m w with
       | (Ok a, w') => (Ok a, w')
       | (Raise e, w') => handler e w'
       end.

Definition emit (e : event) : M unit :=
  λ w, (Ok tt, {| w_net := w_net w; w_trace := w_trace w ++ [e];
                  w_last_request_times := w_last_request_times w |}).

Definition log (lvl : level) (msg : string) : M unit := emit (EvLog lvl msg).

Definition print_stats (title : string) (stats : list (string * stat)) : M unit :=
  emit (EvStats title stats).

(** [for x in l: body x]. *)
Fixpoint for_each {A : Type} (l : list A) (body : A → M unit) : M unit :=
  match l with
  | [] => ret tt
  | x :: l' => bind (body x) (λ _, for_each l' body)
  end.

(** A loop that carries local variables [acc] from one iteration to the
    next. *)
Fixpoint for_fold {A S : Type} (l : list A) (acc : S) (body : S → A → M S) : M S :=
  match l with
  | [] => ret acc
  | x :: l' => bind (body acc x) (λ acc', for_fold l' acc' body)
  end.
End Monad.

Notation "x <- m ;; k" := (bind m (λ x, k))
(at level 100, m at next level, right associativity, only parsing).
Notation "m ;;; k" := (bind m (λ _, k))
(at level 100, right associativity, only parsing).

(** ** utility/frontegg_client.py, migration_scripts/tenants.py *)

Section Tenants.
Context `{Runtime}.

Definition DEFAULT_RATE_LIMIT : Q := 30.

(** [RATE_LIMITS] is empty in the source. *)
Definition RATE_LIMITS : gmap string Q := ∅.

Definition get_headers (c : client) : list (string * string) :=
  [("Authorization", "Bearer " +:+ token c); ("Content-Type", "application/json")].

Definition get_rate_limit (endpoint : string) : Q :=
  get_default (RATE_LIMITS !! endpoint) DEFAULT_RATE_LIMIT.

Definition time_time_now : M Q := λ w, (Ok (time_time (w_net w)), w).

Definition sleep (seconds : Q) : M unit :=
  λ w, (Ok tt, {| w_net := time_sleep seconds (w_net w);
                  w_trace := w_trace w ++ [EvSleep seconds];
                  w_last_request_times := w_last_request_times w |}).

Definition last_request_time (lim : limiter) (endpoint : string) : M (option Q) :=
  λ w, (Ok (w_last_request_times w lim !! endpoint), w).

Definition set_last_request_time (lim : limiter) (endpoint : string) (t : Q) : M unit :=
  λ w, (Ok tt, {| w_net := w_net w; w_trace := w_trace w;
                  w_last_request_times := λ l,
                    match l, lim with
                    | TenantsModule, TenantsModule
                    | ApplicationsModule, ApplicationsModule =>
                        <[endpoint := t]> (w_last_request_times w l)
                    | _, _ => w_last_request_times w l
                    end |}).

Definition enforce_rate_limit (lim : limiter) (endpoint : string) : M unit :=
  let rate_limit := match lim with
                    | TenantsModule => get_rate_limit endpoint
                    | ApplicationsModule => DEFAULT_RATE_LIMIT
                    end in
  let interval := (60 / rate_limit)%Q in
  last <- last_request_time lim endpoint ;;
  (match last with
   | Some t0 =>
       now <- time_time_now ;;
       let time_since_last_request := (now - t0)%Q in
       if Qlt_le_dec time_since_last_request interval
       then sleep (interval - time_since_last_request)%Q
       else ret tt
   | None => ret tt
   end) ;;;
  now <- time_time_now ;;
  set_last_request_time lim endpoint now.

(** [client.session.request(method, url, headers=headers, json=json_data)]. *)
Definition do_request (r : request) : M response :=
  λ w, let '(o, n) := session_request r (w_net w) in
       let w' := {| w_net := n; w_trace := w_trace w ++ [EvRequest r];
                    w_last_request_times := w_last_request_times w |} in
       match o with
       | Some resp => (Ok resp, w')
       | None => (Raise ConnectionError, w')
       end.

(** [response.raise_for_status()] *)
Definition is_error_status (s : Z) : bool := (400 <=? s)%Z && (s <? 600)%Z.

Definition raise_for_status (resp : response) : M unit :=
  if is_error_status (status_code resp) then raise (HTTPError resp) else ret tt.

Definition make_request_with_rate_limiting (lim : limiter) (m : http_method) (u : string)
    (c : client) (hs : list (string * string)) (json_data : body) : M response :=
  let r := {| method := m; url := u; headers := hs; json := json_data |} in
  enforce_rate_limit lim u ;;;
  try_except
    (resp <- do_request r ;;
     resp <- (if (status_code resp =? 429)%Z
              then log WARNING "Rate limit exceeded. Retrying after delay..." ;;;
                   sleep 60 ;;;
                   do_request r
              else ret resp) ;;
     raise_for_status resp ;;;
     ret resp)
    (λ e, log ERROR "Request failed" ;;; raise e).

(** [response.json().get('items', [])] on the tenants listing. *)
Definition tenant_items (resp : response) : M (list tenant) :=
  match content resp with
  | JTenantItems items _ => ret items
  | _ => raise DecodeError
  end.

Definition get_tenants (c : client) : M (list tenant) :=
  log DEBUG "Fetching tenants from source" ;;;
  let endpoint := base_url c +:+ "/tenants/resources/tenants/v2" in
  let hs := get_headers c in
  try_except
    (resp <- make_request_with_rate_limiting TenantsModule GET endpoint c hs JNothing ;;
     tenants <- tenant_items resp ;;
     log INFO "SUCCESS: Retrieved tenants" ;;;
     ret tenants)
    (λ e, log ERROR "Error fetching tenants" ;;; ret []).

Definition create_tenant (c : client) (t : tenant) : M (option response) :=
  log DEBUG ("Creating tenant: " +:+ t_tenantId t) ;;;
  let endpoint := base_url c +:+ "/tenants/resources/tenants/v1" in
  let hs := get_headers c in
  let req_body := JTenantBody (t_tenantId t) (t_name t) in
  try_except
    (resp <- make_request_with_rate_limiting TenantsModule POST endpoint c hs req_body ;;
     log INFO ("SUCCESS: Created tenant: " +:+ t_tenantId t) ;;;
     ret (Some resp))
    (λ e, log ERROR ("Failed to create tenant " +:+ t_tenantId t) ;;; ret None).

Definition set_tenant_metadata (c : client) (tenant_id metadata : string) : M (option response) :=
  log DEBUG ("Setting metadata for tenant " +:+ tenant_id) ;;;
  let endpoint := base_url c +:+ "/tenants/resources/tenants/v1/" +:+ tenant_id +:+ "/metadata" in
  let hs := get_headers c in
  try_except
    (resp <- make_request_with_rate_limiting TenantsModule POST endpoint c hs (JMetadataBody metadata) ;;
     log INFO ("SUCCESS: Updated metadata for tenant " +:+ tenant_id) ;;;
     ret (Some resp))
    (λ e, log ERROR ("Failed to update metadata for tenant " +:+ tenant_id) ;;; ret None).

(** The set and the two list comprehensions of [bulk_create_tenants]. *)
Definition existing_tenants (dest : list tenant) : gset string :=
  list_to_set (t_tenantId <$> dest).

Definition new_tenants (existing : gset string) (tenants : list tenant) : list tenant :=
  filter (λ t, t_tenantId t ∉ existing) tenants.

Definition skipped_tenants (existing : gset string) (tenants : list tenant) : list tenant :=
  filter (λ t, t_tenantId t ∈ existing) tenants.

(** [bulk_create_tenants] from the point where the destination's tenants
    [dest] have been fetched. *)
Definition bulk_create_tenants_with (destination_client : client) (tenants dest : list tenant)
    : M unit :=
  let existing := existing_tenants dest in
  let new := new_tenants existing tenants in
  let skipped := skipped_tenants existing tenants in
  (match skipped with
   | [] => ret tt
   | _ => log WARNING "Skipping existing tenants"
   end) ;;;
  (match new with
   | [] => ret tt
   | _ => for_each new (λ t, create_tenant destination_client t ;;; ret tt)
   end) ;;;
  print_stats "Tenant Creation Summary"
    [("Total Tenants", SNum (length tenants));
     ("Created", SNum (length new));
     ("Skipped (Existing)", SNum (length skipped))].

Definition bulk_create_tenants (destination_client : client) (tenants : list tenant) : M unit :=
  log INFO "--- Bulk Tenant Creation ---" ;;;
  dest <- get_tenants destination_client ;;
  bulk_create_tenants_with destination_client tenants dest.

Definition migrate_tenants (source_client destination_client : client) : M unit :=
  log INFO "Starting tenant migration process" ;;;
  source_tenants <- get_tenants source_client ;;
  match source_tenants with
  | [] => log WARNING "No tenants found to migrate"
  | _ =>
      bulk_create_tenants destination_client source_tenants ;;;
      let tenants_with_metadata := filter (λ t, truthy_opt (t_metadata t) = true) source_tenants in
      (match tenants_with_metadata with
       | [] => ret tt
       | _ =>
           log INFO "--- Migrating Tenant Metadata ---" ;;;
           success_count <- for_fold tenants_with_metadata 0 (λ success_count t,
             match json_loads (get_default (t_metadata t) "") with
             | Some metadata_json =>
                 set_tenant_metadata destination_client (t_tenantId t) metadata_json ;;;
                 ret (S success_count)
             | None =>
                 log WARNING ("Invalid metadata for tenant " +:+ t_tenantId t) ;;;
                 ret success_count
             end) ;;
           print_stats "Metadata Migration Summary"
             [("Total with Metadata", SNum (length tenants_with_metadata));
              ("Successfully Updated", SNum success_count);
              ("Failed", SNum (length tenants_with_metadata - success_count))]
       end) ;;;
      log INFO "SUCCESS: Tenant migration completed successfully!"
  end.
End Tenants.

(** ** migration_scripts/permissions_and_categories.py *)

Section Settings.
Context `{Runtime}.

Definition format_category (cat : raw_category) : category :=
  {| c_id := rc_id cat;
     c_name := rc_name cat;
     c_description := get_default (rc_description cat) "";
     c_createdAt := get_default (rc_createdAt cat) "";
     c_feCategory := get_default (rc_feCategory cat) false |}.

Definition get_categories (c : client) : M (list category) :=
  log INFO "Getting categories from account." ;;;
  let endpoint := base_url c +:+ "/identity/resources/permissions/v1/categories" in
  let hs := get_headers c in
  try_except
    (resp <- make_request_with_rate_limiting TenantsModule GET endpoint c hs JNothing ;;
     categories <- match content resp with
                   | JCategories cats => ret cats
                   | _ => raise DecodeError
                   end ;;
     let formatted_categories := format_category <$> categories in
     log INFO "Retrieved categories." ;;;
     ret formatted_categories)
    (λ e, log INFO "Error fetching categories" ;;; ret []).

(** [e.response.json().get('errors', [])] *)
Definition error_content (resp : response) : M (list string) :=
  match content resp with
  | JErrors errors => ret errors
  | _ => raise DecodeError
  end.

(** [any("already exist" in error.lower() for error in errors)] *)
Definition already_exist (errors : list string) : bool :=
  existsb (λ error, contains "already exist" (lower error)) errors.

Definition create_categories (c : client) (categories : list category) : M (gmap string string) :=
  log INFO "Creating categories in destination account." ;;;
  let endpoint := base_url c +:+ "/identity/resources/permissions/v1/categories" in
  let hs := get_headers c in
  category_mapping <- for_fold categories (∅ : gmap string string) (λ category_mapping cat,
    let category_json := JCategoryBody (c_name cat) (c_description cat) in
    try_except
      (resp <- make_request_with_rate_limiting TenantsModule POST endpoint c hs category_json ;;
       destination_category_id <- match content resp with
                                  | JCreated id => ret id
                                  | _ => raise DecodeError
                                  end ;;
       log INFO ("Category created: " +:+ c_name cat) ;;;
       ret (<[c_id cat := destination_category_id]> category_mapping))
      (λ e, match e with
            | HTTPError r =>
                errors <- error_content r ;;
                if already_exist errors
                then log INFO ("Category already exists. Skipping: " +:+ c_name cat) ;;;
                     ret category_mapping
                else raise e
            | _ => raise e
            end)) ;;
  log INFO "Categories creation completed." ;;;
  ret category_mapping.

Definition get_permissions (c : client) : M (list permission) :=
  log INFO "Getting permissions from source account." ;;;
  let endpoint := base_url c +:+ "/identity/resources/permissions/v1" in
  let hs := get_headers c in
  try_except
    (resp <- make_request_with_rate_limiting TenantsModule GET endpoint c hs JNothing ;;
     permissions <- match content resp with
                    | JPermissions perms => ret perms
                    | _ => raise DecodeError
                    end ;;
     log INFO "Retrieved permissions." ;;;
     ret permissions)
    (λ e, log INFO "Error fetching permissions" ;;; ret []).

(** [permissions[i:i + batch_size] for i in range(0, len(permissions), batch_size)] *)
Fixpoint batches_from {A : Type} (fuel batch_size : nat) (l : list A) : list (list A) :=
  match fuel, l with
  | S fuel', _ :: _ => take batch_size l :: batches_from fuel' batch_size (drop batch_size l)
  | _, _ => []
  end.

Definition batches {A : Type} (batch_size : nat) (l : list A) : list (list A) :=
  batches_from (length l) batch_size l.

(** The element of the comprehension that builds a batch's payload, with
    its filter [permission.get('key') and permission.get('categoryId')]. *)
Definition permission_payload (p : permission) : option permission_data :=
  if truthy (p_key p) && truthy_opt (p_categoryId p)
  then Some {| pd_key := p_key p;
               pd_name := p_name p;
               pd_description := get_default (p_description p) "";
               pd_categoryId := get_default (p_categoryId p) "" |}
  else None.

Definition permissions_data (permissions_batch : list permission) : list permission_data :=
  omap permission_payload permissions_batch.

Definition create_permissions (c : client) (permissions : list permission) : M unit :=
  log INFO "Creating permissions in destination account." ;;;
  let endpoint := base_url c +:+ "/identity/resources/permissions/v1" in
  let hs := get_headers c in
  for_each (batches 100 permissions) (λ permissions_batch,
    match permissions_data permissions_batch with
    | [] => log INFO "No valid permissions to create in this batch. Skipping."
    | data =>
        log INFO "Creating batch of permissions." ;;;
        try_except
          (resp <- make_request_with_rate_limiting TenantsModule POST endpoint c hs
                     (JPermissionsBody data) ;;
           log INFO "Batch creation of permissions completed")
          (λ e, match e with
                | HTTPError r =>
                    match content r with
                    | JInvalid => raise DecodeError
                    | _ => log INFO "Error creating permissions batch."
                    end
                | _ => raise e
                end)
    end) ;;;
  log INFO "Permissions creation completed.".

(** Step 2 of [migrate_settings]: the first destination category with the
    same name and description. *)
Definition matching_dest_cat (destination_categories : list category) (src_cat : category)
    : option category :=
  find (λ dest_cat, bool_decide (c_name dest_cat = c_name src_cat)
                    && bool_decide (c_description dest_cat = c_description src_cat))
       destination_categories.

Definition map_categories (source_categories destination_categories : list category)
    : gmap string string :=
  foldl (λ category_mapping src_cat,
           match matching_dest_cat destination_categories src_cat with
           | Some dest_cat => <[c_id src_cat := c_id dest_cat]> category_mapping
           | None => category_mapping
           end) ∅ source_categories.

(** Step 5: [category_mapping.get(permission['categoryId'])], kept when
    truthy, and the assignment [permission['categoryId'] = dest_category_id]. *)
Definition dest_category_id (category_mapping : gmap string string) (p : permission)
    : option string :=
  match p_categoryId p ≫= (category_mapping !!.) with
  | Some d => if truthy d then Some d else None
  | None => None
  end.

Definition set_categoryId (p : permission) (d : string) : permission :=
  {| p_id := p_id p; p_key := p_key p; p_name := p_name p;
     p_description := p_description p; p_categoryId := Some d |}.

Definition assign_category_ids (category_mapping : gmap string string)
    (source_permissions : list permission) : M (list permission) :=
  for_fold source_permissions [] (λ permissions_to_migrate p,
    match dest_category_id category_mapping p with
    | Some d => ret (permissions_to_migrate ++ [set_categoryId p d])
    | None =>
        log INFO ("Destination category mapping not found. Skipping: " +:+ p_name p) ;;;
        ret permissions_to_migrate
    end).

Definition migrate_settings (source_client destination_client : client)
    (migrate_categories migrate_permissions : bool) : M unit :=
  log INFO "Starting settings migration." ;;;
  source_categories <- get_categories source_client ;;
  destination_categories <- get_categories destination_client ;;
  let category_mapping := map_categories source_categories destination_categories in
  log INFO "Category mapping completed." ;;;
  category_mapping <-
    (if migrate_categories
     then
       let categories_to_create :=
         filter (λ cat, category_mapping !! c_id cat = None) source_categories in
       category_mapping <- match categories_to_create with
                           | [] => ret category_mapping
                           | _ =>
                               new_category_mapping <-
                                 create_categories destination_client categories_to_create ;;
                               ret (new_category_mapping ∪ category_mapping)
                           end ;;
       log INFO "categories created in the destination account." ;;;
       ret category_mapping
     else ret category_mapping) ;;
  (if migrate_permissions
   then
     source_permissions <- get_permissions source_client ;;
     permissions_to_migrate <- assign_category_ids category_mapping source_permissions ;;
     match permissions_to_migrate with
     | [] => log INFO "No permissions with valid categories to migrate from the source."
     | _ =>
         log INFO "permissions matched with categories for migration." ;;;
         create_permissions destination_client permissions_to_migrate
     end
   else log INFO "Skipping permissions migration as per configuration.") ;;;
  log INFO "Settings migration completed.".
End Settings.

(** ** migration_scripts/roles.py *)

Section Roles.
Context `{Runtime}.

(** Truth value of a JSON payload passed as [data]. *)
Definition body_truthy (b : body) : bool :=
  match b with
  | JNothing => false
  | JRolesBody [] => false
  | JPermissionsBody [] => false
  | JPermissionIds [] => false
  | _ => true
  end.

Definition log_detailed_api_call (m : string) (u : string)
    (hs : list (string * string)) (data : body) : M unit :=
  log INFO ("API CALL: " +:+ m +:+ " " +:+ u) ;;;
  (match hs with
   | [] => ret tt
   | _ => log INFO "Headers"
   end) ;;;
  if body_truthy data then log INFO "Data Payload" else ret tt.

Definition role_headers (c : client) : list (string * string) :=
  [("Authorization", "Bearer " +:+ token c); ("Content-Type", "application/json")].

(** The body of the [try] of [get_roles] up to the test of [split]. *)
Definition fetch_roles (c : client) : M (list role) :=
  let endpoint := base_url c +:+ "/identity/resources/roles/v2?_limit=2000" in
  let hs := role_headers c in
  log_detailed_api_call "GET" endpoint hs JNothing ;;;
  resp <- make_request_with_rate_limiting TenantsModule GET endpoint c hs JNothing ;;
  roles <- match content resp with
           | JRoleItems items _ => ret items
           | _ => raise DecodeError
           end ;;
  log INFO "Retrieved roles from the v2 endpoint." ;;;
  for_each roles (λ r, log INFO ("Role: " +:+ r_key r)) ;;;
  ret roles.

Definition has_tenant (r : role) : bool := truthy_opt (r_tenantId r).

(** [get_roles(client)], with [split=True]. *)
Definition get_roles (c : client) : M (list role * list role) :=
  log INFO "Fetching roles from account (using v2 endpoint)." ;;;
  try_except
    (roles <- fetch_roles c ;;
     ret (filter (λ r, has_tenant r = true) roles, filter (λ r, has_tenant r = false) roles))
    (λ e, log INFO "Error fetching roles" ;;; ret ([], [])).


Definition role_data_of (with_tenant : bool) (r : role) : role_data :=
  {| rd_name := r_name r;
     rd_key := r_key r;
     rd_description := get_default (r_description r) "";
     rd_isDefault := get_default (r_isDefault r) false;
     rd_tenantId := if with_tenant then r_tenantId r else None;
     rd_level := r_level r |}.

(** [bool(response)] is [response.ok]: no error status. *)
Definition response_truthy (r : response) : bool := negb (is_error_status (status_code r)).

(** The two [except] clauses shared by both creation calls of
    [create_roles]. *)
Definition create_roles_except {A : Type} (skip : A) (msg : string) (e : exn) : M A :=
  match e with
  | HTTPError r =>
      log INFO msg ;;;
      if response_truthy r
      then
        errors <- error_content r ;;
        log INFO "Error response content" ;;;
        if already_exist errors
        then log INFO "Role already exists. Skipping." ;;; ret skip
        else raise e
      else raise e
  | _ => log INFO msg ;;; raise e
  end.

Definition created_roles (resp : response) : M (list role) :=
  match content resp with
  | JCreatedRoles created => ret created
  | _ => raise DecodeError
  end.

Definition create_roles (c : client) (roles_with_tenant roles_without_tenant : list role)
    : M (gmap string string) :=
  log INFO "Creating roles" ;;;
  let endpoint := base_url c +:+ "/identity/resources/roles/v1" in
  let hs := role_headers c in
  dest_permissions <- get_permissions c ;;
  let role_id_mapping : gmap string string := ∅ in
  let roles_data_without_tenant := role_data_of false <$> roles_without_tenant in
  log INFO "Sending array of roles to create without tenantId." ;;;
  log_detailed_api_call "POST" endpoint hs (JRolesBody roles_data_without_tenant) ;;;
  role_id_mapping <-
    try_except
      (resp <- make_request_with_rate_limiting TenantsModule POST endpoint c hs
                 (JRolesBody roles_data_without_tenant) ;;
       response_data <- created_roles resp ;;
       for_fold (zip roles_without_tenant response_data) role_id_mapping
         (λ role_id_mapping '(original_role, created_role),
            log INFO ("Role created: " +:+ r_name original_role) ;;;
            ret (<[r_id original_role := r_id created_role]> role_id_mapping)))
      (create_roles_except role_id_mapping "Error creating roles without tenantId") ;;
  role_id_mapping <-
    for_fold roles_with_tenant role_id_mapping (λ role_id_mapping r,
      let data := role_data_of true r in
      let headers_with_tenant := hs ++ [("frontegg-tenant-id", get_default (r_tenantId r) "")] in
      log INFO ("Creating role with tenantId: " +:+ r_name r) ;;;
      log_detailed_api_call "POST" endpoint headers_with_tenant (JRolesBody [data]) ;;;
      try_except
        (resp <- make_request_with_rate_limiting TenantsModule POST endpoint c
                   headers_with_tenant (JRolesBody [data]) ;;
         created <- created_roles resp ;;
         for_fold created role_id_mapping (λ role_id_mapping created_role,
           log INFO ("Role created: " +:+ r_name r) ;;;
           ret (<[r_id r := r_id created_role]> role_id_mapping)))
        (create_roles_except role_id_mapping "Error creating role with tenantId")) ;;
  log INFO "Roles creation completed." ;;;
  ret role_id_mapping.

(** [{p['key']: p['id'] for p in dest_permissions}] *)
Definition permissions_by_key (permissions : list permission) : gmap string string :=
  foldl (λ m p, <[p_key p := p_id p]> m) ∅ permissions.

(** [{p['id']: p for p in source_permissions}] *)
Definition permissions_by_id (permissions : list permission) : gmap string permission :=
  foldl (λ m p, <[p_id p := p]> m) ∅ permissions.

(** One turn of the inner loop of [assign_permissions_to_roles]: the
    destination identifier a permission reference is rewritten to, if
    any. *)
Definition dest_perm_id (permissionsData : list permission)
    (dest_permissions_by_key : gmap string string) (perm_id : string) : option string :=
  match find (λ p, bool_decide (p_id p = perm_id)) permissionsData with
  | Some source_permission =>
      match dest_permissions_by_key !! p_key source_permission with
      | Some d => if truthy d then Some d else None
      | None => None
      end
  | None => None
  end.

Definition permission_ids (r : role) (dest_permissions_by_key : gmap string string)
    : M (list string) :=
  let permissionsData := get_default (r_permissionsData r) [] in
  for_fold (get_default (r_permissions r) []) [] (λ permission_ids perm_id,
    match dest_perm_id permissionsData dest_permissions_by_key perm_id with
    | Some d => ret (permission_ids ++ [d])
    | None =>
        log INFO ("Permission not found. Skipping: " +:+ perm_id) ;;;
        ret permission_ids
    end).

Definition truthy_id (o : option string) : option string :=
  match o with
  | Some d => if truthy d then Some d else None
  | None => None
  end.

Definition assign_permissions_to_roles (c : client) (roles : list role)
    (role_id_mapping dest_permissions_by_key : gmap string string) : M unit :=
  log INFO "Assigning permissions to roles" ;;;
  let hs := role_headers c in
  for_each roles (λ r,
    match truthy_id (role_id_mapping !! r_id r) with
    | None => log INFO ("No matching destination role ID. Skipping: " +:+ r_name r)
    | Some dest_role_id =>
        ids <- permission_ids r dest_permissions_by_key ;;
        match ids with
        | [] => log INFO ("No permissions to assign for role " +:+ r_name r)
        | _ =>
            let assign_endpoint :=
              base_url c +:+ "/identity/resources/roles/v1/" +:+ dest_role_id +:+ "/permissions" in
            let headers_with_tenant :=
              if has_tenant r
              then hs ++ [("frontegg-tenant-id", get_default (r_tenantId r) "")]
              else hs in
            try_except
              (resp <- make_request_with_rate_limiting TenantsModule PUT assign_endpoint c
                         headers_with_tenant (JPermissionIds ids) ;;
               log INFO ("Permissions assigned to role " +:+ r_name r))
              (λ e, match e with
                    | HTTPError resp =>
                        log INFO "Error assigning permissions to role" ;;;
                        if response_truthy resp
                        then match content resp with
                             | JInvalid => raise DecodeError
                             | _ => log INFO "Error response content"
                             end
                        else raise e
                    | _ => log INFO "Unexpected error during permission assignment" ;;; raise e
                    end)
        end
    end) ;;;
  log INFO "Permissions assignment to roles completed.".

Definition set_permissionsData (r : role) (data : list permission) : role :=
  {| r_id := r_id r; r_name := r_name r; r_key := r_key r;
     r_description := r_description r; r_isDefault := r_isDefault r;
     r_level := r_level r; r_tenantId := r_tenantId r;
     r_permissions := r_permissions r; r_permissionsData := Some data |}.

Definition role_permissions_data (source_permissions_by_id : gmap string permission) (r : role)
    : M (list permission) :=
  for_fold (get_default (r_permissions r) []) [] (λ data perm_id,
    match source_permissions_by_id !! perm_id with
    | Some perm_data => ret (data ++ [perm_data])
    | None => log INFO ("Permission ID not found in source permissions: " +:+ perm_id) ;;;
              ret data
    end).

(** The loop of [migrate_roles] that fills [unique_roles], and one turn of
    it.  The dictionary never overwrites a key, so it is kept as the list
    of its values in insertion order, which is what
    [list(unique_roles.values())] returns. *)
Definition unique_roles_step (dest_role_keys : gset string)
    (source_permissions_by_id : gmap string permission) (unique_roles : list role) (r : role)
    : M (list role) :=
  let role_key := r_key r in
  if decide (role_key ∈ dest_role_keys)
  then log INFO ("Role already exists in destination. Skipping: " +:+ role_key) ;;;
       ret unique_roles
  else if decide (role_key ∈ (r_key <$> unique_roles))
  then log INFO ("Duplicate role found. Skipping duplicate: " +:+ role_key) ;;;
       ret unique_roles
  else
    data <- role_permissions_data source_permissions_by_id r ;;
    ret (unique_roles ++ [set_permissionsData r data]).

Definition filter_unique_roles (dest_role_keys : gset string)
    (source_permissions_by_id : gmap string permission) (source_roles : list role)
    : M (list role) :=
  for_fold source_roles [] (unique_roles_step dest_role_keys source_permissions_by_id).

(** [migrate_roles] from the point where the roles and permissions of
    both accounts have been fetched. *)
Definition migrate_roles_with (destination_client : client)
    (source_roles : list role * list role) (source_permissions : list permission)
    (dest_roles : list role * list role) (dest_permissions : list permission) : M unit :=
  let '(source_roles_with_tenant, source_roles_without_tenant) := source_roles in
  let '(dest_roles_with_tenant, dest_roles_without_tenant) := dest_roles in
  let source_permissions_by_id := permissions_by_id source_permissions in
  let dest_permissions_by_key := permissions_by_key dest_permissions in
  let dest_role_keys : gset string :=
    list_to_set (r_key <$> (dest_roles_with_tenant ++ dest_roles_without_tenant)) in
  unique_roles_list <-
    filter_unique_roles dest_role_keys source_permissions_by_id
      (source_roles_with_tenant ++ source_roles_without_tenant) ;;
  (match unique_roles_list with
   | [] => log INFO "No new roles to create after filtering out existing roles."
   | _ =>
       let unique_roles_with_tenant := filter (λ r, has_tenant r = true) unique_roles_list in
       let unique_roles_without_tenant := filter (λ r, has_tenant r = false) unique_roles_list in
       role_id_mapping <-
         create_roles destination_client unique_roles_with_tenant unique_roles_without_tenant ;;
       assign_permissions_to_roles destination_client unique_roles_list role_id_mapping
         dest_permissions_by_key
   end) ;;;
  log INFO "Roles migration completed.".

Definition migrate_roles (source_client destination_client : client) : M unit :=
  log INFO "Starting roles migration" ;;;
  source_roles <- get_roles source_client ;;
  source_permissions <- get_permissions source_client ;;
  dest_roles <- get_roles destination_client ;;
  dest_permissions <- get_permissions destination_client ;;
  migrate_roles_with destination_client source_roles source_permissions
    dest_roles dest_permissions.
End Roles.

(** ** migration_scripts/users.py: the role columns of the user import *)

Section Users.
Context `{Runtime}.

(** [{dest_role['name']: dest_role['id'] for dest_role in dest_roles}] *)
Definition role_name_to_dest_id (dest_roles : list role) : gmap string string :=
  foldl (λ m dest_role, <[r_name dest_role := r_id dest_role]> m) ∅ dest_roles.

(** [{src_role['id']: role_name_to_dest_id.get(src_role['name'])
      for src_role in source_roles if src_role['name'] in role_name_to_dest_id}] *)
Definition user_role_id_mapping (source_roles dest_roles : list role) : gmap string string :=
  let by_name := role_name_to_dest_id dest_roles in
  foldl (λ m src_role,
           match by_name !! r_name src_role with
           | Some d => <[r_id src_role := d]> m
           | None => m
           end) ∅ source_roles.






End Users.

(** ** migration_scripts/assign_roles_to_users.py: the user fetcher *)

Section UserFetcher.
Context `{Runtime}.

(** [call_api] followed by the two reads of the result,
    [res.get("items", [])] and [res.get("_links", {}).get("next", "")].
    There is no [raise_for_status]: an error body, a JSON object without
    those keys, reads as no items and no next page. *)
Definition call_api (u : string) (hs : list (string * string)) : M (list user * next_link) :=
  log INFO ("Calling API: GET " +:+ u) ;;;
  resp <- do_request {| method := GET; url := u; headers := hs; json := JNothing |} ;;
  log INFO "API responded" ;;;
  match content resp with
  | JUsersPage items next => ret (items, next)
  | JErrors _ => ret ([], NoNext)
  | _ => raise DecodeError
  end.

(** The [while next_page:] loop.  [fuel] bounds the number of turns;
    [None] is fuel running out. *)
Fixpoint next_pages (fuel : nat) (c : client) (hs : list (string * string))
    (next_page : next_link) (items_arr : list user) : M (option (list user)) :=
  match next_page with
  | NoNext => ret (Some items_arr)
  | NextOpaque => ret (Some items_arr)
  | NextOffset offset_value =>
      match fuel with
      | O => ret None
      | S fuel' =>
          let u := base_url c +:+ "/identity/resources/users/v3?includeSubTenants=true&_limit=200&_offset="
                     +:+ offset_value in
          log INFO ("Fetching next page of users from: " +:+ u) ;;;
          res <- call_api u hs ;;
          next_pages fuel' c hs (snd res) (items_arr ++ fst res)
      end
  end.

(** Returns [(count, items)] for [{"count": ..., "items": ...}]. *)
Definition get_users_with_pagination (fuel : nat) (c : client) : M (option (nat * list user)) :=
  let u := base_url c +:+ "/identity/resources/users/v3?includeSubTenants=true&_limit=200" in
  let hs := [("authorization", "Bearer " +:+ token c)] in
  log INFO ("Fetching users from: " +:+ u) ;;;
  res <- call_api u hs ;;
  o <- next_pages fuel c hs (snd res) (fst res) ;;
  match o with
  | Some items_arr =>
      log INFO "Retrieved users and their IDs:" ;;;
      ret (Some (length items_arr, items_arr))
  | None => ret None
  end.
End UserFetcher.

(** ** migration_scripts/applications.py *)

Section Applications.
Context `{Runtime}.

Definition get_applications (c : client) : M (list application) :=
  log DEBUG "Fetching applications" ;;;
  let endpoint := base_url c +:+ "/applications/resources/applications/v1?_excludeAgents=true" in
  let hs := get_headers c in
  try_except
    (resp <- make_request_with_rate_limiting ApplicationsModule GET endpoint c hs JNothing ;;
     applications <- match content resp with
                     | JApplications apps => ret apps
                     | _ => raise DecodeError
                     end ;;
     log INFO "SUCCESS: Retrieved applications" ;;;
     ret applications)
    (λ e, log ERROR "Error fetching applications" ;;; ret []).

Definition keep_truthy (o : option string) : option string :=
  if truthy_opt o then o else None.

Definition is_default (app : application) : bool := get_default (a_isDefault app) false.

Definition application_req_body (app_data : application) : application_body :=
  {| ab_name := a_name app_data;
     ab_appURL := get_default (a_appURL app_data) "";
     ab_loginURL := get_default (a_loginURL app_data) "";
     ab_accessType := get_default (a_accessType app_data) "FREE_ACCESS";
     ab_isActive := get_default (a_isActive app_data) true;
     ab_type := get_default (a_type app_data) "WEB";
     ab_frontendStack := get_default (a_frontendStack app_data) "REACT";
     ab_isDefault := is_default app_data;
     ab_logoURL := keep_truthy (a_logoURL app_data);
     ab_description := keep_truthy (a_description app_data);
     ab_metadata := keep_truthy (a_metadata app_data) |}.

Definition create_application (c : client) (app_data : application) : M (option application) :=
  let app_name := a_name app_data in
  log DEBUG ("Creating application: " +:+ app_name) ;;;
  let endpoint := base_url c +:+ "/applications/resources/applications/v1" in
  let hs := get_headers c in
  let req_body := application_req_body app_data in
  (if is_default app_data
   then log INFO ("Setting as DEFAULT application: " +:+ app_name)
   else ret tt) ;;;
  try_except
    (resp <- make_request_with_rate_limiting ApplicationsModule POST endpoint c hs
               (JApplicationBody req_body) ;;
     created_app <- match content resp with
                    | JCreatedApplication app => ret app
                    | _ => raise DecodeError
                    end ;;
     log INFO ("SUCCESS: Created application: " +:+ app_name) ;;;
     ret (Some created_app))
    (λ e, log ERROR ("Failed to create application " +:+ app_name) ;;; ret None).

Definition delete_application (c : client) (app_id app_name : string) : M bool :=
  let display_name := if truthy app_name then app_name else app_id in
  log DEBUG ("Deleting application: " +:+ display_name) ;;;
  let endpoint := base_url c +:+ "/applications/resources/applications/v1/" +:+ app_id in
  let hs := get_headers c in
  try_except
    (resp <- make_request_with_rate_limiting ApplicationsModule DELETE endpoint c hs JNothing ;;
     log INFO ("SUCCESS: Deleted application: " +:+ display_name) ;;;
     ret true)
    (λ e, log ERROR ("Failed to delete application " +:+ display_name) ;;; ret false).

(** The loop that separates the source applications: the default one is
    the last application flagged [isDefault]. *)
Definition source_default_app (source_applications : list application) : option application :=
  foldl (λ d app, if is_default app then Some app else d) None source_applications.

Definition non_default_apps (source_applications : list application) : list application :=
  filter (λ app, is_default app = false) source_applications.

(** One creation and the update of the two counters. *)
Definition create_and_count (c : client) (counts : nat * nat) (app : application)
    : M (nat * nat) :=
  result <- create_application c app ;;
  match result with
  | Some _ => ret (S (fst counts), snd counts)
  | None => ret (fst counts, S (snd counts))
  end.

(** [migrate_applications] from the point where the applications of
    both accounts have been fetched: the migration plan and its three
    steps. *)
Definition migrate_applications_with (destination_client : client)
    (source_applications dest_applications : list application) : M unit :=
  let default_app := source_default_app source_applications in
  let non_default := non_default_apps source_applications in
  (match find is_default dest_applications with
   | Some app => log INFO ("Found destination default application: " +:+ a_name app)
   | None => ret tt
   end) ;;;
  log INFO "Migration Plan" ;;;
  counts <-
    match non_default with
    | [] => ret (0, 0)
    | _ =>
        log INFO "--- Step 1: Migrating Non-Default Applications ---" ;;;
        counts <- for_fold non_default (0, 0) (create_and_count destination_client) ;;
        print_stats "Non-Default Applications Migration"
          [("Total", SNum (length non_default));
           ("Successfully Created", SNum (fst counts));
           ("Failed", SNum (snd counts))] ;;;
        ret counts
    end ;;
  (match dest_applications, default_app with
   | _ :: _, Some _ =>
       log INFO "--- Step 2: Removing ALL Destination Applications ---" ;;;
       for_each dest_applications (λ app,
         log INFO ("Deleting destination app: " +:+ a_name app) ;;;
         delete_success <- delete_application destination_client (a_id app) (a_name app) ;;
         if delete_success then ret tt
         else log WARNING ("Failed to delete. Continuing anyway: " +:+ a_name app))
   | _, _ => ret tt
   end) ;;;
  counts <-
    match default_app with
    | Some app =>
        log INFO "--- Step 3: Migrating Source Default Application ---" ;;;
        log INFO ("Creating default application: " +:+ a_name app) ;;;
        result <- create_application destination_client app ;;
        match result with
        | Some _ =>
            log INFO "SUCCESS: Successfully migrated default application" ;;;
            ret (S (fst counts), snd counts)
        | None =>
            log ERROR "Failed to migrate default application" ;;;
            ret (fst counts, S (snd counts))
        end
    | None => ret counts
    end ;;
  print_stats "Applications Migration Summary"
    [("Total Source Applications", SNum (length source_applications));
     ("Applications Created", SNum (fst counts));
     ("Applications Failed", SNum (snd counts));
     ("Default App Replaced", SText (match default_app with Some _ => "Yes" | None => "No" end))] ;;;
  log INFO "SUCCESS: Applications migration completed successfully!".

Definition migrate_applications (source_client destination_client : client) : M unit :=
  log INFO "Starting applications migration process" ;;;
  source_applications <- get_applications source_client ;;
  match source_applications with
  | [] => log WARNING "No applications found to migrate"
  | _ =>
      for_each (filter (λ app, is_default app = true) source_applications)
               (λ app, log INFO ("Found source default application: " +:+ a_name app)) ;;;
      log INFO "--- Analyzing Destination Applications ---" ;;;
      dest_applications <- get_applications destination_client ;;
      migrate_applications_with destination_client source_applications dest_applications
  end.
End Applications.

(** ** Configuration read from the environment *)

(** [os.getenv(name, default)] *)
Definition getenv (env : gmap string string) (name default : string) : string :=
  get_default (env !! name) default.

(** [os.getenv(name, "False").lower() == "true"] *)
Definition flag (env : gmap string string) (name : string) : bool :=
  bool_decide (lower (getenv env name "False") = "true").

(** ** migration_scripts/jwt_settings.py *)

Module JwtSettings.
Section JwtSettings.
Context `{Runtime}.

Definition MIGRATE_JWT_SETTINGS (env : gmap string string) : bool :=
  flag env "MIGRATE_JWT_SETTINTS".

(** Truth value of the dictionary left after the [None] values are
    removed: some key remains. *)
Definition settings_truthy (s : jwt_settings) : bool :=
  match j_defaultTokenExpiration s, j_defaultRefreshTokenExpiration s, j_cookieSameSite s with
  | None, None, None => false
  | _, _, _ => true
  end.

Definition get_jwt_settings (c : client) : M (option jwt_settings) :=
  let u := base_url c +:+ "/identity/resources/configurations/v1" in
  let hs := [("Authorization", "Bearer " +:+ token c)] in
  try_except
    (resp <- do_request {| method := GET; url := u; headers := hs; json := JNothing |} ;;
     if (status_code resp =? 200)%Z
     then match content resp with
          | JConfiguration data => ret (Some data)
          | _ => raise DecodeError
          end
     else log ERROR "Failed to get JWT settings" ;;; ret None)
    (λ e, log ERROR "Error getting JWT settings" ;;; ret None).

Definition update_jwt_settings (c : client) (settings : jwt_settings) : M bool :=
  let u := base_url c +:+ "/identity/resources/configurations/v1" in
  let hs := [("Authorization", "Bearer " +:+ token c);
             ("Content-Type", "application/json");
             ("frontegg-vendor-id", client_id c)] in
  try_except
    (resp <- do_request {| method := POST; url := u; headers := hs;
                           json := JConfiguration settings |} ;;
     if (status_code resp =? 200)%Z || (status_code resp =? 201)%Z
     then ret true
     else log ERROR "Failed to update JWT settings" ;;; ret false)
    (λ e, log ERROR "Error updating JWT settings" ;;; ret false).

(** [source_settings.get(key) != dest_settings.get(key)] for a key of
    the source. *)
Definition differs {A : Type} `{EqDecision A} (src dst : option A) : bool :=
  match src with
  | Some v => negb (bool_decide (dst = Some v))
  | None => false
  end.

Definition is_truthy_settings (o : option jwt_settings) : bool :=
  match o with
  | Some s => settings_truthy s
  | None => false
  end.

Definition compare_jwt_settings (source_settings dest_settings : option jwt_settings) : bool :=
  match source_settings, dest_settings with
  | Some s, Some d =>
      if settings_truthy s && settings_truthy d
      then differs (j_defaultTokenExpiration s) (j_defaultTokenExpiration d)
           || differs (j_defaultRefreshTokenExpiration s) (j_defaultRefreshTokenExpiration d)
           || differs (j_cookieSameSite s) (j_cookieSameSite d)
      else true
  | _, _ => true
  end.

Definition migrate_jwt_settings (env : gmap string string)
    (source_client destination_client : client) : M unit :=
  if negb (MIGRATE_JWT_SETTINGS env)
  then log WARNING "JWT settings migration is disabled (MIGRATE_JWT_SETTINTS=False)"
  else
    log INFO "=== JWT Settings Migration ===" ;;;
    log INFO "--- Migrating JWT Settings ---" ;;;
    log INFO "Fetching JWT settings from source account..." ;;;
    source_settings <- get_jwt_settings source_client ;;
    if negb (is_truthy_settings source_settings)
    then log ERROR "Failed to fetch JWT settings from source account"
    else
      log INFO "Found settings" ;;;
      log INFO "Fetching JWT settings from destination account..." ;;;
      dest_settings <- get_jwt_settings destination_client ;;
      if negb (compare_jwt_settings source_settings dest_settings)
      then log INFO "SUCCESS: JWT settings are already up to date in destination"
      else
        log INFO "Updating JWT settings in destination account..." ;;;
        match source_settings with
        | Some settings =>
            updated <- update_jwt_settings destination_client settings ;;
            if updated
            then log INFO "SUCCESS: Successfully migrated JWT settings" ;;;
                 log INFO "Updated settings"
            else log ERROR "Failed to migrate JWT settings"
        | None => ret tt
        end.
End JwtSettings.
End JwtSettings.

(** ** main.py *)

Module Main.
Section Main.
Context `{Runtime}.

Definition MIGRATE_TENANTS env := flag env "MIGRATE_TENANTS".
Definition MIGRATE_CATEGORIES env := flag env "MIGRATE_CATEGORIES".
Definition MIGRATE_PERMISSIONS env := flag env "MIGRATE_PERMISSIONS".
Definition MIGRATE_ROLES env := flag env "MIGRATE_ROLES".
Definition MIGRATE_USERS env := flag env "MIGRATE_USERS".
Definition MIGRATE_USER_ROLES env := flag env "MIGRATE_USER_ROLES".
Definition BULK_INVITE_USERS_TO_TENANTS env := flag env "BULK_INVITE_USERS_TO_TENANTS".
Definition ASSIGN_ROLES_TO_USERS_ON_ALL_TENANTS env :=
  flag env "ASSIGN_ROLES_TO_USERS_ON_ALL_TENANTS".
Definition MIGRATE_GROUPS env := flag env "MIGRATE_GROUPS".
Definition MIGRATE_APPLICATIONS env := flag env "MIGRATE_APPLICATIONS".
Definition MIGRATE_SECURITY_RULES env := flag env "MIGRATE_SECURITY_RULES".
Definition MIGRATE_EMAIL_TEMPLATES env := flag env "MIGRATE_EMAIL_TEMPLATES".
Definition MIGRATE_EMAIL_SENDER env := flag env "MIGRATE_EMAIL_SENDER".
Definition MIGRATE_PREHOOKS env := flag env "MIGRATE_PREHOOKS".
Definition MIGRATE_ALLOWED_ORIGINS env := flag env "MIGRATE_ALLOWED_ORIGINS".
Definition MIGRATE_JWT_SETTINGS env := flag env "MIGRATE_JWT_SETTINTS".

(** The steps of [main] whose scripts are outside this development
    (the user import through CSV files, bulk invitation, role assignment
    from CSV, groups, security rules, e-mail configuration, webhooks and
    allowed origins), each taking the two clients. *)
Record other_steps := {
  migrate_users : bool → bool → client → client → M unit;
  bulk_invite_main : M unit;
  assign_roles_to_users : client → client → M unit;
  migrate_groups : client → client → M unit;
  migrate_security_rules : client → client → M unit;
  migrate_email_configuration : client → client → M unit;
  migrate_webhook_configuration : client → client → M unit;
  migrate_allowed_origins_configuration : client → client → M unit
}.

(** [FronteggClient(base_url, client_id, secret)]: the constructor
    authenticates. *)
Definition FronteggClient (base client_id_ secret : option string) : M client :=
  match base, client_id_ with
  | Some base, Some cid =>
      log INFO "Authenticating with Frontegg" ;;;
      let endpoint := base +:+ "/auth/vendor" in
      try_except
        (resp <- do_request {| method := POST; url := endpoint; headers := [];
                               json := JAuthBody cid secret |} ;;
         raise_for_status resp ;;;
         tok <- match content resp with
                | JToken tok _ => ret tok
                | _ => raise DecodeError
                end ;;
         match truthy_id tok with
         | Some tok =>
             log INFO ("SUCCESS: Authentication successful for " +:+ base) ;;;
             ret {| base_url := base; token := tok; client_id := cid |}
         | None => raise ValueError
         end)
        (λ e, log ERROR "Authentication failed" ;;; raise e)
  | _, _ => raise DecodeError
  end.

Definition when (b : bool) (m : M unit) : M unit := if b then m else ret tt.

Definition scheduled_tasks (env : gmap string string) : list string :=
  (if MIGRATE_TENANTS env then ["Tenants"] else [])
  ++ (if MIGRATE_CATEGORIES env then ["Categories"] else [])
  ++ (if MIGRATE_PERMISSIONS env then ["Permissions"] else [])
  ++ (if MIGRATE_ROLES env then ["Roles"] else [])
  ++ (if MIGRATE_USERS env then ["Users"] else [])
  ++ (if MIGRATE_USER_ROLES env then ["User Roles"] else [])
  ++ (if BULK_INVITE_USERS_TO_TENANTS env then ["Bulk Invites"] else [])
  ++ (if ASSIGN_ROLES_TO_USERS_ON_ALL_TENANTS env then ["Role Assignments"] else [])
  ++ (if MIGRATE_GROUPS env then ["Groups"] else [])
  ++ (if MIGRATE_APPLICATIONS env then ["Applications"] else [])
  ++ (if MIGRATE_SECURITY_RULES env then ["Security Rules"] else [])
  ++ (if MIGRATE_EMAIL_TEMPLATES env then ["Email Templates"] else [])
  ++ (if MIGRATE_EMAIL_SENDER env then ["Email Sender"] else [])
  ++ (if MIGRATE_PREHOOKS env then ["Prehooks"] else [])
  ++ (if MIGRATE_ALLOWED_ORIGINS env then ["Allowed Origins"] else [])
  ++ (if MIGRATE_JWT_SETTINGS env then ["JWT Settings"] else []).

(** The steps of [main] once both clients exist. *)
Definition run_steps (env : gmap string string) (steps : other_steps)
    (frontegg_client_1 frontegg_client_2 : client) : M unit :=
  log INFO ("Scheduled Migration Tasks: " +:+ String.concat ", " (scheduled_tasks env)) ;;;
  when (MIGRATE_TENANTS env)
    (log INFO "=== Tenant Migration ===" ;;;
     migrate_tenants frontegg_client_1 frontegg_client_2) ;;;
  when (MIGRATE_CATEGORIES env || MIGRATE_PERMISSIONS env)
    (log INFO "=== Settings Migration (Categories & Permissions) ===" ;;;
     migrate_settings frontegg_client_1 frontegg_client_2
       (MIGRATE_CATEGORIES env) (MIGRATE_PERMISSIONS env)) ;;;
  when (MIGRATE_ROLES env)
    (log INFO "=== Roles Migration ===" ;;;
     migrate_roles frontegg_client_1 frontegg_client_2) ;;;
  when (MIGRATE_USERS env || MIGRATE_USER_ROLES env)
    (log INFO "=== Users Migration ===" ;;;
     migrate_users steps (MIGRATE_USERS env) (MIGRATE_USER_ROLES env)
       frontegg_client_1 frontegg_client_2) ;;;
  when (BULK_INVITE_USERS_TO_TENANTS env)
    (log INFO "=== Bulk Invite Process ===" ;;; bulk_invite_main steps) ;;;
  when (ASSIGN_ROLES_TO_USERS_ON_ALL_TENANTS env)
    (log INFO "=== Role Assignment Process ===" ;;;
     assign_roles_to_users steps frontegg_client_1 frontegg_client_2) ;;;
  when (MIGRATE_GROUPS env)
    (log INFO "=== Groups Migration ===" ;;;
     migrate_groups steps frontegg_client_1 frontegg_client_2) ;;;
  when (MIGRATE_APPLICATIONS env)
    (log INFO "=== Applications Migration ===" ;;;
     migrate_applications frontegg_client_1 frontegg_client_2) ;;;
  when (MIGRATE_SECURITY_RULES env)
    (log INFO "=== Security Rules Migration ===" ;;;
     migrate_security_rules steps frontegg_client_1 frontegg_client_2) ;;;
  when (MIGRATE_EMAIL_TEMPLATES env || MIGRATE_EMAIL_SENDER env)
    (log INFO "=== Email Configuration Migration ===" ;;;
     migrate_email_configuration steps frontegg_client_1 frontegg_client_2) ;;;
  when (MIGRATE_PREHOOKS env)
    (log INFO "=== Prehooks Migration ===" ;;;
     migrate_webhook_configuration steps frontegg_client_1 frontegg_client_2) ;;;
  when (MIGRATE_ALLOWED_ORIGINS env)
    (log INFO "=== Allowed Origins Migration ===" ;;;
     migrate_allowed_origins_configuration steps frontegg_client_1 frontegg_client_2) ;;;
  when (MIGRATE_JWT_SETTINGS env)
    (JwtSettings.migrate_jwt_settings env frontegg_client_1 frontegg_client_2) ;;;
  log INFO "SUCCESS: Migration process completed successfully!".

Definition main (env : gmap string string) (steps : other_steps) : M unit :=
  log INFO "=== Migration Process Starting ===" ;;;
  log INFO "--- Initializing Frontegg Clients ---" ;;;
  frontegg_client_1 <-
    FronteggClient (env !! "BASE_URL_1") (env !! "CLIENT_ID_1") (env !! "API_KEY_1") ;;
  frontegg_client_2 <-
    FronteggClient (env !! "BASE_URL_2") (env !! "CLIENT_ID_2") (env !! "API_KEY_2") ;;
  if truthy (token frontegg_client_1) && truthy (token frontegg_client_2)
  then run_steps env steps frontegg_client_1 frontegg_client_2
  else log ERROR "Authentication failed; migration aborted.".
End Main.
End Main.

(** The clients of the examples. *)
Definition src_client : client := {| base_url := "https://src"; token := "s"; client_id := "cs" |}.
Definition dst_client : client := {| base_url := "https://dst"; token := "d"; client_id := "cd" |}.

(** ** Two small runtimes to run the scripts on

    [scripted] answers the successive calls with the entries of a script,
    whatever the request; when the script is exhausted, calls get no
    response.  Its clock only advances by sleeping.  [answering f] answers
    every request [r] with [f r]. *)

Definition scripted : Runtime := {|
  net := list (option response) * Q;
  session_request := λ _ n,
    match fst n with
    | o :: script => (o, (script, snd n))
    | [] => (None, ([], snd n))
    end;
  time_time := snd;
  time_sleep := λ d n, (fst n, (snd n + d)%Q);
  json_loads := Some
|}.

Definition answering (f : request → response) : Runtime := {|
  net := Q;
  session_request := λ r n, (Some (f r), n);
  time_time := λ n, n;
  time_sleep := λ d n, (n + d)%Q;
  json_loads := Some
|}.

(** A model of the applications of the two accounts, after the
    specification's description of the platform: the source account lists
    [source_applications]; the destination account keeps a store of
    applications, lists it, adds the application of a creation call under
    a fresh identifier, and deletes the application a deletion call names,
    except that it refuses to delete its last remaining application.  The
    state is the store, the number of applications created so far, and the
    clock. *)
Definition stored_application (id : string) (b : application_body) : application :=
  {| a_id := id; a_name := ab_name b; a_appURL := Some (ab_appURL b);
     a_loginURL := Some (ab_loginURL b); a_accessType := Some (ab_accessType b);
     a_isActive := Some (ab_isActive b); a_type := Some (ab_type b);
     a_frontendStack := Some (ab_frontendStack b); a_isDefault := Some (ab_isDefault b);
     a_logoURL := ab_logoURL b; a_description := ab_description b;
     a_metadata := ab_metadata b |}.

Definition application_store_answer (source_applications : list application) (r : request)
    (store : list application) (created : nat) : response * (list application * nat) :=
  let listing base := base +:+ "/applications/resources/applications/v1?_excludeAgents=true" in
  let collection := base_url dst_client +:+ "/applications/resources/applications/v1" in
  let named (app : application) := bool_decide (url r = collection +:+ "/" +:+ a_id app) in
  match method r, json r with
  | GET, _ =>
      if bool_decide (url r = listing (base_url src_client))
      then ({| status_code := 200; content := JApplications source_applications |},
            (store, created))
      else if bool_decide (url r = listing (base_url dst_client))
      then ({| status_code := 200; content := JApplications store |}, (store, created))
      else ({| status_code := 404; content := JErrors ["Not found"] |}, (store, created))
  | POST, JApplicationBody b =>
      if bool_decide (url r = collection)
      then let app := stored_application ("app-" +:+ pretty created) b in
           ({| status_code := 201; content := JCreatedApplication app |},
            (store ++ [app], S created))
      else ({| status_code := 404; content := JErrors ["Not found"] |}, (store, created))
  | DELETE, _ =>
      if existsb named store
      then if Nat.leb (length store) 1
           then ({| status_code := 400;
                    content := JErrors ["Cannot delete the last application"] |},
                 (store, created))
           else ({| status_code := 200; content := JNothing |},
                 (filter (λ app, named app = false) store, created))
      else ({| status_code := 404; content := JErrors ["Not found"] |}, (store, created))
  | _, _ => ({| status_code := 404; content := JErrors ["Not found"] |}, (store, created))
  end.

Definition application_store (source_applications : list application) : Runtime := {|
  net := (list application * nat) * Q;
  session_request := λ r n,
    let '(resp, state) := application_store_answer source_applications r n.1.1 n.1.2 in
    (Some resp, (state, n.2));
  time_time := snd;
  time_sleep := λ d n, (n.1, (n.2 + d)%Q);
  json_loads := Some
|}.

Definition store_world (source_applications dest_applications : list application)
    : @world (application_store source_applications) :=
  @Build_world (application_store source_applications) ((dest_applications, 0), 0%Q) [] (λ _, ∅).

(** The applications of the specification's example: three non-default
    and one default application in the source, two applications in the
    destination. *)
Definition example_application (id name : string) (default : bool) : application :=
  {| a_id := id; a_name := name; a_appURL := None; a_loginURL := None; a_accessType := None;
     a_isActive := None; a_type := None; a_frontendStack := None; a_isDefault := Some default;
     a_logoURL := None; a_description := None; a_metadata := None |}.

Definition example_source_applications : list application :=
  [example_application "s1" "Portal" false; example_application "s2" "Main" true;
   example_application "s3" "Admin" false; example_application "s4" "Docs" false].

Definition example_dest_applications : list application :=
  [example_application "d1" "Default App" true; example_application "d2" "Old App" false].

(** The world in which [scripted] starts with a given script. *)
Definition script_world (script : list (option response)) : @world scripted :=
  @Build_world scripted (script, 0%Q) [] (λ _, ∅).

Definition ok_response (b : body) : option response :=
  Some {| status_code := 200; content := b |}.

(** The requests of a trace, in order. *)
Definition event_request (e : event) : option request :=
  match e with
  | EvRequest r => Some r
  | _ => None
  end.

Definition requests_of (tr : list event) : list request := omap event_request tr.


(** ** What a computation does to the trace

    [issues L Q m]: from every world, [m] extends the trace by events
    whose requests, in order, form a list in [L], and ends with a result
    in [Q].  [possible r resp]: the network can answer [r] with [resp]. *)

Section Logic.
Context `{Runtime}.

Definition possible (r : request) (resp : response) : Prop :=
  ∃ n n', session_request r n = (Some resp, n').

Definition issues {A : Type} (L : list request → Prop) (Q : result A → Prop) (m : M A) : Prop :=
  ∀ w, ∃ evs, w_trace (m w).2 = w_trace w ++ evs ∧ L (requests_of evs) ∧ Q (m w).1.

(** No request at all. *)
Definition silent (l : list request) : Prop := l = [].

(** Requests that all satisfy [P]. *)
Definition only (P : request → Prop) (l : list request) : Prop := Forall P l.

(** The request [r], sent once, or twice in a row. *)
Definition once_or_twice (r : request) (l : list request) : Prop := l = [r] ∨ l = [r; r].

(** One block of requests per element of [xs], in the order of [xs]. *)
Fixpoint each {A : Type} (f : A → list request → Prop) (xs : list A) (l : list request) : Prop :=
  match xs with
  | [] => l = []
  | x :: xs' => ∃ l1 l2, l = l1 ++ l2 ∧ f x l1 ∧ each f xs' l2
  end.

(** A list of [L1] followed by a list of [L2]. *)
Definition followed_by (L1 L2 : list request → Prop) (l : list request) : Prop :=
  ∃ l1 l2, l = l1 ++ l2 ∧ L1 l1 ∧ L2 l2.

Definition returns {A : Type} (Q : A → Prop) (r : result A) : Prop :=
  match r with
  | Ok a => Q a
  | Raise _ => False
  end.

Definition if_returns {A : Type} (Q : A → Prop) (r : result A) : Prop :=
  match r with
  | Ok a => Q a
  | Raise _ => True
  end.

(** The world [w] after the events [evs], none of which touched the
    network. *)
Definition after_events (w : world) (evs : list event) : world :=
  {| w_net := w_net w; w_trace := w_trace w ++ evs;
     w_last_request_times := w_last_request_times w |}.

Definition is_get (r : request) : Prop := method r = GET.










Definition application_creation_call (c : client) (app : application) : request :=
  {| method := POST; url := base_url c +:+ "/applications/resources/applications/v1";
     headers := get_headers c; json := JApplicationBody (application_req_body app) |}.

Definition application_deletion_call (c : client) (app : application) : request :=
  {| method := DELETE;
     url := base_url c +:+ "/applications/resources/applications/v1/" +:+ a_id app;
     headers := get_headers c; json := JNothing |}.

(** How a rate-limited call of [r] can end: with a response that is not
    an error, with the [HTTPError] of an error response, or without a
    response. *)
Definition request_outcome (r : request) (res : result response) : Prop :=
  match res with
  | Ok resp => possible r resp ∧ is_error_status (status_code resp) = false
  | Raise (HTTPError resp) => possible r resp ∧ is_error_status (status_code resp) = true
  | Raise ConnectionError => True
  | Raise _ => False
  end.
End Logic.

(** ** migration_scripts/users.py: the phone column of the user import *)

(** [s.split('.')[0]]: the characters of [s] before its first dot. *)
Fixpoint before_first_dot (s : string) : string :=
  match s with
  | EmptyString => EmptyString
  | String c s' => if Ascii.eqb c "."%char then EmptyString else String c (before_first_dot s')
  end.

(** [format_phone_number] of [finalize_csv].  The column is read as
    strings; [None] is a missing value, for which [pd.isna] holds. *)
Definition format_phone_number (phone : option string) : string :=
  match phone with
  | None => ""
  | Some phone =>
      let phone_str := before_first_dot phone in
      if String.prefix "+" phone_str then phone_str else "+" +:+ phone_str
  end.

(** ** migration_scripts/allowed_origins.py: the merge of the allowed origins *)

(** [list(set(source_origins + dest_origins))], as the set that the list
    enumerates (in an order that the language leaves open). *)
Definition merged_origins (source_origins dest_origins : list string) : gset string :=
  list_to_set (source_origins ++ dest_origins).

(** [len(merged_origins) - len(dest_origins)] *)
Definition new_origins_count (source_origins dest_origins : list string) : Z :=
  (Z.of_nat (size (merged_origins source_origins dest_origins))
   - Z.of_nat (length dest_origins))%Z.

(** ** migration_scripts/security_rules.py: the comparison of two rules *)

Section SecurityRules.
(** The values of a rule's fields, compared with [!=]: JSON values, on
    which [!=] is the negation of an equality. *)
Context {V : Type} `{EqDecision V}.

(** A rule configuration as the platform returns it: a JSON object; a
    field bound to [None] is a field whose value is [null]. *)
Definition security_rule : Type := gmap string (option V).

(** [rule.get(field)] *)
Definition rule_get (rule : security_rule) (field : string) : option V :=
  mjoin (rule !! field).

(** Truth value of a configuration that may be [None]: a non-empty
    object. *)
Definition rule_truthy (rule : option security_rule) : bool :=
  match rule with
  | Some r => negb (bool_decide (r = ∅))
  | None => false
  end.

Definition important_fields : list string :=
  ["action"; "enabled"; "threshold"; "timeWindow"; "lockDuration"; "challengeType"].

Definition compare_rules (source_rule dest_rule : option security_rule) : bool :=
  if negb (rule_truthy source_rule) || negb (rule_truthy dest_rule) then false
  else
    match source_rule, dest_rule with
    | Some s, Some d =>
        forallb (λ field,
                   if bool_decide (is_Some (s !! field)) || bool_decide (is_Some (d !! field))
                   then bool_decide (rule_get s field = rule_get d field)
                   else true)
                important_fields
    | _, _ => false
    end.
End SecurityRules.

(** ** delete_account_data.py *)

Module DeleteAccountData.
Section DeleteAccountData.
Context `{Runtime}.

(** The constants that the module reads from the environment when it is
    loaded. *)
Variable BASE_URL : string.
Variable CLIENT_ID : string.
Variable API_KEY : option string.

(** [f'Bearer {token}']: a token that is [None] is written [None]. *)
Definition bearer (token : option string) : string :=
  "Bearer " +:+ get_default token "None".

Definition get_vendor_token : M (option string) :=
  let u := BASE_URL +:+ "/auth/vendor/" in
  let hs := [("accept", "application/json"); ("content-type", "application/json")] in
  resp <- do_request {| method := POST; url := u; headers := hs;
                        json := JAuthBody CLIENT_ID API_KEY |} ;;
  raise_for_status resp ;;;
  match content resp with
  | JToken tok _ => ret tok
  | _ => raise DecodeError
  end.

Definition delete_user (token : option string) (user_id : string) : M unit :=
  let u := BASE_URL +:+ "/identity/resources/users/v1/" +:+ user_id in
  let hs := [("Authorization", bearer token)] in
  try_except
    (resp <- do_request {| method := DELETE; url := u; headers := hs; json := JNothing |} ;;
     raise_for_status resp ;;;
     log INFO ("Deleted user with ID: " +:+ user_id))
    (λ e, match e with
          | HTTPError resp =>
              if (status_code resp =? 404)%Z
              then log INFO ("User not found (404), skipping: " +:+ user_id)
              else log INFO ("Failed to delete user with ID " +:+ user_id)
          | _ => raise e
          end).

Definition get_tenant_ids (token : option string) : M (list string) :=
  let u := BASE_URL +:+ "/tenants/resources/tenants/v2" in
  let hs := [("Authorization", bearer token)] in
  resp <- do_request {| method := GET; url := u; headers := hs; json := JNothing |} ;;
  raise_for_status resp ;;;
  match content resp with
  | JTenantItems items _ => ret (t_tenantId <$> items)
  | _ => raise DecodeError
  end.

Definition delete_tenant (token : option string) (tenant_id : string) : M unit :=
  let u := BASE_URL +:+ "/tenants/resources/tenants/v1/" +:+ tenant_id in
  let hs := [("Authorization", bearer token)] in
  resp <- do_request {| method := DELETE; url := u; headers := hs; json := JNothing |} ;;
  raise_for_status resp ;;;
  log INFO ("Deleted tenant with ID: " +:+ tenant_id).

Definition get_permissions (token : option string) : M (list string) :=
  let u := BASE_URL +:+ "/identity/resources/permissions/v1" in
  let hs := [("Authorization", bearer token)] in
  resp <- do_request {| method := GET; url := u; headers := hs; json := JNothing |} ;;
  raise_for_status resp ;;;
  match content resp with
  | JPermissions perms => ret (p_id <$> perms)
  | _ => raise DecodeError
  end.

Definition delete_permission (token : option string) (permission_id : string) : M unit :=
  let u := BASE_URL +:+ "/identity/resources/permissions/v1/" +:+ permission_id in
  let hs := [("Authorization", bearer token)] in
  try_except
    (resp <- do_request {| method := DELETE; url := u; headers := hs; json := JNothing |} ;;
     raise_for_status resp ;;;
     log INFO ("Deleted permission with ID: " +:+ permission_id))
    (λ e, match e with
          | HTTPError resp =>
              if (status_code resp =? 404)%Z
              then log INFO ("Permission not found (404), skipping: " +:+ permission_id)
              else raise e
          | _ => raise e
          end).

Definition get_roles (token : option string) : M (list string) :=
  let u := BASE_URL +:+ "/identity/resources/roles/v2?_limit=2000" in
  let hs := [("Authorization", bearer token)] in
  resp <- do_request {| method := GET; url := u; headers := hs; json := JNothing |} ;;
  raise_for_status resp ;;;
  match content resp with
  | JRoleItems items _ => ret (r_id <$> items)
  | _ => raise DecodeError
  end.

Definition delete_role (token : option string) (role_id : string) : M unit :=
  let u := BASE_URL +:+ "/identity/resources/roles/v1/" +:+ role_id in
  let hs := [("Authorization", bearer token)] in
  try_except
    (resp <- do_request {| method := DELETE; url := u; headers := hs; json := JNothing |} ;;
     raise_for_status resp ;;;
     log INFO ("Deleted role with ID: " +:+ role_id))
    (λ e, match e with
          | HTTPError resp =>
              if (status_code resp =? 404)%Z
              then log INFO ("Role not found (404), skipping: " +:+ role_id)
              else log INFO ("Failed to delete role with ID " +:+ role_id)
          | _ => raise e
          end).

Definition get_applications (token : option string) : M (list application) :=
  let u := BASE_URL +:+ "/applications/resources/applications/v1?_excludeAgents=true" in
  let hs := [("Authorization", bearer token)] in
  resp <- do_request {| method := GET; url := u; headers := hs; json := JNothing |} ;;
  raise_for_status resp ;;;
  applications <- match content resp with
                  | JApplications apps => ret apps
                  | _ => raise DecodeError
                  end ;;
  log INFO "Retrieved applications." ;;;
  ret applications.

Definition delete_application (token : option string) (app_id app_name : string) : M bool :=
  let u := BASE_URL +:+ "/applications/resources/applications/v1/" +:+ app_id in
  let hs := [("Authorization", bearer token)] in
  let display_name := if truthy app_name then app_name else app_id in
  try_except
    (resp <- do_request {| method := DELETE; url := u; headers := hs; json := JNothing |} ;;
     raise_for_status resp ;;;
     log INFO ("Deleted application: " +:+ display_name) ;;;
     ret true)
    (λ e, match e with
          | HTTPError resp =>
              (if (status_code resp =? 404)%Z
               then log INFO ("Application not found (404), skipping: " +:+ display_name)
               else if (status_code resp =? 400)%Z
               then log INFO ("Cannot delete - likely the default application (400): "
                              +:+ display_name)
               else log INFO ("Failed to delete application " +:+ display_name)) ;;;
              ret false
          | _ => raise e
          end).

(** One turn of the loop of [main] that sets the dummy application
    apart. *)
Definition keep_for_deletion (dummy_app_id : option string) (apps_to_delete : list application)
    (app : application) : M (list application) :=
  if bool_decide (Some (a_id app) = dummy_app_id)
  then log INFO ("Will delete dummy app last: " +:+ a_name app) ;;;
       ret apps_to_delete
  else
    (if is_default app
     then log INFO ("Found default application: " +:+ a_name app)
     else ret tt) ;;;
    ret (apps_to_delete ++ [app]).

(** One deletion and the update of the two counters. *)
Definition delete_and_count (token : option string) (counts : nat * nat) (app : application)
    : M (nat * nat) :=
  deleted <- delete_application token (a_id app) (a_name app) ;;
  if deleted then ret (S (fst counts), snd counts) else ret (fst counts, S (snd counts)).

(** The [if DELETE_APPLICATIONS:] block of [main] from the point where
    [create_dummy_application] has returned [dummy_app]. *)
Definition delete_applications_with (token : option string) (dummy_app : option application)
    : M unit :=
  (match dummy_app with
   | Some _ => ret tt
   | None => log INFO "Warning: Could not create dummy app, some applications may not be deletable"
   end) ;;;
  log INFO "Step 2: Fetching all applications..." ;;;
  applications <- get_applications token ;;
  match applications with
  | [] => log INFO "No applications found to delete."
  | _ =>
      let dummy_app_id := a_id <$> dummy_app in
      apps_to_delete <- for_fold applications [] (keep_for_deletion dummy_app_id) ;;
      log INFO "Step 3: Deleting original applications..." ;;;
      counts <- for_fold apps_to_delete (0, 0) (delete_and_count token) ;;
      counts <-
        match dummy_app with
        | Some dummy =>
            log INFO "Step 4: Attempting to delete dummy application..." ;;;
            deleted <- delete_application token (a_id dummy) (a_name dummy) ;;
            if deleted
            then log INFO "Successfully cleaned up dummy application" ;;;
                 ret (S (fst counts), snd counts)
            else log INFO "Dummy app remains (now default) - you may want to delete it manually" ;;;
                 ret counts
        | None => ret counts
        end ;;
      log INFO "Summary: Deleted applications" ;;;
      if (0 <? snd counts)%nat then log INFO "(could not be deleted)" else ret tt
  end.

(** The [if DELETE_TENANTS:], [if DELETE_PERMISSIONS:] and
    [if DELETE_ROLES:] blocks of [main]. *)
Definition delete_tenants (token : option string) : M unit :=
  log INFO "=== Deleting Tenants ===" ;;;
  tenant_ids <- get_tenant_ids token ;;
  for_each tenant_ids (delete_tenant token).

Definition delete_permissions (token : option string) : M unit :=
  log INFO "=== Deleting Permissions ===" ;;;
  permissions <- get_permissions token ;;
  for_each permissions (delete_permission token).

Definition delete_roles (token : option string) : M unit :=
  log INFO "=== Deleting Roles ===" ;;;
  roles <- get_roles token ;;
  for_each roles (delete_role token).

(** The deletion calls. *)
Definition deletion_call (path : string) (token : option string) (id : string) : request :=
  {| method := DELETE; url := BASE_URL +:+ path +:+ id;
     headers := [("Authorization", bearer token)]; json := JNothing |}.
End DeleteAccountData.
End DeleteAccountData.

(** ** The requests of the scripts, and the conditions of their branches

    The calls that the functions above send, written as the values that
    [session_request] receives, and the conditions that the loops of the
    scripts test. *)

(** The POST of [create_categories]. *)
Definition category_creation_call (c : client) (cat : category) : request :=
  {| method := POST; url := base_url c +:+ "/identity/resources/permissions/v1/categories";
     headers := get_headers c; json := JCategoryBody (c_name cat) (c_description cat) |}.

(** The GET of [get_permissions]. *)
Definition permission_listing_call (c : client) : request :=
  {| method := GET; url := base_url c +:+ "/identity/resources/permissions/v1";
     headers := get_headers c; json := JNothing |}.

(** The two POSTs of [create_roles]: the batch of the roles without a
    tenant, and the single role of a tenant. *)
Definition role_batch_creation_call (c : client) (roles_without_tenant : list role) : request :=
  {| method := POST; url := base_url c +:+ "/identity/resources/roles/v1";
     headers := role_headers c;
     json := JRolesBody (role_data_of false <$> roles_without_tenant) |}.

Definition tenant_role_creation_call (c : client) (r : role) : request :=
  {| method := POST; url := base_url c +:+ "/identity/resources/roles/v1";
     headers := role_headers c ++ [("frontegg-tenant-id", get_default (r_tenantId r) "")];
     json := JRolesBody [role_data_of true r] |}.

(** Every key of a role-id mapping is the id of one of the roles. *)
Definition keys_among (roles : list role) (role_id_mapping : gmap string string) : Prop :=
  ∀ id, is_Some (role_id_mapping !! id) → ∃ r, r ∈ roles ∧ r_id r = id.

(** The permission data that [migrate_roles] attaches to a role it keeps. *)
Definition with_permissions_data (source_permissions_by_id : gmap string permission) (r : role)
    : role :=
  set_permissionsData r (omap (source_permissions_by_id !!.) (get_default (r_permissions r) [])).

(** [r] is the first role of the list with its key. *)
Definition first_with_key (source_roles : list role) (r : role) : Prop :=
  ∃ before after, source_roles = before ++ r :: after
                  ∧ ∀ r', r' ∈ before → r_key r' ≠ r_key r.

(** The GET of [get_jwt_settings] and the POST of [update_jwt_settings]. *)
Definition jwt_settings_call (c : client) : request :=
  {| method := GET; url := base_url c +:+ "/identity/resources/configurations/v1";
     headers := [("Authorization", "Bearer " +:+ token c)]; json := JNothing |}.

Definition jwt_update_call (c : client) (settings : jwt_settings) : request :=
  {| method := POST; url := base_url c +:+ "/identity/resources/configurations/v1";
     headers := [("Authorization", "Bearer " +:+ token c);
                 ("Content-Type", "application/json");
                 ("frontegg-vendor-id", client_id c)];
     json := JConfiguration settings |}.

(** The destination has, for every setting the source has, the same
    value. *)
Definition settings_agree (s d : jwt_settings) : Prop :=
  (∀ v, j_defaultTokenExpiration s = Some v → j_defaultTokenExpiration d = Some v)
  ∧ (∀ v, j_defaultRefreshTokenExpiration s = Some v → j_defaultRefreshTokenExpiration d = Some v)
  ∧ (∀ v, j_cookieSameSite s = Some v → j_cookieSameSite d = Some v).

(** The POST of [FronteggClient.authenticate]. *)
Definition authentication_call (base client_id_ : string) (secret : option string) : request :=
  {| method := POST; url := base +:+ "/auth/vendor"; headers := [];
     json := JAuthBody client_id_ secret |}.

Section Conditions.
Context `{Runtime}.


(** A deletion that sends the call [r] and goes on whatever status comes
    back: it raises only when the connection fails. *)
Definition tolerant_call (r : request) (m : M unit) : Prop :=
  ∀ w : world,
    requests_of (w_trace (m w).2) = requests_of (w_trace w) ++ [r]
    ∧ match (m w).1 with
      | Ok _ => True
      | Raise e => e = ConnectionError ∧ ∃ n1, session_request r (w_net w) = (None, n1)
      end.
End Conditions.

(** The GET of [get_applications] and the DELETE of [delete_application]
    in delete_account_data.py. *)
Definition application_listing (BASE_URL : string) (token : option string) : request :=
  {| method := GET;
     url := BASE_URL +:+ "/applications/resources/applications/v1?_excludeAgents=true";
     headers := [("Authorization", DeleteAccountData.bearer token)]; json := JNothing |}.

Definition application_removal (BASE_URL : string) (token : option string) (app : application)
    : request :=
  DeleteAccountData.deletion_call BASE_URL "/applications/resources/applications/v1/" token
    (a_id app).

(** * Properties *)

Section LogicFacts.
Context `{Runtime}.

Lemma requests_of_app (l1 l2 : list event) :
  requests_of (l1 ++ l2) = requests_of l1 ++ requests_of l2.
Proof. unfold requests_of. apply omap_app. Qed.

Lemma issues_conseq {A : Type} (L L' : list request → Prop) (Q Q' : result A → Prop) (m : M A) :
  issues L Q m → (∀ l, L l → L' l) → (∀ r, Q r → Q' r) → issues L' Q' m.
Proof.
  intros Hm HL HQ w. destruct (Hm w) as (evs & Ht & Hl & Hq).
  exists evs. auto.
Qed.

Lemma issues_ret {A : Type} (L : list request → Prop) (Q : result A → Prop) (a : A) :
  L [] → Q (Ok a) → issues L Q (ret a).
Proof. intros HL HQ w. exists []. simpl. rewrite app_nil_r. auto. Qed.

Lemma issues_raise {A : Type} (L : list request → Prop) (Q : result A → Prop) (e : exn) :
  L [] → Q (Raise e) → issues L Q (raise e).
Proof. intros HL HQ w. exists []. simpl. rewrite app_nil_r. auto. Qed.

Lemma issues_bind {A B : Type} (L1 L2 L : list request → Prop)
    (Q1 : result A → Prop) (Q : result B → Prop) (m : M A) (k : A → M B) :
  issues L1 Q1 m →
  (∀ a, Q1 (Ok a) → issues L2 Q (k a)) →
  (∀ l1 l2, L1 l1 → L2 l2 → L (l1 ++ l2)) →
  (∀ e l1, Q1 (Raise e) → L1 l1 → L l1 ∧ Q (Raise e)) →
  issues L Q (bind m k).
Proof.
  intros Hm Hk Hseq Hraise w. unfold bind.
  destruct (Hm w) as (evs & Ht & Hl & Hq).
  destruct (m w) as [[a|e] w1]; simpl in *.
  - destruct (Hk a Hq w1) as (evs' & Ht' & Hl' & Hq').
    exists (evs ++ evs'). rewrite Ht', Ht, requests_of_app, app_assoc. auto.
  - exists evs. destruct (Hraise e _ Hq Hl). auto.
Qed.

Lemma issues_try {A : Type} (L1 L2 L : list request → Prop)
    (Q1 Q : result A → Prop) (m : M A) (h : exn → M A) :
  issues L1 Q1 m →
  (∀ e, Q1 (Raise e) → issues L2 Q (h e)) →
  (∀ l1 l2, L1 l1 → L2 l2 → L (l1 ++ l2)) →
  (∀ a l1, Q1 (Ok a) → L1 l1 → L l1 ∧ Q (Ok a)) →
  issues L Q (try_except m h).
Proof.
  intros Hm Hh Hseq Hok w. unfold try_except.
  destruct (Hm w) as (evs & Ht & Hl & Hq).
  destruct (m w) as [[a|e] w1]; simpl in *.
  - exists evs. destruct (Hok a _ Hq Hl). auto.
  - destruct (Hh e Hq w1) as (evs' & Ht' & Hl' & Hq').
    exists (evs ++ evs'). rewrite Ht', Ht, requests_of_app, app_assoc. auto.
Qed.

(** The rules for requests that all satisfy one predicate. *)
Lemma only_bind {A B : Type} (P : request → Prop)
    (Q1 : result A → Prop) (Q : result B → Prop) (m : M A) (k : A → M B) :
  issues (only P) Q1 m →
  (∀ a, Q1 (Ok a) → issues (only P) Q (k a)) →
  (∀ e, Q1 (Raise e) → Q (Raise e)) →
  issues (only P) Q (bind m k).
Proof.
  intros Hm Hk Hr. eapply issues_bind; [exact Hm | exact Hk | | ].
  - intros l1 l2 H1 H2. apply Forall_app. auto.
  - intros e l1 Hq Hl. auto.
Qed.

Lemma only_try {A : Type} (P : request → Prop)
    (Q1 Q : result A → Prop) (m : M A) (h : exn → M A) :
  issues (only P) Q1 m →
  (∀ e, Q1 (Raise e) → issues (only P) Q (h e)) →
  (∀ a, Q1 (Ok a) → Q (Ok a)) →
  issues (only P) Q (try_except m h).
Proof.
  intros Hm Hh Hr. eapply issues_try; [exact Hm | exact Hh | | ].
  - intros l1 l2 H1 H2. apply Forall_app. auto.
  - intros a l1 Hq Hl. auto.
Qed.

Lemma silent_only (P : request → Prop) (l : list request) : silent l → only P l.
Proof. intros ->. constructor. Qed.

Lemma issues_emit (Q : result unit → Prop) (e : event) :
  event_request e = None → Q (Ok tt) → issues silent Q (emit e).
Proof.
  intros He HQ w. exists [e]. split; [reflexivity|]. split; [|exact HQ].
  unfold silent, requests_of. simpl. rewrite He. reflexivity.
Qed.

Lemma issues_log (Q : result unit → Prop) (lvl : level) (msg : string) :
  Q (Ok tt) → issues silent Q (log lvl msg).
Proof. intros. apply issues_emit; auto. Qed.

Lemma issues_print_stats (Q : result unit → Prop) title stats :
  Q (Ok tt) → issues silent Q (print_stats title stats).
Proof. intros. apply issues_emit; auto. Qed.

Lemma issues_enforce_rate_limit (lim : limiter) (endpoint : string) :
  issues silent (returns (λ _, True)) (enforce_rate_limit lim endpoint).
Proof.
  intros w. unfold enforce_rate_limit, bind, last_request_time, time_time_now,
    set_last_request_time, sleep, ret. simpl.
  destruct (w_last_request_times w lim !! endpoint) as [t0|]; simpl.
  - destruct (Qlt_le_dec _ _); simpl.
    + eexists [_]. split; [reflexivity|]. split; [reflexivity|exact I].
    + exists []. rewrite app_nil_r. split; [reflexivity|]. split; [reflexivity|exact I].
  - exists []. rewrite app_nil_r. split; [reflexivity|]. split; [reflexivity|exact I].
Qed.

End LogicFacts.

Section RequestFacts.
Context `{Runtime}.

Lemma issues_make_request (lim : limiter) (m : http_method) (u : string) (c : client)
    (hs : list (string * string)) (b : body) :
  let r := {| method := m; url := u; headers := hs; json := b |} in
  issues (once_or_twice r) (request_outcome r)
    (make_request_with_rate_limiting lim m u c hs b).
Proof.
  intros r w. unfold make_request_with_rate_limiting. fold r.
  destruct (issues_enforce_rate_limit lim u w) as (evs0 & Ht0 & Hs0 & Hq0).
  unfold try_except, bind, do_request, raise_for_status, log, sleep, emit, ret, raise.
  destruct (enforce_rate_limit lim u w) as [[[]|e] w0]; simpl in Ht0, Hq0; [|contradiction].
  unfold silent in Hs0.
  destruct (session_request r (w_net w0)) as [[resp1|] n1] eqn:E1; simpl.
  - destruct (status_code resp1 =? 429)%Z eqn:E429; simpl.
    + destruct (session_request r (time_sleep 60 n1)) as [[resp2|] n2] eqn:E2; simpl.
      * destruct (is_error_status (status_code resp2)) eqn:Es; simpl.
        -- eexists (evs0 ++ [EvRequest r; _; _; EvRequest r; _]).
           split; [rewrite Ht0; repeat rewrite <- app_assoc; reflexivity|].
           split; [rewrite requests_of_app, Hs0; unfold once_or_twice; right; reflexivity|].
           simpl; split; [eexists _, _; exact E2 | exact Es].
        -- eexists (evs0 ++ [EvRequest r; _; _; EvRequest r]).
           split; [rewrite Ht0; repeat rewrite <- app_assoc; reflexivity|].
           split; [rewrite requests_of_app, Hs0; unfold once_or_twice; right; reflexivity|].
           simpl; split; [eexists _, _; exact E2 | exact Es].
      * eexists (evs0 ++ [EvRequest r; _; _; EvRequest r; _]).
        split; [rewrite Ht0; repeat rewrite <- app_assoc; reflexivity|].
        split; [rewrite requests_of_app, Hs0; unfold once_or_twice; right; reflexivity|exact I].
    + destruct (is_error_status (status_code resp1)) eqn:Es; simpl.
      * eexists (evs0 ++ [EvRequest r; _]).
        split; [rewrite Ht0; repeat rewrite <- app_assoc; reflexivity|].
        split; [rewrite requests_of_app, Hs0; unfold once_or_twice; left; reflexivity|].
        simpl; split; [eexists _, _; exact E1 | exact Es].
      * eexists (evs0 ++ [EvRequest r]).
        split; [rewrite Ht0; repeat rewrite <- app_assoc; reflexivity|].
        split; [rewrite requests_of_app, Hs0; unfold once_or_twice; left; reflexivity|].
        simpl; split; [eexists _, _; exact E1 | exact Es].
  - eexists (evs0 ++ [EvRequest r; _]).
    split; [rewrite Ht0; repeat rewrite <- app_assoc; reflexivity|].
    split; [rewrite requests_of_app, Hs0; unfold once_or_twice; left; reflexivity|exact I].
Qed.

Lemma issues_make_request_any (lim : limiter) (m : http_method) (u : string) (c : client)
    (hs : list (string * string)) (b : body) :
  issues (once_or_twice {| method := m; url := u; headers := hs; json := b |}) (λ _, True)
    (make_request_with_rate_limiting lim m u c hs b).
Proof. eapply issues_conseq; [apply issues_make_request | auto | auto]. Qed.
End RequestFacts.

Section OnlyFacts.
Context `{Runtime}.

Lemma only_ret {A : Type} (P : request → Prop) (Q : result A → Prop) (a : A) :
  Q (Ok a) → issues (only P) Q (ret a).
Proof. intros. apply issues_ret; [constructor | assumption]. Qed.

Lemma only_raise {A : Type} (P : request → Prop) (Q : result A → Prop) (e : exn) :
  Q (Raise e) → issues (only P) Q (raise e).
Proof. intros. apply issues_raise; [constructor | assumption]. Qed.

Lemma only_log (P : request → Prop) (Q : result unit → Prop) (lvl : level) (msg : string) :
  Q (Ok tt) → issues (only P) Q (log lvl msg).
Proof.
  intros. eapply issues_conseq; [apply (issues_log Q); assumption | apply silent_only | auto].
Qed.


(** Sequencing after a computation that cannot raise. *)
Lemma only_bind_ok {A B : Type} (P : request → Prop) (Q1 : A → Prop)
    (Q : result B → Prop) (m : M A) (k : A → M B) :
  issues (only P) (returns Q1) m →
  (∀ a, Q1 a → issues (only P) Q (k a)) →
  issues (only P) Q (bind m k).
Proof.
  intros Hm Hk. eapply only_bind; [exact Hm | exact Hk | intros e []].
Qed.

Lemma only_seq_log {B : Type} (P : request → Prop) (Q : result B → Prop)
    (lvl : level) (msg : string) (k : M B) :
  issues (only P) Q k → issues (only P) Q (bind (log lvl msg) (λ _, k)).
Proof.
  intros Hk. eapply only_bind_ok; [apply (only_log P (returns (λ _, True))); exact I|].
  intros _ _. exact Hk.
Qed.


Lemma only_make_request (P : request → Prop) (Q : result response → Prop)
    (lim : limiter) (m : http_method) (u : string) (c : client)
    (hs : list (string * string)) (b : body) :
  let r := {| method := m; url := u; headers := hs; json := b |} in
  P r → (∀ res, request_outcome r res → Q res) →
  issues (only P) Q (make_request_with_rate_limiting lim m u c hs b).
Proof.
  intros r HP HQ. eapply issues_conseq; [apply issues_make_request | | exact HQ].
  intros l [-> | ->]; repeat constructor; exact HP.
Qed.

Lemma only_for_each {A : Type} (P : request → Prop) (E : exn → Prop)
    (l : list A) (body : A → M unit) :
  (∀ x, x ∈ l → issues (only P) (λ r, match r with Ok _ => True | Raise e => E e end) (body x)) →
  issues (only P) (λ r, match r with Ok _ => True | Raise e => E e end) (for_each l body).
Proof.
  induction l as [|x l IH]; intros Hb; simpl.
  - apply only_ret. exact I.
  - eapply only_bind; [apply Hb; left | | intros e He; exact He].
    intros _ _. apply IH. intros y Hy. apply Hb. right. exact Hy.
Qed.

Lemma only_for_fold {A S : Type} (P : request → Prop) (I : S → Prop) (E : exn → Prop)
    (l : list A) (acc : S) (body : S → A → M S) :
  I acc →
  (∀ s x, x ∈ l → I s →
     issues (only P) (λ r, match r with Ok s' => I s' | Raise e => E e end) (body s x)) →
  issues (only P) (λ r, match r with Ok s' => I s' | Raise e => E e end) (for_fold l acc body).
Proof.
  revert acc. induction l as [|x l IH]; intros acc Hacc Hb; simpl.
  - apply only_ret. exact Hacc.
  - eapply only_bind; [apply Hb; [left | exact Hacc] | | intros e He; exact He].
    intros s Hs. apply IH; [exact Hs|]. intros s' y Hy. apply Hb. right. exact Hy.
Qed.


Lemma get_permissions_safe (P : request → Prop) (c : client) :
  (∀ r, is_get r → P r) → issues (only P) (returns (λ _, True)) (get_permissions c).
Proof.
  intros HP. unfold get_permissions. apply only_seq_log.
  eapply only_try with (Q1 := λ _, True).
  - eapply only_bind with (Q1 := λ _, True).
    + apply only_make_request; [apply HP; reflexivity | auto].
    + intros resp _.
      eapply only_bind with (Q1 := λ _, True); [| | auto].
      * destruct (content resp); first [apply only_ret | apply only_raise]; exact I.
      * intros items _. apply only_seq_log. apply only_ret. exact I.
    + auto.
  - intros e _. apply only_seq_log. apply only_ret. exact I.
  - intros a _. exact I.
Qed.
End OnlyFacts.

Section RateLimit.
Context `{Runtime}.

Lemma enforce_rate_limit_returns (lim : limiter) (u : string) (w : world) :
  (enforce_rate_limit lim u w).1 = Ok tt.
Proof.
  destruct (issues_enforce_rate_limit lim u w) as (_ & _ & _ & Hq).
  destruct (enforce_rate_limit lim u w) as [[[]|e] w0]; simpl in *; [reflexivity|contradiction].
Qed.


End RateLimit.

Section Claim8.
Context `{Runtime}.

End Claim8.


Section Claim10.
Context `{Runtime}.

Lemma flag_insert_ne (env : gmap string string) (k v name : string) :
  k ≠ name → flag (<[k := v]> env) name = flag env name.
Proof. intros Hne. unfold flag, getenv. rewrite lookup_insert_ne; [reflexivity | exact Hne]. Qed.

Lemma migrate_jwt_settings_insert (env : gmap string string) (v : string) :
  JwtSettings.migrate_jwt_settings (<["MIGRATE_JWT_SETTINGS" := v]> env)
  = JwtSettings.migrate_jwt_settings env.
Proof.
  unfold JwtSettings.migrate_jwt_settings, JwtSettings.MIGRATE_JWT_SETTINGS.
  rewrite flag_insert_ne; [reflexivity | discriminate].
Qed.

(** C10.  The variable [MIGRATE_JWT_SETTINGS] is read nowhere: giving it
    any value changes neither the orchestrator's flag, nor the guard of the
    step, nor the run of [main].  Both flags are true exactly when the
    variable spelled [MIGRATE_JWT_SETTINTS] is set to a string whose lower
    case is ["true"]; and when that variable is absent,
    [migrate_jwt_settings], if it is invoked, logs one warning and returns
    without a call to either account. *)
Theorem jwt_step_reads_misspelt_variable :
  (∀ (env : gmap string string) (v : string) steps,
     let env' := <["MIGRATE_JWT_SETTINGS" := v]> env in
     Main.MIGRATE_JWT_SETTINGS env' = Main.MIGRATE_JWT_SETTINGS env
     ∧ JwtSettings.MIGRATE_JWT_SETTINGS env' = JwtSettings.MIGRATE_JWT_SETTINGS env
     ∧ Main.main env' steps = Main.main env steps)
  ∧ (∀ env : gmap string string,
       (Main.MIGRATE_JWT_SETTINGS env = true
        ↔ ∃ s, env !! "MIGRATE_JWT_SETTINTS" = Some s ∧ lower s = "true")
       ∧ JwtSettings.MIGRATE_JWT_SETTINGS env = Main.MIGRATE_JWT_SETTINGS env)
  ∧ (∀ (env : gmap string string) source_client destination_client (w : world),
       env !! "MIGRATE_JWT_SETTINTS" = None →
       Main.MIGRATE_JWT_SETTINGS env = false
       ∧ JwtSettings.migrate_jwt_settings env source_client destination_client w
         = (Ok tt,
            {| w_net := w_net w;
               w_trace := w_trace w ++
                 [EvLog WARNING "JWT settings migration is disabled (MIGRATE_JWT_SETTINTS=False)"];
               w_last_request_times := w_last_request_times w |})).
Proof.
  split; [|split].
  - intros env v steps env'. subst env'.
    split; [apply flag_insert_ne; discriminate|].
    split; [apply flag_insert_ne; discriminate|].
    unfold Main.main, Main.run_steps, Main.scheduled_tasks.
    rewrite migrate_jwt_settings_insert.
    unfold Main.MIGRATE_TENANTS, Main.MIGRATE_CATEGORIES, Main.MIGRATE_PERMISSIONS,
      Main.MIGRATE_ROLES, Main.MIGRATE_USERS, Main.MIGRATE_USER_ROLES,
      Main.BULK_INVITE_USERS_TO_TENANTS, Main.ASSIGN_ROLES_TO_USERS_ON_ALL_TENANTS,
      Main.MIGRATE_GROUPS, Main.MIGRATE_APPLICATIONS, Main.MIGRATE_SECURITY_RULES,
      Main.MIGRATE_EMAIL_TEMPLATES, Main.MIGRATE_EMAIL_SENDER, Main.MIGRATE_PREHOOKS,
      Main.MIGRATE_ALLOWED_ORIGINS, Main.MIGRATE_JWT_SETTINGS.
    repeat (rewrite (flag_insert_ne env "MIGRATE_JWT_SETTINGS" v) by discriminate).
    repeat (rewrite (lookup_insert_ne env "MIGRATE_JWT_SETTINGS") by discriminate).
    reflexivity.
  - intros env. split; [|reflexivity].
    unfold Main.MIGRATE_JWT_SETTINGS, flag, getenv. rewrite bool_decide_eq_true.
    destruct (env !! "MIGRATE_JWT_SETTINTS") as [s|]; simpl.
    + split; [intros Hs; exists s; auto | intros (s' & Hs' & Hl); congruence].
    + split; [discriminate | intros (s' & Hs' & _); discriminate].
  - intros env c1 c2 w Hnone.
    assert (Hflag : flag env "MIGRATE_JWT_SETTINTS" = false).
    { unfold flag, getenv. rewrite Hnone. reflexivity. }
    split; [exact Hflag|].
    unfold JwtSettings.migrate_jwt_settings, JwtSettings.MIGRATE_JWT_SETTINGS.
    rewrite Hflag. reflexivity.
Qed.
End Claim10.

Lemma jwt_step_reads_misspelt_variable_witness :
  let env : gmap string string := {["MIGRATE_JWT_SETTINGS" := "true"]} in
  Main.MIGRATE_JWT_SETTINGS env = false
  ∧ requests_of (w_trace (@JwtSettings.migrate_jwt_settings scripted env src_client dst_client
                            (script_world [])).2) = [].
Proof.
  intros env.
  destruct (proj2 (proj2 (@jwt_step_reads_misspelt_variable scripted))
              env src_client dst_client (script_world []) eq_refl) as [Hflag Hrun].
  split; [exact Hflag|]. rewrite Hrun. reflexivity.
Defined.

Section RunFacts.
Context `{Runtime}.

Lemma bind_run_ok {A B : Type} (m : M A) (k : A → M B) (w w1 : world) (a : A) :
  m w = (Ok a, w1) → bind m k w = k a w1.
Proof. intros E. unfold bind. rewrite E. reflexivity. Qed.

Lemma bind_run_raise {A B : Type} (m : M A) (k : A → M B) (w w1 : world) (e : exn) :
  m w = (Raise e, w1) → bind m k w = (Raise e, w1).
Proof. intros E. unfold bind. rewrite E. reflexivity. Qed.

Lemma try_run_raise {A : Type} (m : M A) (h : exn → M A) (w w1 : world) (e : exn) :
  m w = (Raise e, w1) → try_except m h w = h e w1.
Proof. intros E. unfold try_except. rewrite E. reflexivity. Qed.




Lemma after_events_app (w : world) (evs1 evs2 : list event) :
  after_events (after_events w evs1) evs2 = after_events w (evs1 ++ evs2).
Proof. unfold after_events. simpl. rewrite app_assoc. reflexivity. Qed.

Lemma seq_log_run {B : Type} (lvl : level) (msg : string) (k : M B) (w : world) :
  bind (log lvl msg) (λ _, k) w = k (after_events w [EvLog lvl msg]).
Proof. reflexivity. Qed.
End RunFacts.

Section TenantFacts.
Context `{Runtime}.







End TenantFacts.

Section Claim7.
Context `{Runtime}.

End Claim7.



Section SequenceFacts.
Context `{Runtime}.

Lemma issues_silent_then {A B : Type} (L : list request → Prop) (Q1 : A → Prop)
    (Q : result B → Prop) (m : M A) (k : A → M B) :
  issues silent (returns Q1) m → (∀ a, Q1 a → issues L Q (k a)) → issues L Q (bind m k).
Proof.
  intros Hm Hk. eapply issues_bind; [exact Hm | exact Hk | | intros e l1 []].
  intros l1 l2 -> Hl. exact Hl.
Qed.

Lemma issues_then_silent {A B : Type} (L : list request → Prop) (Q1 : A → Prop)
    (Q : result B → Prop) (m : M A) (k : A → M B) :
  issues L (returns Q1) m → (∀ a, Q1 a → issues silent Q (k a)) → issues L Q (bind m k).
Proof.
  intros Hm Hk. eapply issues_bind; [exact Hm | exact Hk | | intros e l1 []].
  intros l1 l2 Hl ->. rewrite app_nil_r. exact Hl.
Qed.

Lemma issues_then {A B : Type} (L1 L2 : list request → Prop) (Q1 : A → Prop)
    (Q : result B → Prop) (m : M A) (k : A → M B) :
  issues L1 (returns Q1) m → (∀ a, Q1 a → issues L2 Q (k a)) →
  issues (followed_by L1 L2) Q (bind m k).
Proof.
  intros Hm Hk. eapply issues_bind; [exact Hm | exact Hk | | intros e l1 []].
  intros l1 l2 Hl1 Hl2. exists l1, l2. auto.
Qed.

Lemma issues_seq_log {B : Type} (L : list request → Prop) (Q : result B → Prop)
    (lvl : level) (msg : string) (k : M B) :
  issues L Q k → issues L Q (bind (log lvl msg) (λ _, k)).
Proof.
  intros Hk. eapply issues_silent_then; [apply (issues_log (returns (λ _, True))); exact I|].
  intros _ _. exact Hk.
Qed.

Lemma issues_try_silent {A : Type} (L : list request → Prop) (Q1 Q : result A → Prop)
    (m : M A) (h : exn → M A) :
  issues L Q1 m → (∀ e, Q1 (Raise e) → issues silent Q (h e)) → (∀ a, Q1 (Ok a) → Q (Ok a)) →
  issues L Q (try_except m h).
Proof.
  intros Hm Hh Hok. eapply issues_try; [exact Hm | exact Hh | | ].
  - intros l1 l2 Hl ->. rewrite app_nil_r. exact Hl.
  - intros a l1 Hq Hl. auto.
Qed.

Lemma each_for_each {A : Type} (f : A → list request → Prop) (l : list A) (body : A → M unit) :
  (∀ x, x ∈ l → issues (f x) (returns (λ _, True)) (body x)) →
  issues (each f l) (returns (λ _, True)) (for_each l body).
Proof.
  induction l as [|x l IH]; intros Hb; simpl.
  - apply issues_ret; [reflexivity | exact I].
  - change (issues (followed_by (f x) (each f l)) (returns (λ _, True))
              (bind (body x) (λ _, for_each l body))).
    eapply issues_then; [apply Hb; left|].
    intros _ _. apply IH. intros y Hy. apply Hb. right. exact Hy.
Qed.

Lemma each_for_fold {A S : Type} (f : A → list request → Prop) (I : list A → S → Prop)
    (l : list A) (acc : S) (body : S → A → M S) :
  I l acc →
  (∀ s x rest, I (x :: rest) s → issues (f x) (returns (I rest)) (body s x)) →
  issues (each f l) (returns (I [])) (for_fold l acc body).
Proof.
  revert acc. induction l as [|x l IH]; intros acc Hacc Hb; simpl.
  - apply issues_ret; [reflexivity | exact Hacc].
  - change (issues (followed_by (f x) (each f l)) (returns (I []))
              (bind (body acc x) (λ acc', for_fold l acc' body))).
    eapply issues_then; [apply Hb; exact Hacc|].
    intros s Hs. apply IH; [exact Hs | exact Hb].
Qed.
End SequenceFacts.

Section CreatorFacts.
Context `{Runtime}.


Lemma create_application_issues (c : client) (app : application) :
  issues (once_or_twice (application_creation_call c app)) (returns (λ _, True))
    (create_application c app).
Proof.
  unfold create_application. apply issues_seq_log.
  eapply issues_silent_then with (Q1 := λ _, True).
  { destruct (is_default app);
      [apply issues_log | apply issues_ret; [reflexivity|]]; exact I. }
  intros _ _. eapply issues_try_silent with (Q1 := λ _, True).
  - eapply issues_bind with (L2 := silent) (Q1 := λ _, True).
    + apply issues_make_request_any.
    + intros resp _. eapply issues_bind with (L1 := silent) (L2 := silent) (Q1 := λ _, True).
      * destruct (content resp); first [apply issues_ret | apply issues_raise];
          first [reflexivity | exact I].
      * intros a _. apply issues_seq_log. apply issues_ret; [reflexivity | exact I].
      * intros l1 l2 -> ->. reflexivity.
      * auto.
    + intros l1 l2 Hl ->. rewrite app_nil_r. exact Hl.
    + auto.
  - intros e _. apply issues_seq_log. apply issues_ret; [reflexivity | exact I].
  - intros a _. exact I.
Qed.

Lemma delete_application_issues (c : client) (app : application) :
  issues (once_or_twice (application_deletion_call c app)) (returns (λ _, True))
    (delete_application c (a_id app) (a_name app)).
Proof.
  unfold delete_application. apply issues_seq_log.
  eapply issues_try_silent with (Q1 := λ _, True).
  - eapply issues_bind with (L2 := silent) (Q1 := λ _, True).
    + apply issues_make_request_any.
    + intros resp _. apply issues_seq_log. apply issues_ret; [reflexivity | exact I].
    + intros l1 l2 Hl ->. rewrite app_nil_r. exact Hl.
    + auto.
  - intros e _. apply issues_seq_log. apply issues_ret; [reflexivity | exact I].
  - intros a _. exact I.
Qed.

Lemma create_and_count_issues (c : client) (counts : nat * nat) (app : application) :
  issues (once_or_twice (application_creation_call c app))
    (returns (λ cnt, cnt.1 + cnt.2 = S (counts.1 + counts.2)))
    (create_and_count c counts app).
Proof.
  unfold create_and_count.
  eapply issues_then_silent; [apply create_application_issues|].
  intros [created|] _; (apply issues_ret; [reflexivity | simpl; lia]).
Qed.

End CreatorFacts.

Section Claim9.
Context `{Runtime}.



End Claim9.



Section Claim1.
Context `{Runtime}.

Lemma batches_from_concat {A : Type} (fuel batch_size : nat) (l : list A) :
  (0 < batch_size)%nat → (length l ≤ fuel)%nat → concat (batches_from fuel batch_size l) = l.
Proof.
  intros Hpos. revert l. induction fuel as [|fuel IH]; intros l Hlen.
  - destruct l; [reflexivity | simpl in Hlen; lia].
  - destruct l as [|x l]; [reflexivity|].
    cbn [batches_from concat]. rewrite IH.
    + apply take_drop.
    + rewrite length_drop. simpl in *. lia.
Qed.

Lemma batches_concat {A : Type} (batch_size : nat) (l : list A) :
  (0 < batch_size)%nat → concat (batches batch_size l) = l.
Proof. intros Hpos. apply batches_from_concat; [exact Hpos | reflexivity]. Qed.



End Claim1.

Section Claim1Theorem.
Context `{Runtime}.


End Claim1Theorem.


Section Claim3.
Context `{Runtime}.

(** A loop that keeps the image of every element that has one and logs
    the others. *)
Lemma collect_issues {A B : Type} (g : A → option B) (lvl : level) (msg : A → string)
    (l : list A) (acc : list B) :
  issues silent (returns (λ res, res = acc ++ omap g l))
    (for_fold l acc (λ acc x,
       match g x with
       | Some d => ret (acc ++ [d])
       | None => bind (log lvl (msg x)) (λ _, ret acc)
       end)).
Proof.
  revert acc. induction l as [|x l IH]; intros acc.
  - apply issues_ret; [reflexivity | simpl; rewrite app_nil_r; reflexivity].
  - cbn [for_fold omap list_omap].
    eapply issues_silent_then with (Q1 := λ acc', acc' ++ omap g l = acc ++ omap g (x :: l)).
    + cbn [omap list_omap]. destruct (g x) as [d|].
      * apply issues_ret; [reflexivity|]. simpl. rewrite <- app_assoc. reflexivity.
      * apply issues_seq_log. apply issues_ret; [reflexivity|]. reflexivity.
    + intros acc' Hacc'. eapply issues_conseq; [apply IH | auto |].
      intros [res|e]; simpl; [|auto]. intros ->. exact Hacc'.
Qed.






End Claim3.

Section Claim3Theorem.
Context `{Runtime}.


End Claim3Theorem.


Section Claim2.
Context `{Runtime}.


End Claim2.

Section Claim2Theorem.
Context `{Runtime}.


End Claim2Theorem.


Section Claim4.
Context `{Runtime}.
Variable c : client.
Variable dest_roles : list role.
Variable old_ids : gset string.

(** The platform gives a created role an identifier that is not in
    [old_ids]. *)
Hypothesis created_ids_are_new :
  ∀ req resp created, possible req resp → content resp = JCreatedRoles created →
                      ∀ cr, cr ∈ created → r_id cr ∉ old_ids.


Lemma log_detailed_api_call_only (P : request → Prop) (m u : string)
    (hs : list (string * string)) (data : body) :
  issues (only P) (returns (λ _, True)) (log_detailed_api_call m u hs data).
Proof.
  unfold log_detailed_api_call. apply only_seq_log.
  eapply only_bind_ok with (Q1 := λ _, True).
  - destruct hs; [apply only_ret | apply only_log]; exact I.
  - intros _ _. destruct (body_truthy data); [apply only_log | apply only_ret]; exact I.
Qed.



Lemma if_returns_match {A : Type} (I : A → Prop) (r : result A) :
  match r with Ok a => I a | Raise _ => True end ↔ if_returns I r.
Proof. destruct r; simpl; tauto. Qed.


End Claim4.

Section Claim4Theorem.
Context `{Runtime}.

End Claim4Theorem.


Section Claim5.
Context `{Runtime}.

(** C5, as the code has it.  From the fetched applications on, application
    migration never raises and sends, in this order: the creation call of
    every non-default source application; then, when the source has a
    default application and the destination has applications, the deletion
    call of every application the destination had; then the creation call
    of the source's default application, if there is one (every call once,
    or twice when it was retried).  No placeholder application is created
    or deleted.  On the specification's example, three non-default and one
    default application in the source and two applications in the
    destination, the calls after the two reads are three creations, two
    deletions and one creation, and the destination ends with four
    applications, those of the source. *)
Theorem applications_are_replaced_without_placeholder :
  (∀ c source_applications dest_applications,
     let default_app := source_default_app source_applications in
     issues
       (followed_by
          (each (λ app, once_or_twice (application_creation_call c app))
             (non_default_apps source_applications))
          (followed_by
             (match dest_applications, default_app with
              | _ :: _, Some _ =>
                  each (λ app, once_or_twice (application_deletion_call c app)) dest_applications
              | _, _ => silent
              end)
             (match default_app with
              | Some app => once_or_twice (application_creation_call c app)
              | None => silent
              end)))
       (returns (λ _, True))
       (migrate_applications_with c source_applications dest_applications))
  ∧ (let run := @migrate_applications (application_store example_source_applications)
                  src_client dst_client
                  (store_world example_source_applications example_dest_applications) in
     run.1 = Ok tt
     ∧ method <$> requests_of (w_trace run.2)
       = [GET; GET; POST; POST; POST; DELETE; DELETE; POST]
     ∧ a_name <$> (w_net run.2).1.1 = ["Portal"; "Admin"; "Docs"; "Main"]
     ∧ length (w_net run.2).1.1 = 4).
Proof.
  split; [|vm_compute; auto].
  intros c source_applications dest_applications default_app.
  unfold migrate_applications_with. fold default_app.
  eapply issues_silent_then with (Q1 := λ _, True).
  { destruct (find is_default dest_applications);
      [apply issues_log | apply issues_ret; [reflexivity|]]; exact I. }
  intros _ _. apply issues_seq_log.
  eapply issues_then with (Q1 := λ _, True).
  { destruct (non_default_apps source_applications) as [|a0 apps] eqn:Enon.
    - apply issues_ret; [reflexivity | exact I].
    - apply issues_seq_log. eapply issues_then_silent with (Q1 := λ _, True).
      + eapply issues_conseq;
          [apply (each_for_fold (λ app, once_or_twice (application_creation_call c app))
                    (λ _ _, True)); [exact I|]
          | auto | intros [a|e]; simpl; auto].
        intros s x rest _. eapply issues_conseq; [apply create_and_count_issues | auto |].
        intros [a|e]; simpl; auto.
      + intros counts _. eapply issues_silent_then with (Q1 := λ _, True);
          [apply issues_print_stats; exact I|].
        intros _ _. apply issues_ret; [reflexivity | exact I]. }
  intros counts _.
  eapply issues_then with (Q1 := λ _, True).
  { destruct dest_applications as [|d0 dests]; [apply issues_ret; [reflexivity | exact I]|].
    destruct default_app as [app|]; [|apply issues_ret; [reflexivity | exact I]].
    apply issues_seq_log. apply each_for_each. intros app' _.
    apply issues_seq_log. eapply issues_then_silent; [apply delete_application_issues|].
    intros [|] _; [apply issues_ret; [reflexivity|] | apply issues_log]; exact I. }
  intros _ _.
  eapply issues_then_silent with (Q1 := λ _, True).
  { destruct default_app as [app|]; [|apply issues_ret; [reflexivity | exact I]].
    apply issues_seq_log. apply issues_seq_log.
    eapply issues_then_silent; [apply create_application_issues|].
    intros [created|] _; apply issues_seq_log; apply issues_ret; first [reflexivity | exact I]. }
  intros counts' _.
  eapply issues_silent_then with (Q1 := λ _, True); [apply issues_print_stats; exact I|].
  intros _ _. apply issues_log. exact I.
Qed.
End Claim5.

(** C5 as stated fails: on the specification's example no placeholder is
    created, the first call after the two reads creates the source
    application "Portal", the four creation calls carry the four source
    applications, and there are two deletions, not three. *)
Lemma no_placeholder_application :
  let run := @migrate_applications (application_store example_source_applications)
               src_client dst_client
               (store_world example_source_applications example_dest_applications) in
  let calls := requests_of (w_trace run.2) in
  List.filter (λ r, method_eqb (method r) POST) calls
  = application_creation_call dst_client
      <$> [example_application "s1" "Portal" false; example_application "s3" "Admin" false;
           example_application "s4" "Docs" false; example_application "s2" "Main" true]
  ∧ length (List.filter (λ r, method_eqb (method r) DELETE) calls) = 2
  ∧ length (List.filter (λ r, method_eqb (method r) DELETE) calls) ≠ 3
  ∧ length calls = 8.
Proof. vm_compute. repeat split; first [reflexivity | discriminate]. Qed.

Section Claim6.
Context `{Runtime}.






End Claim6.

Section Claim6Theorem.
Context `{Runtime}.

End Claim6Theorem.



(** * Further properties of the scripts *)

(** ** users.py: the phone column *)

Lemma before_first_dot_fixed (s : string) :
  before_first_dot (before_first_dot s) = before_first_dot s.
Proof.
  induction s as [|c s IH]; [reflexivity|].
  simpl. destruct (Ascii.eqb c ".") eqn:E; [reflexivity|].
  simpl. rewrite E, IH. reflexivity.
Qed.

(** X1. [format_phone_number] normalises a phone number: the result starts
    with [+], holds no dot, is the part of the number before its first
    dot with at most a [+] put in front, and formatting it again changes
    nothing.  A missing number gives the empty string, which the function
    would turn into a lone [+] if it were applied to it again. *)
Theorem formatted_phone_is_normalised :
  (∀ phone,
     let formatted := format_phone_number (Some phone) in
     String.prefix "+" formatted = true
     ∧ before_first_dot formatted = formatted
     ∧ (formatted = before_first_dot phone ∨ formatted = "+" +:+ before_first_dot phone)
     ∧ format_phone_number (Some formatted) = formatted)
  ∧ format_phone_number None = ""
  ∧ format_phone_number (Some (format_phone_number None)) = "+".
Proof.
  split; [|split; reflexivity].
  intros phone formatted. subst formatted. unfold format_phone_number.
  pose proof (before_first_dot_fixed phone) as Hfix.
  destruct (String.prefix "+" (before_first_dot phone)) eqn:Hpre.
  - rewrite Hfix, Hpre. auto.
  - assert (Hplus : before_first_dot ("+" +:+ before_first_dot phone)
                    = "+" +:+ before_first_dot phone).
    { simpl. f_equal. exact Hfix. }
    rewrite Hplus.
    assert (Hp : String.prefix "+" ("+" +:+ before_first_dot phone) = true).
    { simpl. destruct (before_first_dot phone); reflexivity. }
    rewrite Hp. auto.
Qed.

(** ** allowed_origins.py: the number of new origins *)

(** X2. [new_origins_count] is the number of distinct source origins that
    the destination lacks, minus the number of repetitions in the
    destination's list.  When the destination's list has no repetition it
    is that number exactly, and it is zero exactly when every source
    origin is already in the destination. *)
Theorem new_origins_count_counts_missing :
  (∀ source_origins dest_origins : list string,
     (new_origins_count source_origins dest_origins
      + (Z.of_nat (length dest_origins)
         - Z.of_nat (size (list_to_set dest_origins : gset string))))%Z
     = Z.of_nat (size ((list_to_set source_origins : gset string) ∖ list_to_set dest_origins)))
  ∧ (∀ source_origins dest_origins : list string,
       NoDup dest_origins →
       new_origins_count source_origins dest_origins
       = Z.of_nat (size ((list_to_set source_origins : gset string) ∖ list_to_set dest_origins))
       ∧ (new_origins_count source_origins dest_origins = 0%Z
          ↔ ∀ o, o ∈ source_origins → o ∈ dest_origins)).
Proof.
  assert (Hgen : ∀ source_origins dest_origins : list string,
     (new_origins_count source_origins dest_origins
      + (Z.of_nat (length dest_origins)
         - Z.of_nat (size (list_to_set dest_origins : gset string))))%Z
     = Z.of_nat (size ((list_to_set source_origins : gset string) ∖ list_to_set dest_origins))).
  { intros s d. unfold new_origins_count, merged_origins.
    rewrite list_to_set_app_L.
    rewrite (union_comm_L (list_to_set s) (list_to_set d)).
    rewrite size_union_alt. lia. }
  split; [exact Hgen|].
  intros s d Hnd.
  pose proof (Hgen s d) as Hg.
  rewrite (size_list_to_set d Hnd) in Hg.
  assert (Heq : new_origins_count s d
                = Z.of_nat (size ((list_to_set s : gset string) ∖ list_to_set d))) by lia.
  split; [exact Heq|].
  rewrite Heq. clear Hg Heq.
  split.
  - intros Hz o Ho.
    assert (Hsz : size ((list_to_set s : gset string) ∖ list_to_set d) = 0%nat) by lia.
    apply size_empty_inv in Hsz.
    destruct (decide (o ∈ d)) as [|Hn]; [assumption|].
    exfalso. assert (Hin : o ∈ (list_to_set s : gset string) ∖ list_to_set d).
    { apply elem_of_difference. rewrite !elem_of_list_to_set. auto. }
    rewrite (Hsz o) in Hin. set_solver.
  - intros Hall.
    assert (Hempty : (list_to_set s : gset string) ∖ list_to_set d = ∅).
    { apply set_eq. intros o. rewrite elem_of_difference, !elem_of_list_to_set.
      split; [intros [Ho Hn]; exfalso; auto | set_solver]. }
    rewrite Hempty, size_empty. lia.
Qed.

Lemma new_origins_count_counts_missing_witness :
  new_origins_count ["https://a"; "https://b"] ["https://b"; "https://c"] = 1%Z.
Proof.
  refine (eq_trans (proj1 (proj2 new_origins_count_counts_missing
                             ["https://a"; "https://b"] ["https://b"; "https://c"] _)) _).
  - apply (bool_decide_unpack _). vm_compute. exact I.
  - vm_compute. reflexivity.
Defined.

(** ** security_rules.py: the comparison of two rules *)

Section RuleFacts.
Context {V : Type} `{EqDecision V}.

Lemma compare_rules_spec (s d : @security_rule V) :
  compare_rules (Some s) (Some d) = true
  ↔ s ≠ ∅ ∧ d ≠ ∅ ∧ ∀ field, field ∈ important_fields → rule_get s field = rule_get d field.
Proof.
  unfold compare_rules, rule_truthy.
  destruct (decide (s = ∅)) as [Hs|Hs].
  { rewrite (bool_decide_eq_true_2 _ Hs). simpl. split; [discriminate | intros [? _]; contradiction]. }
  destruct (decide (d = ∅)) as [Hd|Hd].
  { rewrite (bool_decide_eq_false_2 _ Hs), (bool_decide_eq_true_2 _ Hd). simpl.
    split; [discriminate | intros (_ & ? & _); contradiction]. }
  rewrite (bool_decide_eq_false_2 _ Hs), (bool_decide_eq_false_2 _ Hd). simpl negb.
  cbn [orb]. rewrite forallb_forall.
  split.
  - intros Hall. split; [exact Hs|]. split; [exact Hd|].
    intros field Hin. apply list_elem_of_In in Hin. specialize (Hall field Hin).
    destruct (bool_decide (is_Some (s !! field)) || bool_decide (is_Some (d !! field))) eqn:E.
    + apply bool_decide_eq_true_1 in Hall. exact Hall.
    + apply orb_false_elim in E as [E1 E2].
      apply bool_decide_eq_false_1 in E1. apply bool_decide_eq_false_1 in E2.
      unfold rule_get.
      apply eq_None_not_Some in E1, E2. rewrite E1, E2. reflexivity.
  - intros (_ & _ & Hall) field Hin. apply list_elem_of_In in Hin.
    destruct (bool_decide (is_Some (s !! field)) || bool_decide (is_Some (d !! field)));
      [|reflexivity].
    apply bool_decide_eq_true_2. auto.
Qed.

Lemma compare_rules_true (a b : option (@security_rule V)) :
  compare_rules a b = true →
  ∃ s d, a = Some s ∧ b = Some d ∧ compare_rules (Some s) (Some d) = true.
Proof.
  destruct a as [s|], b as [d|]; try (unfold compare_rules; simpl; discriminate).
  - eauto.
  - unfold compare_rules. simpl. rewrite orb_true_r. discriminate.
Qed.

(** X3. [compare_rules] is symmetric and transitive, and a rule equals
    itself exactly when it is a non-empty object.  Two rules are equal
    exactly when both are non-empty and agree on each of the six
    important fields (a missing field counting as [None]); a field
    outside that list, such as the id, never matters. *)
Theorem compare_rules_is_partial_equivalence :
  (∀ s d : option (@security_rule V), compare_rules s d = compare_rules d s)
  ∧ (∀ a b c : option (@security_rule V),
       compare_rules a b = true → compare_rules b c = true → compare_rules a c = true)
  ∧ (∀ r : option (@security_rule V), compare_rules r r = rule_truthy r)
  ∧ (∀ s d : @security_rule V,
       compare_rules (Some s) (Some d) = true
       ↔ s ≠ ∅ ∧ d ≠ ∅
         ∧ ∀ field, field ∈ important_fields → rule_get s field = rule_get d field)
  ∧ (∀ (s d : @security_rule V) k v,
       k ∉ important_fields → s ≠ ∅ →
       compare_rules (Some (<[k := v]> s)) (Some d) = compare_rules (Some s) (Some d)).
Proof.
  assert (Hsym : ∀ s d : option (@security_rule V), compare_rules s d = true →
                                            compare_rules d s = true).
  { intros a b Hab. destruct (compare_rules_true _ _ Hab) as (s & d & -> & -> & Hsd).
    apply compare_rules_spec in Hsd as (Hs & Hd & Hall).
    apply compare_rules_spec. split; [exact Hd|]. split; [exact Hs|].
    intros f Hf. symmetry. auto. }
  split.
  { intros s d. destruct (compare_rules s d) eqn:E1.
    - symmetry. auto.
    - destruct (compare_rules d s) eqn:E2; [|reflexivity].
      apply Hsym in E2. congruence. }
  split.
  { intros a b c Hab Hbc.
    destruct (compare_rules_true _ _ Hab) as (s & d & -> & -> & Hsd).
    destruct (compare_rules_true _ _ Hbc) as (d' & e & [= <-] & -> & Hde).
    apply compare_rules_spec in Hsd as (Hs & Hd & Hall1).
    apply compare_rules_spec in Hde as (_ & He & Hall2).
    apply compare_rules_spec. split; [exact Hs|]. split; [exact He|].
    intros f Hf. rewrite Hall1, Hall2; auto. }
  split.
  { intros [r|]; [|reflexivity].
    unfold rule_truthy. destruct (decide (r = ∅)) as [Hr|Hr].
    - rewrite (bool_decide_eq_true_2 _ Hr). subst r. reflexivity.
    - rewrite (bool_decide_eq_false_2 _ Hr). simpl.
      apply compare_rules_spec. auto. }
  split; [apply compare_rules_spec|].
  intros s d k v Hk Hs.
  assert (Hins : (<[k := v]> s : @security_rule V) ≠ ∅).
  { intros Habs. apply (f_equal (λ m : @security_rule V, m !! k)) in Habs.
    cbv beta in Habs. unfold security_rule in Habs.
    rewrite lookup_insert_eq, lookup_empty in Habs. discriminate. }
  assert (Hget : ∀ f, f ∈ important_fields → rule_get (<[k := v]> s) f = rule_get s f).
  { intros f Hf. unfold rule_get, security_rule. rewrite lookup_insert_ne; [reflexivity|].
    intros ->. contradiction. }
  destruct (compare_rules (Some s) (Some d)) eqn:E.
  - apply compare_rules_spec in E as (_ & Hd & Hall).
    apply compare_rules_spec. split; [exact Hins|]. split; [exact Hd|].
    intros f Hf. rewrite Hget; auto.
  - destruct (compare_rules (Some (<[k := v]> s)) (Some d)) eqn:E'; [|reflexivity].
    apply compare_rules_spec in E' as (_ & Hd & Hall).
    assert (compare_rules (Some s) (Some d) = true); [|congruence].
    apply compare_rules_spec. split; [exact Hs|]. split; [exact Hd|].
    intros f Hf. rewrite <- Hget; auto.
Qed.
End RuleFacts.

Lemma compare_rules_is_partial_equivalence_witness :
  let s : @security_rule Z := {["action" := Some 1%Z; "enabled" := Some 0%Z]} in
  let d : @security_rule Z := {["action" := Some 1%Z; "enabled" := Some 0%Z; "id" := Some 7%Z]} in
  compare_rules (Some (<["name" := None]> s)) (Some d) = compare_rules (Some s) (Some d).
Proof.
  intros s d.
  apply (proj2 (proj2 (proj2 (proj2 (@compare_rules_is_partial_equivalence Z _))))).
  - apply (bool_decide_unpack _). vm_compute. exact I.
  - apply (bool_decide_unpack _). vm_compute. exact I.
Defined.

(** ** permissions_and_categories.py: batches and the duplicate test *)

Lemma batches_from_sizes {A : Type} (fuel batch_size : nat) (l : list A) :
  (0 < batch_size)%nat → (length l ≤ fuel)%nat →
  Forall (λ b, (0 < length b ≤ batch_size)%nat) (batches_from fuel batch_size l)
  ∧ length (batches_from fuel batch_size l) = ((length l + batch_size - 1) / batch_size)%nat.
Proof.
  intros Hpos. revert l. induction fuel as [|fuel IH]; intros l Hlen.
  - destruct l; [|simpl in Hlen; lia]. simpl. split; [constructor|].
    symmetry. apply Nat.div_small. lia.
  - destruct l as [|x l].
    { simpl. split; [constructor|]. symmetry. apply Nat.div_small. lia. }
    cbn [batches_from].
    destruct (IH (drop batch_size (x :: l))) as [IH1 IH2].
    { rewrite length_drop. simpl in *. lia. }
    split.
    + constructor; [|exact IH1].
      rewrite length_take. simpl. lia.
    + rewrite length_cons, IH2, length_drop.
      remember (length (x :: l)) as n eqn:Hn.
      assert (0 < n)%nat by (subst n; simpl; lia). clear Hn.
      destruct (le_lt_dec batch_size n) as [Hge|Hlt].
      * replace (n + batch_size - 1)%nat with ((n - batch_size + batch_size - 1) + 1 * batch_size)%nat
          by lia.
        rewrite Nat.div_add by lia. lia.
      * replace (n - batch_size)%nat with 0%nat by lia.
        rewrite (Nat.div_small (0 + batch_size - 1)) by lia.
        apply (Nat.div_unique _ _ 1 (n - 1)); lia.
Qed.

(** X4. The batches that [create_permissions] cuts a list into are the
    list again when put end to end; none is empty and none is longer
    than the batch size; and there are [ceil (n / batch_size)] of them. *)
Theorem batches_partition :
  ∀ (A : Type) (batch_size : nat) (l : list A),
    (0 < batch_size)%nat →
    concat (batches batch_size l) = l
    ∧ Forall (λ b, (0 < length b ≤ batch_size)%nat) (batches batch_size l)
    ∧ length (batches batch_size l) = ((length l + batch_size - 1) / batch_size)%nat.
Proof.
  intros A batch_size l Hpos.
  split; [apply batches_concat; exact Hpos|].
  apply batches_from_sizes; [exact Hpos | reflexivity].
Qed.

Lemma batches_partition_witness :
  length <$> batches 2 [1; 2; 3; 4; 5]%nat = [2; 2; 1]%nat
  ∧ concat (batches 2 [1; 2; 3; 4; 5]%nat) = [1; 2; 3; 4; 5]%nat.
Proof.
  split; [reflexivity|].
  apply (batches_partition nat 2 [1; 2; 3; 4; 5]%nat). lia.
Defined.

Lemma prefix_append (n h : string) :
  String.prefix n h = true ↔ ∃ post, h = n +:+ post.
Proof.
  revert h. induction n as [|c n IH]; intros h.
  - split; [intros _; exists h; reflexivity | intros _; destruct h; reflexivity].
  - destruct h as [|c' h].
    + simpl. split; [discriminate | intros [post Hp]; discriminate].
    + simpl. destruct (ascii_dec c c') as [->|Hne].
      * rewrite IH. split; intros [post Hp]; exists post.
        -- rewrite Hp. reflexivity.
        -- injection Hp as Hp. exact Hp.
      * split; [discriminate | intros [post Hp]; injection Hp as Hc _; congruence].
Qed.

Lemma contains_substring (needle haystack : string) :
  contains needle haystack = true ↔ ∃ pre post, haystack = pre +:+ needle +:+ post.
Proof.
  induction haystack as [|c h IH].
  - cbn [contains]. destruct (String.prefix needle "") eqn:E.
    + split; [intros _|intros _; reflexivity]. apply prefix_append in E as [post Hp].
      exists "", post. exact Hp.
    + split; [discriminate|]. intros (pre & post & Hp).
      destruct pre; [|discriminate]. simpl in Hp.
      assert (String.prefix needle "" = true); [|congruence].
      apply prefix_append. eauto.
  - cbn [contains]. destruct (String.prefix needle (String c h)) eqn:E.
    + split; [intros _|intros _; reflexivity]. apply prefix_append in E as [post Hp].
      exists "", post. exact Hp.
    + rewrite IH. split.
      * intros (pre & post & ->). exists (String c pre), post. reflexivity.
      * intros (pre & post & Hp). destruct pre as [|c' pre].
        -- simpl in Hp. assert (String.prefix needle (String c h) = true); [|congruence].
           apply prefix_append. eauto.
        -- injection Hp as _ Hp. eauto.
Qed.

(** X5. The duplicate test of [create_categories] and [create_roles] holds
    exactly when one of the error messages, in lower case, has
    [already exist] as a substring. *)
Theorem already_exist_is_substring_test :
  ∀ errors : list string,
    already_exist errors = true
    ↔ ∃ error pre post, error ∈ errors ∧ lower error = pre +:+ "already exist" +:+ post.
Proof.
  intros errors. unfold already_exist. rewrite existsb_exists. split.
  - intros (error & Hin & Hc). apply contains_substring in Hc as (pre & post & Hp).
    exists error, pre, post. split; [apply list_elem_of_In; exact Hin | exact Hp].
  - intros (error & pre & post & Hin & Hp). exists error.
    split; [apply list_elem_of_In; exact Hin|]. apply contains_substring. eauto.
Qed.

(** ** users.py: the role mapping of the user import *)

Lemma role_name_to_dest_id_snoc (dest_roles : list role) (t : role) :
  role_name_to_dest_id (dest_roles ++ [t])
  = <[r_name t := r_id t]> (role_name_to_dest_id dest_roles).
Proof. unfold role_name_to_dest_id. rewrite foldl_app. reflexivity. Qed.

Lemma role_name_to_dest_id_sound (dest_roles : list role) (name d : string) :
  role_name_to_dest_id dest_roles !! name = Some d →
  ∃ t, t ∈ dest_roles ∧ r_name t = name ∧ r_id t = d.
Proof.
  induction dest_roles as [|t dest_roles IH] using rev_ind.
  - unfold role_name_to_dest_id. simpl. rewrite lookup_empty. discriminate.
  - rewrite role_name_to_dest_id_snoc.
    destruct (decide (r_name t = name)) as [<-|Hne].
    + rewrite lookup_insert_eq. intros [= <-]. exists t. rewrite elem_of_app, list_elem_of_singleton.
      auto.
    + rewrite lookup_insert_ne by exact Hne. intros Hl.
      destruct (IH Hl) as (t' & Hin & Hn & Hi). exists t'. rewrite elem_of_app. auto.
Qed.

Lemma role_name_to_dest_id_complete (dest_roles : list role) (t : role) :
  t ∈ dest_roles → is_Some (role_name_to_dest_id dest_roles !! r_name t).
Proof.
  induction dest_roles as [|t' dest_roles IH] using rev_ind.
  - intros Hin. inversion Hin.
  - rewrite role_name_to_dest_id_snoc, elem_of_app, list_elem_of_singleton.
    destruct (decide (r_name t' = r_name t)) as [Heq|Hne].
    + intros _. rewrite Heq, lookup_insert_eq. eauto.
    + rewrite lookup_insert_ne by exact Hne. intros [Hin| ->]; [auto | contradiction].
Qed.

Lemma user_role_id_mapping_snoc (source_roles dest_roles : list role) (s : role) :
  user_role_id_mapping (source_roles ++ [s]) dest_roles
  = match role_name_to_dest_id dest_roles !! r_name s with
    | Some d => <[r_id s := d]> (user_role_id_mapping source_roles dest_roles)
    | None => user_role_id_mapping source_roles dest_roles
    end.
Proof. unfold user_role_id_mapping. rewrite foldl_app. reflexivity. Qed.

(** X6. The role mapping pairs roles by name: an entry sends the id of a
    source role to the id of a destination role of the same name; a
    source role whose name some destination role has is mapped; a source
    role whose name no destination role has is not; and of several
    destination roles of one name the last one is taken. *)
Theorem user_roles_are_mapped_by_name :
  (∀ source_roles dest_roles sid d,
     user_role_id_mapping source_roles dest_roles !! sid = Some d →
     ∃ s t, s ∈ source_roles ∧ t ∈ dest_roles
            ∧ r_id s = sid ∧ r_name t = r_name s ∧ r_id t = d)
  ∧ (∀ source_roles dest_roles s t,
       s ∈ source_roles → t ∈ dest_roles → r_name t = r_name s →
       is_Some (user_role_id_mapping source_roles dest_roles !! r_id s))
  ∧ (∀ source_roles dest_roles s,
       s ∈ source_roles →
       (∀ s', s' ∈ source_roles → r_id s' = r_id s → r_name s' = r_name s) →
       (∀ t, t ∈ dest_roles → r_name t ≠ r_name s) →
       user_role_id_mapping source_roles dest_roles !! r_id s = None)
  ∧ (∀ dest_roles t later,
       (∀ t', t' ∈ later → r_name t' ≠ r_name t) →
       role_name_to_dest_id (dest_roles ++ t :: later) !! r_name t = Some (r_id t)).
Proof.
  assert (Hsound : ∀ source_roles dest_roles sid d,
     user_role_id_mapping source_roles dest_roles !! sid = Some d →
     ∃ s t, s ∈ source_roles ∧ t ∈ dest_roles
            ∧ r_id s = sid ∧ r_name t = r_name s ∧ r_id t = d).
  { intros source_roles dest_roles sid d.
    induction source_roles as [|s source_roles IH] using rev_ind.
    - unfold user_role_id_mapping. simpl. rewrite lookup_empty. discriminate.
    - rewrite user_role_id_mapping_snoc.
      assert (Hold : user_role_id_mapping source_roles dest_roles !! sid = Some d →
                     ∃ s0 t, s0 ∈ source_roles ++ [s] ∧ t ∈ dest_roles
                             ∧ r_id s0 = sid ∧ r_name t = r_name s0 ∧ r_id t = d).
      { intros Hl. destruct (IH Hl) as (s0 & t & Hs0 & Ht & Hrest).
        exists s0, t. rewrite elem_of_app. auto. }
      destruct (role_name_to_dest_id dest_roles !! r_name s) as [d'|] eqn:Hname;
        [|exact Hold].
      destruct (decide (r_id s = sid)) as [<-|Hne].
      + rewrite lookup_insert_eq. intros [= <-].
        destruct (role_name_to_dest_id_sound _ _ _ Hname) as (t & Ht & Hn & Hi).
        exists s, t. rewrite elem_of_app, list_elem_of_singleton. auto.
      + rewrite lookup_insert_ne by exact Hne. exact Hold. }
  split; [exact Hsound|].
  split.
  { intros source_roles dest_roles s t Hs Ht Hname.
    induction source_roles as [|s' source_roles IH] using rev_ind; [inversion Hs|].
    rewrite user_role_id_mapping_snoc.
    apply elem_of_app in Hs as [Hs|Hs].
    - specialize (IH Hs).
      destruct (role_name_to_dest_id dest_roles !! r_name s'); [|exact IH].
      destruct (decide (r_id s' = r_id s)) as [Heq|Hne].
      + rewrite Heq, lookup_insert_eq. eauto.
      + rewrite lookup_insert_ne by exact Hne. exact IH.
    - apply list_elem_of_singleton in Hs as ->.
      destruct (role_name_to_dest_id_complete dest_roles t Ht) as [d Hd].
      rewrite Hname in Hd. rewrite Hd, lookup_insert_eq. eauto. }
  split.
  { intros source_roles dest_roles s Hs Hnames Hnone.
    destruct (user_role_id_mapping source_roles dest_roles !! r_id s) as [d|] eqn:E;
      [|reflexivity].
    destruct (Hsound _ _ _ _ E) as (s' & t & Hs' & Ht & Hid & Hn & _).
    exfalso. apply (Hnone t Ht). rewrite Hn. auto. }
  intros dest_roles t later. induction later as [|t' later IH] using rev_ind.
  - intros _. rewrite role_name_to_dest_id_snoc, lookup_insert_eq. reflexivity.
  - intros Hlater.
    replace (dest_roles ++ t :: later ++ [t']) with ((dest_roles ++ t :: later) ++ [t'])
      by (rewrite <- app_assoc; reflexivity).
    rewrite role_name_to_dest_id_snoc, lookup_insert_ne.
    + apply IH. intros t'' Hin. apply Hlater. rewrite elem_of_app. auto.
    + apply Hlater. rewrite elem_of_app, list_elem_of_singleton. auto.
Qed.

Lemma user_roles_are_mapped_by_name_witness :
  let admin_src := {| r_id := "s1"; r_name := "Admin"; r_key := "admin"; r_description := None;
                      r_isDefault := None; r_level := 0; r_tenantId := None;
                      r_permissions := None; r_permissionsData := None |} in
  let admin_old := {| r_id := "d1"; r_name := "Admin"; r_key := "admin"; r_description := None;
                      r_isDefault := None; r_level := 0; r_tenantId := None;
                      r_permissions := None; r_permissionsData := None |} in
  let admin_new := {| r_id := "d2"; r_name := "Admin"; r_key := "admin2"; r_description := None;
                      r_isDefault := None; r_level := 0; r_tenantId := None;
                      r_permissions := None; r_permissionsData := None |} in
  is_Some (user_role_id_mapping [admin_src] [admin_old; admin_new] !! "s1")
  ∧ role_name_to_dest_id ([admin_old] ++ admin_new :: []) !! "Admin" = Some "d2".
Proof.
  intros admin_src admin_old admin_new. split.
  - apply (proj1 (proj2 user_roles_are_mapped_by_name)
             [admin_src] [admin_old; admin_new] admin_src admin_old).
    + left.
    + left.
    + reflexivity.
  - apply (proj2 (proj2 (proj2 user_roles_are_mapped_by_name)) [admin_old] admin_new []).
    intros t' Hin. inversion Hin.
Defined.

(** ** applications.py: the default application *)

Lemma source_default_app_snoc (l : list application) (app : application) :
  source_default_app (l ++ [app])
  = if is_default app then Some app else source_default_app l.
Proof. unfold source_default_app. rewrite foldl_app. reflexivity. Qed.

(** X7. [migrate_applications] takes the last application flagged as
    default for the source default application.  An earlier flagged
    application is neither the default nor among the non-default ones, so
    the applications that the script creates are fewer than the source
    applications by the number of flagged applications but one. *)
Theorem last_flagged_application_is_the_default :
  (∀ source_applications,
     source_default_app source_applications
     = last (filter (λ app, is_default app = true) source_applications))
  ∧ (∀ source_applications,
       let created := non_default_apps source_applications
                      ++ option_list (source_default_app source_applications) in
       (length created
        + (length (filter (λ app, is_default app = true) source_applications) - 1)
        = length source_applications)%nat)
  ∧ (∀ before app after flagged,
       is_default app = true → flagged ∈ after → is_default flagged = true →
       source_default_app (before ++ app :: after) = source_default_app after
       ∧ app ∉ non_default_apps (before ++ app :: after)).
Proof.
  assert (Hlast : ∀ source_applications,
     source_default_app source_applications
     = last (filter (λ app, is_default app = true) source_applications)).
  { intros l. induction l as [|app l IH] using rev_ind; [reflexivity|].
    rewrite source_default_app_snoc, filter_app, filter_cons, filter_nil.
    destruct (is_default app) eqn:E.
    - rewrite decide_True by reflexivity. rewrite last_snoc. reflexivity.
    - rewrite decide_False by discriminate. rewrite app_nil_r. exact IH. }
  split; [exact Hlast|].
  split.
  { intros l created. subst created. rewrite length_app, Hlast.
    unfold non_default_apps.
    assert (Hsplit : (length (filter (λ app, is_default app = false) l)
                      + length (filter (λ app, is_default app = true) l) = length l)%nat).
    { induction l as [|a l IH]; [reflexivity|].
      rewrite !filter_cons. destruct (is_default a) eqn:E.
      - rewrite decide_False by discriminate. rewrite decide_True by reflexivity.
        simpl. lia.
      - rewrite decide_True by reflexivity. rewrite decide_False by discriminate.
        simpl. lia. }
    destruct (filter (λ app, is_default app = true) l) as [|a fl] using rev_ind.
    - simpl in *. lia.
    - rewrite last_snoc. rewrite length_app in *. simpl in *. lia. }
  intros before app after flagged Happ Hin Hflag.
  split.
  - rewrite !Hlast. rewrite filter_app, filter_cons, decide_True by exact Happ.
    assert (Hne : filter (λ a, is_default a = true) after ≠ []).
    { intros Hnil. assert (Hf : flagged ∈ filter (λ a, is_default a = true) after).
      { apply list_elem_of_filter. auto. }
      rewrite Hnil in Hf. inversion Hf. }
    destruct (filter (λ a, is_default a = true) after) as [|x fl] using rev_ind;
      [contradiction|].
    rewrite last_snoc.
    replace (filter (λ a, is_default a = true) before ++ app :: fl ++ [x])
      with ((filter (λ a, is_default a = true) before ++ app :: fl) ++ [x])
      by (rewrite <- app_assoc; reflexivity).
    apply last_snoc.
  - unfold non_default_apps. rewrite list_elem_of_filter. intros [Hfalse _]. congruence.
Qed.

Lemma last_flagged_application_is_the_default_witness :
  let app (id : string) := {| a_id := id; a_name := id; a_appURL := None; a_loginURL := None;
                              a_accessType := None; a_isActive := None; a_type := None;
                              a_frontendStack := None; a_isDefault := Some true;
                              a_logoURL := None; a_description := None; a_metadata := None |} in
  source_default_app ([] ++ app "first" :: [app "second"]) = source_default_app [app "second"]
  ∧ app "first" ∉ non_default_apps ([] ++ app "first" :: [app "second"]).
Proof.
  intros app.
  apply (proj2 (proj2 last_flagged_application_is_the_default)
           [] (app "first") [app "second"] (app "second")).
  - reflexivity.
  - left.
  - reflexivity.
Defined.

(** ** tenants.py and applications.py: the rate limiter *)

Section RateLimiterFacts.
Context `{Runtime}.




End RateLimiterFacts.


Section RetryFacts.
Context `{Runtime}.

(** X9. Only the status 429 is retried.  When the first answer has any
    other status, [make_request_with_rate_limiting] sends that one
    request and no other: it returns the response when the status is
    below 400 and raises the HTTP error otherwise.  When the connection
    fails it also sends nothing more, and raises. *)
Theorem other_failures_are_not_retried :
  (∀ lim m u c hs b (w : world) resp n1,
     let r := {| method := m; url := u; headers := hs; json := b |} in
     let w0 := (enforce_rate_limit lim u w).2 in
     let run := make_request_with_rate_limiting lim m u c hs b w in
     session_request r (w_net w0) = (Some resp, n1) →
     status_code resp ≠ 429%Z →
     requests_of (w_trace run.2) = requests_of (w_trace w) ++ [r]
     ∧ w_net run.2 = n1
     ∧ run.1 = (if is_error_status (status_code resp) then Raise (HTTPError resp) else Ok resp))
  ∧ (∀ lim m u c hs b (w : world) n1,
       let r := {| method := m; url := u; headers := hs; json := b |} in
       let w0 := (enforce_rate_limit lim u w).2 in
       let run := make_request_with_rate_limiting lim m u c hs b w in
       session_request r (w_net w0) = (None, n1) →
       requests_of (w_trace run.2) = requests_of (w_trace w) ++ [r]
       ∧ w_net run.2 = n1
       ∧ run.1 = Raise ConnectionError).
Proof.
  split.
  - intros lim m u c hs b w resp n1 r w0 run E1 S1. subst run w0.
    pose proof (enforce_rate_limit_returns lim u w) as E0.
    destruct (issues_enforce_rate_limit lim u w) as (evs0 & Ht0 & Hs0 & _).
    unfold make_request_with_rate_limiting. fold r.
    unfold try_except, bind, do_request, raise_for_status, log, sleep, emit, ret, raise.
    destruct (enforce_rate_limit lim u w) as [res w0]. simpl in E0, E1, Ht0. subst res.
    rewrite E1. apply Z.eqb_neq in S1. rewrite S1.
    destruct (is_error_status (status_code resp)); simpl;
      rewrite Ht0, !requests_of_app, Hs0, ?app_nil_r; simpl; rewrite ?app_nil_r; auto.
  - intros lim m u c hs b w n1 r w0 run E1. subst run w0.
    pose proof (enforce_rate_limit_returns lim u w) as E0.
    destruct (issues_enforce_rate_limit lim u w) as (evs0 & Ht0 & Hs0 & _).
    unfold make_request_with_rate_limiting. fold r.
    unfold try_except, bind, do_request, raise_for_status, log, sleep, emit, ret, raise.
    destruct (enforce_rate_limit lim u w) as [res w0]. simpl in E0, E1, Ht0. subst res.
    rewrite E1. simpl.
    rewrite Ht0, !requests_of_app, Hs0, ?app_nil_r; simpl; rewrite ?app_nil_r; auto.
Qed.
End RetryFacts.

Lemma other_failures_are_not_retried_witness :
  let unavailable := {| status_code := 503; content := JErrors ["Service Unavailable"] |} in
  let run := @make_request_with_rate_limiting scripted TenantsModule GET "https://dst/x"
               dst_client [] JNothing
               (script_world [Some unavailable; ok_response JNothing]) in
  run.1 = Raise (HTTPError unavailable) ∧ length (requests_of (w_trace run.2)) = 1%nat.
Proof.
  intros unavailable run.
  pose proof (proj1 (@other_failures_are_not_retried scripted) TenantsModule GET "https://dst/x"
                dst_client [] JNothing (script_world [Some unavailable; ok_response JNothing])
                unavailable ([ok_response JNothing], 0%Q) eq_refl) as Hthm.
  destruct Hthm as (Hreq & _ & Hres); [discriminate|].
  split; [exact Hres|]. subst run. rewrite Hreq. reflexivity.
Defined.

(** ** permissions_and_categories.py *)

Section SettingsFacts.
Context `{Runtime}.

Lemma omap_length_le {A B : Type} (f : A → option B) (l : list A) :
  (length (omap f l) ≤ length l)%nat.
Proof.
  induction l as [|x l IH]; [reflexivity|].
  cbn [omap list_omap]. destruct (f x); simpl; lia.
Qed.

Lemma permission_payload_truthy (p : permission) (d : permission_data) :
  permission_payload p = Some d →
  truthy (pd_key d) = true ∧ truthy (pd_categoryId d) = true.
Proof.
  unfold permission_payload.
  destruct (truthy (p_key p)) eqn:Ek; [|discriminate].
  destruct (p_categoryId p) as [cat|]; [|discriminate]. simpl.
  destruct (truthy cat) eqn:Ec; [|discriminate].
  intros [= <-]. simpl. auto.
Qed.

(** X10. Every request of [create_permissions] is a POST to the
    permissions endpoint that carries between 1 and 100 permissions, each
    with a non-empty key and a non-empty category id: an empty batch is
    never sent, and a permission without a key or a category is never
    sent. *)
Theorem permission_batches_are_bounded :
  ∀ c permissions,
    issues (only (λ r, method r = POST
                       ∧ url r = base_url c +:+ "/identity/resources/permissions/v1"
                       ∧ ∃ data, json r = JPermissionsBody data
                                 ∧ (0 < length data ≤ 100)%nat
                                 ∧ ∀ d, d ∈ data → truthy (pd_key d) = true
                                                   ∧ truthy (pd_categoryId d) = true))
      (λ _, True) (create_permissions c permissions).
Proof.
  intros c permissions. unfold create_permissions.
  match goal with |- issues (only ?P0) _ _ => set (P := P0) end.
  apply only_seq_log.
  eapply only_bind with (Q1 := λ _, True); [| | auto].
  - eapply issues_conseq; [apply (only_for_each P (λ _, True)) | auto | auto].
    intros permissions_batch Hin.
    eapply issues_conseq with (L := only P) (Q := λ _, True); [| auto | intros []; auto].
    destruct (permissions_data permissions_batch) as [|d data] eqn:Edata.
    + apply only_log. exact I.
    + apply only_seq_log. eapply only_try with (Q1 := λ _, True); [| | auto].
      * eapply only_bind with (Q1 := λ _, True); [| | auto].
        -- apply only_make_request; [|auto]. unfold P. split; [reflexivity|].
           split; [reflexivity|].
           exists (d :: data). split; [reflexivity|].
           split.
           ++ split; [simpl; lia|]. rewrite <- Edata. unfold permissions_data.
              etransitivity; [apply omap_length_le|].
              destruct (batches_from_sizes (length permissions) 100 permissions) as [Hall _];
                [lia | reflexivity |].
              rewrite Forall_forall in Hall. apply (Hall permissions_batch).
              apply Hin.
           ++ intros d' Hd'. rewrite <- Edata in Hd'. unfold permissions_data in Hd'.
              apply list_elem_of_omap in Hd' as (p & _ & Hp).
              apply (permission_payload_truthy p d' Hp).
        -- intros resp _. apply only_log. exact I.
      * intros e _. destruct e as [r| | |]; try (apply only_raise; exact I).
        destruct (content r); first [apply only_log | apply only_raise]; exact I.
  - intros _ _. apply only_log. exact I.
Qed.




Lemma only_raise_bind {A B : Type} (P : request → Prop) (Q : result B → Prop) (e : exn)
    (k : A → M B) :
  Q (Raise e) → issues (only P) Q (bind (raise e) k).
Proof. intros HQ. apply (only_raise P Q e HQ). Qed.

Lemma only_ret_bind {A B : Type} (P : request → Prop) (Q : result B → Prop) (a : A)
    (k : A → M B) :
  issues (only P) Q (k a) → issues (only P) Q (bind (ret a) k).
Proof. intros Hk w. exact (Hk w). Qed.

Lemma create_categories_bodies (c : client) (categories : list category) :
  issues (only (λ r, ∃ cat, cat ∈ categories ∧ r = category_creation_call c cat))
    (if_returns (λ category_mapping,
                   ∀ id, is_Some (category_mapping !! id) →
                         ∃ cat, cat ∈ categories ∧ c_id cat = id))
    (create_categories c categories).
Proof.
  unfold create_categories.
  match goal with |- issues (only ?P0) _ _ => set (P := P0) end.
  set (Inv := λ category_mapping : gmap string string,
                ∀ id, is_Some (category_mapping !! id) → ∃ cat, cat ∈ categories ∧ c_id cat = id).
  apply only_seq_log.
  eapply only_bind with (Q1 := λ r, match r with Ok m => Inv m | Raise _ => True end).
  - apply (only_for_fold P Inv (λ _, True)).
    + intros id [v Hv]. rewrite lookup_empty in Hv. discriminate.
    + intros category_mapping cat Hin Hacc.
      eapply only_try with (Q1 := λ r, match r with Ok m => Inv m | Raise _ => True end);
        [| | auto].
      * eapply only_bind with (Q1 := λ _, True).
        -- apply only_make_request; [|auto]. unfold P.
           exists cat. split; [exact Hin | reflexivity].
        -- intros resp _.
           destruct (content resp); try (apply only_raise_bind; exact I).
           apply only_ret_bind. apply only_seq_log. apply only_ret.
           intros id' Hsome. destruct (decide (c_id cat = id')) as [<-|Hne].
           ++ eauto.
           ++ rewrite lookup_insert_ne in Hsome by exact Hne. auto.
        -- auto.
      * intros e _. destruct e as [r| | |]; try (apply only_raise; exact I).
        unfold error_content.
        destruct (content r); try (apply only_raise_bind; exact I).
        apply only_ret_bind.
        destruct (already_exist errors).
        -- apply only_seq_log. apply only_ret. exact Hacc.
        -- apply only_raise. exact I.
  - intros m Hm. apply only_seq_log. apply only_ret. exact Hm.
  - auto.
Qed.

Lemma get_permissions_only (P : request → Prop) (c : client) :
  P {| method := GET; url := base_url c +:+ "/identity/resources/permissions/v1";
       headers := get_headers c; json := JNothing |} →
  issues (only P) (returns (λ _, True)) (get_permissions c).
Proof.
  intros HP. unfold get_permissions. apply only_seq_log.
  eapply only_try with (Q1 := λ _, True).
  - eapply only_bind with (Q1 := λ _, True).
    + apply only_make_request; [exact HP | auto].
    + intros resp _.
      eapply only_bind with (Q1 := λ _, True); [| | auto].
      * destruct (content resp); first [apply only_ret | apply only_raise]; exact I.
      * intros items _. apply only_seq_log. apply only_ret. exact I.
    + auto.
  - intros e _. apply only_seq_log. apply only_ret. exact I.
  - intros a _. exact I.
Qed.




(** X12. Every request of [create_categories] is the creation call of one
    of the categories it was given, and every key of the mapping it
    returns is the id of one of them.  When the platform refuses the
    first category with an error that does not say [already exist], the
    function raises that error at once, whatever categories remain; when
    the error says so and the category is the only one, the function
    logs that it skips it and returns an empty mapping. *)
Theorem category_creation_stops_at_other_errors :
  (∀ c categories,
     issues (only (λ r, ∃ cat, cat ∈ categories ∧ r = category_creation_call c cat))
       (if_returns (λ category_mapping,
                      ∀ id, is_Some (category_mapping !! id) →
                            ∃ cat, cat ∈ categories ∧ c_id cat = id))
       (create_categories c categories))
  ∧ (∀ c cat rest (w w1 : world) resp errors,
       make_request_with_rate_limiting TenantsModule POST
         (url (category_creation_call c cat)) c (get_headers c)
         (json (category_creation_call c cat))
         (after_events w [EvLog INFO "Creating categories in destination account."])
       = (Raise (HTTPError resp), w1) →
       content resp = JErrors errors →
       (already_exist errors = false →
        create_categories c (cat :: rest) w = (Raise (HTTPError resp), w1))
       ∧ (already_exist errors = true →
          create_categories c [cat] w
          = (Ok ∅, after_events w1
                     [EvLog INFO ("Category already exists. Skipping: " +:+ c_name cat);
                      EvLog INFO "Categories creation completed."]))).
Proof.
  split.
  - intros c categories.
    apply create_categories_bodies.
  - intros c cat rest w w1 resp errors Hcall Hcontent. simpl in Hcall.
    split.
    + intros Hnot. unfold create_categories. rewrite seq_log_run. cbn [for_fold].
      erewrite bind_run_raise; [reflexivity|].
      erewrite bind_run_raise; [reflexivity|].
      erewrite try_run_raise; [|erewrite bind_run_raise; [reflexivity | exact Hcall]].
      unfold error_content. rewrite Hcontent. unfold bind, ret. rewrite Hnot. reflexivity.
    + intros Hyes. unfold create_categories. rewrite seq_log_run. cbn [for_fold].
      erewrite bind_run_ok; [|erewrite bind_run_ok; [reflexivity|]].
      2: { erewrite try_run_raise; [|erewrite bind_run_raise; [reflexivity | exact Hcall]].
           unfold error_content. rewrite Hcontent. unfold bind at 1, ret at 1. rewrite Hyes.
           rewrite seq_log_run. reflexivity. }
      unfold ret at 1. rewrite seq_log_run. unfold ret. rewrite after_events_app. reflexivity.
Qed.
End SettingsFacts.


Lemma category_creation_stops_at_other_errors_witness :
  let billing := {| c_id := "c1"; c_name := "Billing"; c_description := ""; c_createdAt := "";
                    c_feCategory := false |} in
  let conflict := {| status_code := 409; content := JErrors ["Category already exists"] |} in
  (@create_categories scripted dst_client [billing] (script_world [Some conflict])).1 = Ok ∅.
Proof.
  intros billing conflict.
  pose proof (proj2 (proj2 (@category_creation_stops_at_other_errors scripted)
                       dst_client billing [] (script_world [Some conflict]) _ conflict
                       ["Category already exists"] eq_refl eq_refl) eq_refl) as Hrun.
  rewrite Hrun. reflexivity.
Defined.

(** ** tenants.py: the two summaries *)

Section TenantSummaryFacts.
Context `{Runtime}.

Lemma safe_run {A : Type} (P : request → Prop) (Q : A → Prop) (m : M A) (w : world) :
  issues (only P) (returns Q) m → ∃ a w', m w = (Ok a, w') ∧ Q a.
Proof.
  intros Hm. destruct (Hm w) as (evs & _ & _ & Hq).
  destruct (m w) as [[a|e] w']; [|contradiction]. eauto.
Qed.



End TenantSummaryFacts.


(** ** jwt_settings.py *)

Section JwtFacts.
Context `{Runtime}.

Lemma differs_false {A : Type} `{EqDecision A} (src dst : option A) :
  JwtSettings.differs src dst = false ↔ ∀ v, src = Some v → dst = Some v.
Proof.
  unfold JwtSettings.differs. destruct src as [v|].
  - rewrite negb_false_iff, bool_decide_eq_true. split; [intros -> v' [= <-]; reflexivity | auto].
  - split; [discriminate | reflexivity].
Qed.

Lemma compare_jwt_settings_false (s d : jwt_settings) :
  JwtSettings.compare_jwt_settings (Some s) (Some d) = false
  ↔ JwtSettings.settings_truthy s = true ∧ JwtSettings.settings_truthy d = true
    ∧ settings_agree s d.
Proof.
  unfold JwtSettings.compare_jwt_settings, settings_agree.
  destruct (JwtSettings.settings_truthy s); [|simpl; split; [discriminate | intros [? _]; discriminate]].
  destruct (JwtSettings.settings_truthy d);
    [|simpl; split; [discriminate | intros (_ & ? & _); discriminate]].
  simpl. rewrite !orb_false_iff, !differs_false. tauto.
Qed.

Lemma get_jwt_settings_run (c : client) (w : world) :
  ∃ o w', JwtSettings.get_jwt_settings c w = (Ok o, w')
          ∧ requests_of (w_trace w') = requests_of (w_trace w) ++ [jwt_settings_call c]
          ∧ w_net w' = (session_request (jwt_settings_call c) (w_net w)).2
          ∧ (∀ resp n1, session_request (jwt_settings_call c) (w_net w) = (Some resp, n1) →
               o = (if (status_code resp =? 200)%Z
                    then match content resp with
                         | JConfiguration data => Some data
                         | _ => None
                         end
                    else None))
          ∧ (∀ n1, session_request (jwt_settings_call c) (w_net w) = (None, n1) → o = None).
Proof.
  unfold JwtSettings.get_jwt_settings. fold (jwt_settings_call c).
  unfold try_except, bind, do_request, log, emit, ret, raise.
  destruct (session_request (jwt_settings_call c) (w_net w)) as [[resp|] n1] eqn:Ereq.
  - destruct (status_code resp =? 200)%Z eqn:Es.
    + destruct (content resp) eqn:Ec; simpl;
        (eexists; eexists; split; [reflexivity|]);
        simpl; rewrite ?requests_of_app; simpl; rewrite ?app_nil_r;
        (split; [reflexivity|]); (split; [reflexivity|]);
        (split; [intros resp' n' [= <- <-]; rewrite Es, Ec; reflexivity | discriminate]).
    + simpl. eexists; eexists; split; [reflexivity|].
      simpl; rewrite ?requests_of_app; simpl; rewrite ?app_nil_r.
      split; [reflexivity|]. split; [reflexivity|].
      split; [intros resp' n' [= <- <-]; rewrite Es; reflexivity | discriminate].
  - simpl. eexists; eexists; split; [reflexivity|].
    simpl; rewrite ?requests_of_app; simpl; rewrite ?app_nil_r.
    split; [reflexivity|]. split; [reflexivity|].
    split; [discriminate | reflexivity].
Qed.

Lemma update_jwt_settings_run (c : client) (settings : jwt_settings) (w : world) :
  ∃ b w', JwtSettings.update_jwt_settings c settings w = (Ok b, w')
          ∧ requests_of (w_trace w') = requests_of (w_trace w) ++ [jwt_update_call c settings].
Proof.
  unfold JwtSettings.update_jwt_settings. fold (jwt_update_call c settings).
  unfold try_except, bind, do_request, log, emit, ret, raise.
  destruct (session_request (jwt_update_call c settings) (w_net w)) as [[resp|] n1] eqn:Ereq.
  - destruct ((status_code resp =? 200)%Z || (status_code resp =? 201)%Z); simpl;
      (eexists; eexists; split; [reflexivity|]);
      simpl; rewrite ?requests_of_app; simpl; rewrite ?app_nil_r; reflexivity.
  - simpl. eexists; eexists; split; [reflexivity|].
    simpl; rewrite ?requests_of_app; simpl; rewrite ?app_nil_r; reflexivity.
Qed.

(** X15. With its switch on, [migrate_jwt_settings] never raises.  When
    both accounts answer their settings with status 200 and the source
    has some setting, it sends the update to the destination exactly when
    the destination has no setting or differs from the source on a
    setting that the source has; when they agree it only reads.  When the
    source does not answer with status 200, or the connection fails, the
    destination is not called at all. *)
Theorem jwt_settings_are_posted_only_when_they_differ :
  ∀ (env : gmap string string) source_client destination_client (w : world),
    let run := JwtSettings.migrate_jwt_settings env source_client destination_client w in
    let sent := λ l, requests_of (w_trace run.2) = requests_of (w_trace w) ++ l in
    JwtSettings.MIGRATE_JWT_SETTINGS env = true →
    run.1 = Ok tt
    ∧ (∀ resp1 n1 s resp2 n2 d,
         session_request (jwt_settings_call source_client) (w_net w) = (Some resp1, n1) →
         status_code resp1 = 200%Z → content resp1 = JConfiguration s →
         JwtSettings.settings_truthy s = true →
         session_request (jwt_settings_call destination_client) n1 = (Some resp2, n2) →
         status_code resp2 = 200%Z → content resp2 = JConfiguration d →
         (JwtSettings.settings_truthy d = true ∧ settings_agree s d →
          sent [jwt_settings_call source_client; jwt_settings_call destination_client])
         ∧ (¬ (JwtSettings.settings_truthy d = true ∧ settings_agree s d) →
            sent [jwt_settings_call source_client; jwt_settings_call destination_client;
                  jwt_update_call destination_client s]))
    ∧ (∀ resp1 n1,
         session_request (jwt_settings_call source_client) (w_net w) = (Some resp1, n1) →
         status_code resp1 ≠ 200%Z →
         sent [jwt_settings_call source_client])
    ∧ (∀ n1,
         session_request (jwt_settings_call source_client) (w_net w) = (None, n1) →
         sent [jwt_settings_call source_client]).
Proof.
  intros env source_client destination_client w run sent Hflag. subst sent run.
  unfold JwtSettings.migrate_jwt_settings. rewrite Hflag. cbn [negb].
  rewrite !seq_log_run.
  set (w0 := after_events _ _).
  assert (Hw0 : w_net w0 = w_net w ∧ requests_of (w_trace w0) = requests_of (w_trace w)).
  { subst w0. unfold after_events. simpl. rewrite !requests_of_app. simpl.
    rewrite !app_nil_r. auto. }
  destruct Hw0 as [Hnet0 Hreq0].
  destruct (get_jwt_settings_run source_client w0) as (o1 & w1 & E1 & Hreq1 & Hnet1 & Hok1 & Hno1).
  rewrite Hnet0 in Hnet1, Hok1, Hno1. rewrite Hreq0 in Hreq1.
  rewrite (bind_run_ok _ _ _ _ _ E1).
  destruct (JwtSettings.is_truthy_settings o1) eqn:Etruthy; cbn [negb].
  - destruct o1 as [s|]; [|discriminate]. simpl in Etruthy.
    rewrite !seq_log_run.
    set (w1' := after_events _ _).
    assert (Hw1 : w_net w1' = w_net w1 ∧ requests_of (w_trace w1') = requests_of (w_trace w1)).
    { subst w1'. unfold after_events. simpl. rewrite !requests_of_app. simpl.
      rewrite !app_nil_r. auto. }
    destruct Hw1 as [Hnet1' Hreq1'].
    destruct (get_jwt_settings_run destination_client w1')
      as (o2 & w2 & E2 & Hreq2 & Hnet2 & Hok2 & Hno2).
    rewrite Hnet1', Hnet1 in Hnet2, Hok2, Hno2. rewrite Hreq1', Hreq1 in Hreq2.
    rewrite (bind_run_ok _ _ _ _ _ E2).
    destruct (update_jwt_settings_run destination_client s
                (after_events w2 [EvLog INFO "Updating JWT settings in destination account..."]))
      as (b & w3 & E3 & Hreq3).
    assert (Hreq3' : requests_of (w_trace w3)
                     = requests_of (w_trace w)
                       ++ [jwt_settings_call source_client; jwt_settings_call destination_client;
                           jwt_update_call destination_client s]).
    { rewrite Hreq3. unfold after_events. simpl. rewrite requests_of_app. simpl.
      rewrite app_nil_r, Hreq2, <- !app_assoc. reflexivity. }
    destruct (JwtSettings.compare_jwt_settings (Some s) o2) eqn:Ecmp; cbn [negb].
    + rewrite seq_log_run, (bind_run_ok _ _ _ _ _ E3).
      assert (Hfinal : ∃ wf, (if b
                then bind (log INFO "SUCCESS: Successfully migrated JWT settings")
                       (λ _, log INFO "Updated settings")
                else log ERROR "Failed to migrate JWT settings") w3 = (Ok tt, wf)
               ∧ requests_of (w_trace wf) = requests_of (w_trace w3)).
      { destruct b; eexists; (split; [reflexivity|]); simpl;
          rewrite ?requests_of_app; simpl; rewrite ?app_nil_r; reflexivity. }
      destruct Hfinal as (wf & Efinal & Hreqf). rewrite Efinal. simpl.
      split; [reflexivity|]. rewrite Hreqf, Hreq3'.
      split; [|split].
      * intros resp1 n1 s' resp2 n2 d Hr1 Hs1 Hc1 _ Hr2 Hs2 Hc2.
        pose proof (Hok1 _ _ Hr1) as Ho1. rewrite Hs1, Hc1 in Ho1. simpl in Ho1.
        injection Ho1 as <-.
        rewrite Hr1 in Hok2. simpl in Hok2.
        pose proof (Hok2 _ _ Hr2) as Ho2. rewrite Hs2, Hc2 in Ho2. simpl in Ho2. subst o2.
        split; [|reflexivity].
        intros [Hd Hagree]. exfalso.
        assert (JwtSettings.compare_jwt_settings (Some s) (Some d) = false); [|congruence].
        apply compare_jwt_settings_false. auto.
      * intros resp1 n1 Hr1 Hs1. pose proof (Hok1 _ _ Hr1) as Ho1.
        apply Z.eqb_neq in Hs1. rewrite Hs1 in Ho1. discriminate.
      * intros n1 Hr1. pose proof (Hno1 _ Hr1). discriminate.
    + unfold log, emit. simpl. split; [reflexivity|].
      rewrite requests_of_app. simpl. rewrite app_nil_r, Hreq2.
      split; [|split].
      * intros resp1 n1 s' resp2 n2 d Hr1 Hs1 Hc1 _ Hr2 Hs2 Hc2.
        pose proof (Hok1 _ _ Hr1) as Ho1. rewrite Hs1, Hc1 in Ho1. simpl in Ho1.
        injection Ho1 as <-.
        rewrite Hr1 in Hok2. simpl in Hok2.
        pose proof (Hok2 _ _ Hr2) as Ho2. rewrite Hs2, Hc2 in Ho2. simpl in Ho2. subst o2.
        apply compare_jwt_settings_false in Ecmp as (_ & Hd & Hagree).
        split; [intros _; rewrite <- app_assoc; reflexivity|].
        intros Hnot. exfalso. apply Hnot. auto.
      * intros resp1 n1 Hr1 Hs1. pose proof (Hok1 _ _ Hr1) as Ho1.
        apply Z.eqb_neq in Hs1. rewrite Hs1 in Ho1. discriminate.
      * intros n1 Hr1. pose proof (Hno1 _ Hr1). discriminate.
  - unfold log, emit. simpl. split; [reflexivity|].
    rewrite requests_of_app. simpl. rewrite app_nil_r, Hreq1.
    split; [|split].
    + intros resp1 n1 s resp2 n2 d Hr1 Hs1 Hc1 Hts _ _ _.
      pose proof (Hok1 _ _ Hr1) as Ho1. rewrite Hs1, Hc1 in Ho1. simpl in Ho1. subst o1.
      simpl in Etruthy. congruence.
    + intros; reflexivity.
    + intros; reflexivity.
Qed.
End JwtFacts.

Lemma jwt_settings_are_posted_only_when_they_differ_witness :
  let env : gmap string string := {["MIGRATE_JWT_SETTINTS" := "true"]} in
  (@JwtSettings.migrate_jwt_settings scripted env src_client dst_client (script_world [])).1
  = Ok tt.
Proof.
  intros env.
  exact (proj1 (@jwt_settings_are_posted_only_when_they_differ scripted env src_client
                  dst_client (script_world []) eq_refl)).
Defined.

(** ** main.py and utility/frontegg_client.py: authentication *)

Section AuthFacts.
Context `{Runtime}.

Lemma truthy_id_some (o : option string) (s : string) :
  truthy_id o = Some s → o = Some s ∧ truthy s = true.
Proof.
  destruct o as [t|]; [|discriminate]. simpl.
  destruct (truthy t) eqn:E; [|discriminate]. intros [= <-]. auto.
Qed.

Lemma FronteggClient_run (base cid secret : option string) (w : world) :
  match Main.FronteggClient base cid secret w with
  | (Ok c, w') =>
      base = Some (base_url c) ∧ cid = Some (client_id c) ∧ truthy (token c) = true
      ∧ requests_of (w_trace w')
        = requests_of (w_trace w) ++ [authentication_call (base_url c) (client_id c) secret]
      ∧ ∃ resp n1 expires,
          session_request (authentication_call (base_url c) (client_id c) secret) (w_net w)
          = (Some resp, n1)
          ∧ is_error_status (status_code resp) = false
          ∧ content resp = JToken (Some (token c)) expires
  | (Raise e, w') =>
      match base, cid with
      | Some b, Some i =>
          requests_of (w_trace w') = requests_of (w_trace w) ++ [authentication_call b i secret]
      | _, _ => w' = w
      end
  end.
Proof.
  unfold Main.FronteggClient.
  destruct base as [b|]; [|reflexivity]. destruct cid as [i|]; [|reflexivity].
  rewrite seq_log_run. fold (authentication_call b i secret).
  unfold try_except, bind, do_request, raise_for_status, log, emit, ret, raise.
  cbn [after_events w_net w_trace].
  destruct (session_request (authentication_call b i secret) (w_net w)) as [[resp|] n1] eqn:Ereq.
  - destruct (is_error_status (status_code resp)) eqn:Es.
    + simpl. rewrite !requests_of_app. simpl. rewrite !app_nil_r. reflexivity.
    + destruct (content resp) eqn:Ec; simpl;
        try (rewrite !requests_of_app; simpl; rewrite !app_nil_r; reflexivity).
      match goal with
      | |- context [truthy_id ?t] => destruct (truthy_id t) as [tok|] eqn:Etok
      end; simpl.
      * apply truthy_id_some in Etok as [-> Htok].
        rewrite !requests_of_app. simpl. rewrite !app_nil_r.
        repeat (split; [reflexivity || exact Htok|]).
        exists resp, n1, expiresIn. auto.
      * rewrite !requests_of_app. simpl. rewrite !app_nil_r. reflexivity.
  - simpl. rewrite !requests_of_app. simpl. rewrite !app_nil_r. reflexivity.
Qed.

(** X16. [main] authenticates against the source account first and then
    against the destination account, and runs the migration steps only
    with two clients that hold a non-empty token: when either
    authentication raises, [main] raises the same error and stops there,
    before any step. *)
Theorem failed_authentication_aborts_main :
  ∀ (env : gmap string string) steps (w : world),
    let w0 := after_events w [EvLog INFO "=== Migration Process Starting ===";
                              EvLog INFO "--- Initializing Frontegg Clients ---"] in
    let first := Main.FronteggClient (env !! "BASE_URL_1") (env !! "CLIENT_ID_1")
                   (env !! "API_KEY_1") w0 in
    (∀ e w1, first = (Raise e, w1) → Main.main env steps w = (Raise e, w1))
    ∧ (∀ c1 w1,
         first = (Ok c1, w1) →
         let second := Main.FronteggClient (env !! "BASE_URL_2") (env !! "CLIENT_ID_2")
                         (env !! "API_KEY_2") w1 in
         truthy (token c1) = true
         ∧ requests_of (w_trace w1)
           = requests_of (w_trace w)
             ++ [authentication_call (base_url c1) (client_id c1) (env !! "API_KEY_1")]
         ∧ (∀ e w2, second = (Raise e, w2) → Main.main env steps w = (Raise e, w2))
         ∧ (∀ c2 w2, second = (Ok c2, w2) →
              truthy (token c2) = true
              ∧ Main.main env steps w = Main.run_steps env steps c1 c2 w2)).
Proof.
  intros env steps w w0 first. subst first.
  assert (Hmain : Main.main env steps w
                  = bind (Main.FronteggClient (env !! "BASE_URL_1") (env !! "CLIENT_ID_1")
                            (env !! "API_KEY_1"))
                      (λ c1, bind (Main.FronteggClient (env !! "BASE_URL_2")
                                     (env !! "CLIENT_ID_2") (env !! "API_KEY_2"))
                               (λ c2, if truthy (token c1) && truthy (token c2)
                                      then Main.run_steps env steps c1 c2
                                      else log ERROR "Authentication failed; migration aborted."))
                      w0).
  { unfold Main.main. rewrite !seq_log_run, after_events_app. reflexivity. }
  split.
  - intros e w1 E1. rewrite Hmain. apply (bind_run_raise _ _ _ _ _ E1).
  - intros c1 w1 E1 second. subst second.
    pose proof (FronteggClient_run (env !! "BASE_URL_1") (env !! "CLIENT_ID_1")
                  (env !! "API_KEY_1") w0) as Hrun1.
    rewrite E1 in Hrun1. destruct Hrun1 as (_ & _ & Htok1 & Hreq1 & _).
    split; [exact Htok1|].
    split.
    { rewrite Hreq1. subst w0. unfold after_events. simpl. rewrite requests_of_app. simpl.
      rewrite app_nil_r. reflexivity. }
    rewrite Hmain, (bind_run_ok _ _ _ _ _ E1).
    split.
    + intros e w2 E2. apply (bind_run_raise _ _ _ _ _ E2).
    + intros c2 w2 E2.
      pose proof (FronteggClient_run (env !! "BASE_URL_2") (env !! "CLIENT_ID_2")
                    (env !! "API_KEY_2") w1) as Hrun2.
      rewrite E2 in Hrun2. destruct Hrun2 as (_ & _ & Htok2 & _).
      split; [exact Htok2|].
      rewrite (bind_run_ok _ _ _ _ _ E2), Htok1, Htok2. reflexivity.
Qed.

End AuthFacts.

Lemma failed_authentication_aborts_main_witness :
  let env : gmap string string := {["BASE_URL_1" := "https://src"; "CLIENT_ID_1" := "cs"]} in
  let steps := {| Main.migrate_users := λ _ _ _ _, ret tt;
                  Main.bulk_invite_main := ret tt;
                  Main.assign_roles_to_users := λ _ _, ret tt;
                  Main.migrate_groups := λ _ _, ret tt;
                  Main.migrate_security_rules := λ _ _, ret tt;
                  Main.migrate_email_configuration := λ _ _, ret tt;
                  Main.migrate_webhook_configuration := λ _ _, ret tt;
                  Main.migrate_allowed_origins_configuration := λ _ _, ret tt |} in
  let unauthorized := {| status_code := 401; content := JErrors ["Unauthorized"] |} in
  (@Main.main scripted env steps (script_world [Some unauthorized])).1
  = Raise (HTTPError unauthorized).
Proof.
  intros env steps unauthorized.
  pose proof (proj1 (@failed_authentication_aborts_main scripted env steps
                       (script_world [Some unauthorized]))
                (HTTPError unauthorized) _ eq_refl) as Hrun.
  rewrite Hrun. reflexivity.
Defined.


(** ** users.py and assign_roles_to_users.py *)

Section UserFacts.
Context `{Runtime}.



(** X19. [get_users_with_pagination] has no bound on the number of pages:
    against a platform whose every answer announces a next page with an
    offset, the loop has not ended after any number of turns. *)
Theorem user_fetcher_loops_while_a_next_offset_is_announced :
  ∀ c,
    (∀ r n, ∃ items offset_value n',
       session_request r n
       = (Some {| status_code := 200;
                  content := JUsersPage items (NextOffset offset_value) |}, n')) →
    ∀ fuel (w : world), (get_users_with_pagination fuel c w).1 = Ok None.
Proof.
  intros c Hserve fuel w.
  assert (Hcall : ∀ u hs (w0 : world),
            ∃ items offset_value w1, call_api u hs w0 = (Ok (items, NextOffset offset_value), w1)).
  { intros u hs w0. unfold call_api. rewrite seq_log_run.
    unfold bind, do_request, log, emit, ret. cbn [after_events w_net w_trace].
    destruct (Hserve {| method := GET; url := u; headers := hs; json := JNothing |} (w_net w0))
      as (items & o & n' & ->). simpl. eauto. }
  assert (Hloop : ∀ fuel hs offset_value items_arr (w0 : world),
            (next_pages fuel c hs (NextOffset offset_value) items_arr w0).1 = Ok None).
  { clear fuel w. induction fuel as [|fuel IH]; intros hs o items_arr w0; [reflexivity|].
    cbn [next_pages]. rewrite seq_log_run.
    destruct (Hcall (base_url c +:+ "/identity/resources/users/v3?includeSubTenants=true&_limit=200&_offset="
                       +:+ o) hs
                (after_events w0 [EvLog INFO
                   ("Fetching next page of users from: "
                    +:+ (base_url c +:+ "/identity/resources/users/v3?includeSubTenants=true&_limit=200&_offset="
                         +:+ o))]))
      as (items & o' & w1 & Ecall).
    rewrite (bind_run_ok _ _ _ _ _ Ecall). simpl. apply IH. }
  unfold get_users_with_pagination. rewrite seq_log_run.
  destruct (Hcall (base_url c +:+ "/identity/resources/users/v3?includeSubTenants=true&_limit=200")
              [("authorization", "Bearer " +:+ token c)]
              (after_events w [EvLog INFO
                 ("Fetching users from: "
                  +:+ (base_url c +:+ "/identity/resources/users/v3?includeSubTenants=true&_limit=200"))]))
    as (items & o & w1 & Ecall).
  rewrite (bind_run_ok _ _ _ _ _ Ecall). cbn [fst snd].
  specialize (Hloop fuel [("authorization", "Bearer " +:+ token c)] o items w1).
  unfold bind at 1.
  destruct (next_pages fuel c [("authorization", "Bearer " +:+ token c)] (NextOffset o) items w1)
    as [res w2].
  simpl in Hloop. subst res. reflexivity.
Qed.
End UserFacts.

Lemma user_fetcher_loops_while_a_next_offset_is_announced_witness :
  let page := {| status_code := 200;
                 content := JUsersPage [{| u_id := Some "u1"; u_email := Some "a@x" |}]
                              (NextOffset "200") |} in
  (@get_users_with_pagination (answering (λ _, page)) 1000 dst_client
     (@Build_world (answering (λ _, page)) 0%Q [] (λ _, ∅))).1 = Ok None.
Proof.
  intros page.
  apply (@user_fetcher_loops_while_a_next_offset_is_announced (answering (λ _, page)) dst_client).
  intros r n. exists [{| u_id := Some "u1"; u_email := Some "a@x" |}], "200", n. reflexivity.
Defined.

(** ** roles.py *)

Section RoleFacts.
Context `{Runtime}.

Lemma keys_among_insert (roles : list role) (m : gmap string string) (r : role) (v : string) :
  keys_among roles m → r ∈ roles → keys_among roles (<[r_id r := v]> m).
Proof.
  intros Hm Hr id Hsome. destruct (decide (r_id r = id)) as [<-|Hne]; [eauto|].
  rewrite lookup_insert_ne in Hsome by exact Hne. auto.
Qed.

Lemma create_roles_except_keeps {A : Type} (P : request → Prop) (I : A → Prop) (skip : A)
    (msg : string) (e : exn) :
  I skip → issues (only P) (if_returns I) (create_roles_except skip msg e).
Proof.
  intros Hskip. unfold create_roles_except.
  destruct e as [r| | |]; try (apply only_seq_log; apply only_raise; exact Logic.I).
  apply only_seq_log. destruct (response_truthy r); [|apply only_raise; exact Logic.I].
  eapply only_bind with (Q1 := λ _, True); [| | auto].
  - unfold error_content.
    destruct (content r); first [apply only_ret | apply only_raise]; exact Logic.I.
  - intros errors _. apply only_seq_log.
    destruct (already_exist errors); [|apply only_raise; exact Logic.I].
    apply only_seq_log. apply only_ret. exact Hskip.
Qed.

(** X20. [create_roles] sends nothing but the listing of the destination
    permissions, the one batch that creates the roles without a tenant,
    and, for roles with a tenant, the creation of that single role under
    the header of its tenant.  Every key of the mapping it returns is the
    id of one of the roles it was given. *)
Theorem role_creation_sends_one_batch_and_single_roles :
  ∀ c roles_with_tenant roles_without_tenant,
    issues
      (only (λ req, req = permission_listing_call c
                    ∨ req = role_batch_creation_call c roles_without_tenant
                    ∨ ∃ r, r ∈ roles_with_tenant ∧ req = tenant_role_creation_call c r))
      (if_returns (keys_among (roles_without_tenant ++ roles_with_tenant)))
      (create_roles c roles_with_tenant roles_without_tenant).
Proof.
  intros c roles_with_tenant roles_without_tenant. unfold create_roles.
  match goal with |- issues (only ?P0) _ _ => set (P := P0) end.
  set (Keys := keys_among (roles_without_tenant ++ roles_with_tenant)).
  assert (Hempty : Keys ∅).
  { intros id [v Hv]. rewrite lookup_empty in Hv. discriminate. }
  apply only_seq_log.
  eapply only_bind_ok; [apply get_permissions_only; unfold P; left; reflexivity|].
  intros dest_permissions _. apply only_seq_log.
  eapply only_bind_ok; [apply log_detailed_api_call_only|]. intros _ _.
  eapply only_bind with (Q1 := if_returns Keys); [| | auto].
  - eapply only_try with (Q1 := if_returns Keys);
      [| intros e _; apply create_roles_except_keeps; exact Hempty | auto].
    eapply only_bind with (Q1 := λ _, True); [apply only_make_request; [|auto] | | auto].
    + unfold P. right. left. reflexivity.
    + intros resp _.
      eapply only_bind with (Q1 := λ _, True); [| | simpl; auto].
      { unfold created_roles.
        destruct (content resp); first [apply only_ret | apply only_raise]; exact I. }
      intros response_data _.
      eapply issues_conseq;
        [apply (only_for_fold P Keys (λ _, True)); [exact Hempty|] | auto
        | intros r; apply if_returns_match].
      intros m [original_role created_role] Hin Hm.
      apply only_seq_log. apply only_ret. apply keys_among_insert; [exact Hm|].
      apply elem_of_app. left. apply elem_of_zip_l in Hin. exact Hin.
  - intros role_id_mapping Hmapping. simpl in Hmapping.
    eapply only_bind with (Q1 := if_returns Keys); [| | auto].
    + eapply issues_conseq;
        [apply (only_for_fold P Keys (λ _, True)); [exact Hmapping|] | auto
        | intros r; apply if_returns_match].
      intros m r Hr Hm. apply only_seq_log.
      eapply only_bind_ok; [apply log_detailed_api_call_only|]. intros _ _.
      eapply issues_conseq with (L := only P) (Q := if_returns Keys);
        [| auto | intros res; apply if_returns_match].
      eapply only_try with (Q1 := if_returns Keys);
        [| intros e _; apply create_roles_except_keeps; exact Hm | auto].
      eapply only_bind with (Q1 := λ _, True); [apply only_make_request; [|auto] | | auto].
      * unfold P. right. right. exists r. split; [exact Hr | reflexivity].
      * intros resp _.
        eapply only_bind with (Q1 := λ _, True); [| | simpl; auto].
        { unfold created_roles.
          destruct (content resp); first [apply only_ret | apply only_raise]; exact I. }
        intros created _.
        eapply issues_conseq;
          [apply (only_for_fold P Keys (λ _, True)); [exact Hm|] | auto
          | intros res; apply if_returns_match].
        intros m' created_role Hin Hm'.
        apply only_seq_log. apply only_ret. apply keys_among_insert; [exact Hm'|].
        apply elem_of_app. right. exact Hr.
    + intros final Hfinal. simpl in Hfinal. apply only_seq_log. apply only_ret. exact Hfinal.
Qed.

Lemma get_permissions_once (c : client) :
  issues (once_or_twice (permission_listing_call c)) (returns (λ _, True)) (get_permissions c).
Proof.
  unfold get_permissions. apply issues_seq_log.
  eapply issues_try_silent with (Q1 := λ _, True).
  - eapply issues_bind with (L2 := silent) (Q1 := λ _, True).
    + apply issues_make_request_any.
    + intros resp _. eapply issues_bind with (L1 := silent) (L2 := silent) (Q1 := λ _, True).
      * destruct (content resp); first [apply issues_ret | apply issues_raise];
          first [reflexivity | exact I].
      * intros items _. apply issues_seq_log. apply issues_ret; [reflexivity | exact I].
      * intros l1 l2 -> ->. reflexivity.
      * auto.
    + intros l1 l2 Hl ->. rewrite app_nil_r. exact Hl.
    + auto.
  - intros e _. apply issues_seq_log. apply issues_ret; [reflexivity | exact I].
  - intros a _. exact I.
Qed.

Lemma only_anything {A : Type} (P : request → Prop) (Q : result A → Prop) (m : M A) :
  issues (only P) Q m → issues (only (λ _, True)) (λ _, True) m.
Proof.
  intros Hm. eapply issues_conseq; [exact Hm | | auto].
  intros l Hl. unfold only in *. eapply Forall_impl; [exact Hl | auto].
Qed.

(** X21. [create_roles] always posts the batch of the roles without a
    tenant, also when that batch is empty and also when the listing of
    the permissions failed: its first request after the listing (which is
    sent once, or twice when the platform answers 429) is the batch
    creation call. *)
Theorem role_batch_is_always_posted :
  ∀ c roles_with_tenant roles_without_tenant,
    issues
      (followed_by (once_or_twice (permission_listing_call c))
         (λ l, ∃ l', l = role_batch_creation_call c roles_without_tenant :: l'))
      (λ _, True)
      (create_roles c roles_with_tenant roles_without_tenant).
Proof.
  intros c roles_with_tenant roles_without_tenant.
  unfold create_roles.
  apply issues_seq_log.
  eapply issues_then; [apply get_permissions_once|].
  intros dest_permissions _. apply issues_seq_log.
  eapply issues_silent_then with (Q1 := λ _, True).
  { eapply issues_conseq; [apply (log_detailed_api_call_only (λ _, False)) | | auto].
    intros l Hl. destruct l as [|r l]; [reflexivity|]. inversion Hl; contradiction. }
  intros _ _.
  set (starts := λ l : list request,
                   ∃ l', l = role_batch_creation_call c roles_without_tenant :: l').
  assert (Hstarts : ∀ l1 l2, once_or_twice (role_batch_creation_call c roles_without_tenant) l1 →
                             starts (l1 ++ l2)).
  { intros l1 l2 [-> | ->]; eexists; reflexivity. }
  eapply issues_bind with (L1 := starts) (L2 := only (λ _, True)) (Q1 := λ _, True).
  - eapply issues_try with (L1 := starts) (L2 := only (λ _, True)) (Q1 := λ _, True).
    + eapply issues_bind with (L1 := once_or_twice (role_batch_creation_call c roles_without_tenant))
                              (L2 := only (λ _, True)) (Q1 := λ _, True).
      * eapply issues_conseq; [apply issues_make_request | auto | auto].
      * intros resp _.
        eapply only_bind with (Q1 := λ _, True); [| | auto].
        { unfold created_roles.
          destruct (content resp); first [apply only_ret | apply only_raise]; exact I. }
        intros response_data _.
        eapply issues_conseq;
          [apply (only_for_fold (λ _, True) (λ _, True) (λ _, True)); [exact I|] | auto | auto].
        intros m [original_role created_role] _ _. apply only_seq_log. apply only_ret. exact I.
      * intros l1 l2 Hl1 _. apply Hstarts. exact Hl1.
      * intros e l1 _ Hl1. split; [|exact I]. rewrite <- (app_nil_r l1). apply Hstarts. exact Hl1.
    + intros e _. eapply only_anything.
      apply (create_roles_except_keeps (λ _, True) (λ _, True)). exact I.
    + intros l1 l2 [l' ->] _. eexists. reflexivity.
    + intros a l1 _ Hl1. auto.
  - intros role_id_mapping _.
    eapply only_bind with (Q1 := λ _, True); [| | auto].
    + eapply issues_conseq;
        [apply (only_for_fold (λ _, True) (λ _, True) (λ _, True)); [exact I|] | auto | auto].
      intros m r _ _. apply only_seq_log.
      eapply only_bind_ok; [apply log_detailed_api_call_only|]. intros _ _.
      eapply only_try with (Q1 := λ _, True); [| | auto].
      * eapply only_bind with (Q1 := λ _, True); [apply only_make_request; auto | | auto].
        intros resp _.
        eapply only_bind with (Q1 := λ _, True); [| | simpl; auto].
        { unfold created_roles.
          destruct (content resp); first [apply only_ret | apply only_raise]; exact I. }
        intros created _.
        eapply issues_conseq;
          [apply (only_for_fold (λ _, True) (λ _, True) (λ _, True)); [exact I|] | auto | auto].
        intros m' created_role _ _. apply only_seq_log. apply only_ret. exact I.
      * intros e _.
        eapply issues_conseq;
          [apply (create_roles_except_keeps (λ _, True) (λ _, True)); exact I | auto
          | intros []; auto].
    + intros final _. apply only_seq_log. apply only_ret. exact I.
  - intros l1 l2 [l' ->] _. eexists. reflexivity.
  - intros e l1 _ Hl1. auto.
Qed.

(** X22. An HTTP error of a role creation is always raised again.  The
    handler reads the errors of the response only when the response is
    truthy, which a response with an error status never is; so the test
    for [already exist] is never reached, and [create_roles] raises the
    error of a refused batch whatever the error says. *)
Theorem role_errors_are_always_raised_again :
  (∀ (A : Type) (skip : A) msg resp (w : world),
     is_error_status (status_code resp) = true →
     create_roles_except skip msg (HTTPError resp) w
     = (Raise (HTTPError resp), after_events w [EvLog INFO msg]))
  ∧ (∀ c roles_with_tenant roles_without_tenant (w w3 : world) resp,
       let endpoint := base_url c +:+ "/identity/resources/roles/v1" in
       let data := JRolesBody (role_data_of false <$> roles_without_tenant) in
       let w1 := (get_permissions c (after_events w [EvLog INFO "Creating roles"])).2 in
       let w2 := (log_detailed_api_call "POST" endpoint (role_headers c) data
                    (after_events w1
                       [EvLog INFO "Sending array of roles to create without tenantId."])).2 in
       make_request_with_rate_limiting TenantsModule POST endpoint c (role_headers c) data w2
       = (Raise (HTTPError resp), w3) →
       create_roles c roles_with_tenant roles_without_tenant w
       = (Raise (HTTPError resp),
          after_events w3 [EvLog INFO "Error creating roles without tenantId"])).
Proof.
  assert (Hexcept : ∀ (A : Type) (skip : A) msg resp (w : world),
     is_error_status (status_code resp) = true →
     create_roles_except skip msg (HTTPError resp) w
     = (Raise (HTTPError resp), after_events w [EvLog INFO msg])).
  { intros A skip msg resp w Herr. unfold create_roles_except. rewrite seq_log_run.
    unfold response_truthy. rewrite Herr. reflexivity. }
  split; [exact Hexcept|].
  intros c roles_with_tenant roles_without_tenant w w3 resp endpoint data w1 w2 Hcall.
  assert (Herr : is_error_status (status_code resp) = true).
  { destruct (issues_make_request TenantsModule POST endpoint c (role_headers c) data w2)
      as (evs & _ & _ & Hout).
    rewrite Hcall in Hout. simpl in Hout. apply Hout. }
  unfold create_roles. rewrite seq_log_run.
  destruct (safe_run _ _ _ (after_events w [EvLog INFO "Creating roles"])
              (get_permissions_safe (λ _, True) c (λ _ _, I))) as (perms & w1' & E1 & _).
  assert (Hw1 : w1' = w1) by (subst w1; rewrite E1; reflexivity).
  subst w1'. rewrite (bind_run_ok _ _ _ _ _ E1), seq_log_run.
  destruct (safe_run _ _ _ (after_events w1
                              [EvLog INFO "Sending array of roles to create without tenantId."])
              (log_detailed_api_call_only (λ _, True) "POST" endpoint (role_headers c) data))
    as ([] & w2' & E2 & _).
  assert (Hw2 : w2' = w2) by (subst w2; fold endpoint data; rewrite E2; reflexivity).
  subst w2'. fold endpoint data. rewrite (bind_run_ok _ _ _ _ _ E2).
  erewrite bind_run_raise; [reflexivity|].
  erewrite try_run_raise; [|erewrite bind_run_raise; [reflexivity | exact Hcall]].
  apply Hexcept. exact Herr.
Qed.

Lemma role_permissions_data_run (source_permissions_by_id : gmap string permission) (r : role) :
  issues silent
    (returns (λ data, data = omap (source_permissions_by_id !!.) (get_default (r_permissions r) [])))
    (role_permissions_data source_permissions_by_id r).
Proof.
  unfold role_permissions_data.
  eapply issues_conseq;
    [apply (collect_issues (source_permissions_by_id !!.) INFO
              (λ perm_id, "Permission ID not found in source permissions: " +:+ perm_id))
    | auto | intros [res|e]; simpl; auto].
Qed.

Lemma unique_roles_distinct (dest_role_keys : gset string)
    (source_permissions_by_id : gmap string permission) (done rest acc : list role) :
  NoDup (r_key <$> acc) →
  (∀ u, u ∈ acc → ∃ r, first_with_key done r ∧ (r_key r ∉ dest_role_keys)
                      ∧ u = with_permissions_data source_permissions_by_id r) →
  (∀ r, r ∈ done → r_key r ∈ dest_role_keys ∨ r_key r ∈ (r_key <$> acc)) →
  issues silent
    (returns (λ unique,
       NoDup (r_key <$> unique)
       ∧ ∀ u, u ∈ unique → ∃ r, first_with_key (done ++ rest) r ∧ (r_key r ∉ dest_role_keys)
                               ∧ u = with_permissions_data source_permissions_by_id r))
    (for_fold rest acc (unique_roles_step dest_role_keys source_permissions_by_id)).
Proof.
  revert done acc. induction rest as [|r rest IH]; intros done acc Hnd Hacc Hdone.
  - apply issues_ret; [reflexivity|]. simpl. rewrite app_nil_r. auto.
  - cbn [for_fold].
    assert (Hext : ∀ r0, first_with_key done r0 → first_with_key (done ++ [r]) r0).
    { intros r0 (before & after & -> & Hb). exists before, (after ++ [r]).
      split; [rewrite <- app_assoc; reflexivity | exact Hb]. }
    replace (done ++ r :: rest) with ((done ++ [r]) ++ rest)
      by (rewrite <- app_assoc; reflexivity).
    unfold unique_roles_step at 1.
    destruct (decide (r_key r ∈ dest_role_keys)) as [Hdest|Hdest].
    { eapply issues_silent_then with (Q1 := λ a, a = acc).
      - apply issues_seq_log. apply issues_ret; [reflexivity | reflexivity].
      - intros ? ->. apply IH; [exact Hnd | |].
        + intros u Hu. destruct (Hacc u Hu) as (r0 & Hf & Hk & Hu'). exists r0. auto.
        + intros r' Hr'. apply elem_of_app in Hr' as [Hr'|Hr']; [auto|].
          apply list_elem_of_singleton in Hr' as ->. auto. }
    destruct (decide (r_key r ∈ r_key <$> acc)) as [Hdup|Hdup].
    { eapply issues_silent_then with (Q1 := λ a, a = acc).
      - apply issues_seq_log. apply issues_ret; [reflexivity | reflexivity].
      - intros ? ->. apply IH; [exact Hnd | |].
        + intros u Hu. destruct (Hacc u Hu) as (r0 & Hf & Hk & Hu'). exists r0. auto.
        + intros r' Hr'. apply elem_of_app in Hr' as [Hr'|Hr']; [auto|].
          apply list_elem_of_singleton in Hr' as ->. auto. }
    eapply issues_silent_then
      with (Q1 := λ a, a = acc ++ [with_permissions_data source_permissions_by_id r]).
    + eapply issues_silent_then; [apply role_permissions_data_run|].
      intros data ->. apply issues_ret; [reflexivity|]. reflexivity.
    + intros ? ->. apply IH.
      * rewrite fmap_app. apply NoDup_app. split; [exact Hnd|].
        split; [|apply NoDup_singleton].
        intros k Hk Hk'. simpl in Hk'. apply list_elem_of_singleton in Hk'. subst k.
        apply Hdup. exact Hk.
      * intros u Hu. apply elem_of_app in Hu as [Hu|Hu].
        -- destruct (Hacc u Hu) as (r0 & Hf & Hk & Hu'). exists r0. auto.
        -- apply list_elem_of_singleton in Hu as ->. exists r.
           split; [|split; [exact Hdest | reflexivity]].
           exists done, []. split; [reflexivity|].
           intros r' Hr' Heq. destruct (Hdone r' Hr') as [Hd|Hd].
           ++ apply Hdest. rewrite <- Heq. exact Hd.
           ++ apply Hdup. rewrite <- Heq. exact Hd.
      * intros r' Hr'. rewrite fmap_app.
        apply elem_of_app in Hr' as [Hr'|Hr'].
        -- destruct (Hdone r' Hr') as [Hd|Hd]; [left; exact Hd|].
           right. apply elem_of_app. left. exact Hd.
        -- apply list_elem_of_singleton in Hr' as ->. right. apply elem_of_app. right.
           simpl. left.
Qed.

(** X23. The roles that [migrate_roles] keeps for creation have pairwise
    distinct keys, none of which the destination has: each is the first
    source role with its key, with the permission data of those of its
    permissions that the source lists.  The filter sends no request. *)
Theorem roles_kept_for_creation_have_distinct_keys :
  ∀ (dest_role_keys : gset string) source_permissions_by_id source_roles,
    issues silent
      (returns (λ unique_roles,
         NoDup (r_key <$> unique_roles)
         ∧ ∀ u, u ∈ unique_roles →
             ∃ r, first_with_key source_roles r ∧ (r_key r ∉ dest_role_keys)
                  ∧ u = with_permissions_data source_permissions_by_id r))
      (filter_unique_roles dest_role_keys source_permissions_by_id source_roles).
Proof.
  intros dest_role_keys source_permissions_by_id source_roles.
  unfold filter_unique_roles.
  apply (unique_roles_distinct dest_role_keys source_permissions_by_id [] source_roles []).
  - constructor.
  - intros u Hu. inversion Hu.
  - intros r Hr. inversion Hr.
Qed.
End RoleFacts.

Lemma role_errors_are_always_raised_again_witness :
  let conflict := {| status_code := 409; content := JErrors ["Role already exists"] |} in
  (@create_roles_except scripted unit tt "Error creating roles without tenantId"
     (HTTPError conflict) (script_world [])).1 = Raise (HTTPError conflict).
Proof.
  intros conflict.
  pose proof (proj1 (@role_errors_are_always_raised_again scripted) unit tt
                "Error creating roles without tenantId" conflict (script_world []) eq_refl)
    as Hrun.
  rewrite Hrun. reflexivity.
Defined.

(** ** delete_account_data.py *)

Section DeletionFacts.
Context `{Runtime}.
Variable BASE_URL : string.

Lemma for_each_app {A : Type} (l1 l2 : list A) (body : A → M unit) (w : world) :
  for_each (l1 ++ l2) body w = bind (for_each l1 body) (λ _, for_each l2 body) w.
Proof.
  revert w. induction l1 as [|x l1 IH]; intros w; [reflexivity|].
  cbn [app for_each]. unfold bind.
  destruct (body x w) as [[[]|e] w1]; [|reflexivity].
  rewrite IH. reflexivity.
Qed.

Lemma tolerant_loop (call : string → request) (body : string → M unit) (ids : list string)
    (w : world) :
  (∀ id, tolerant_call (call id) (body id)) →
  match (for_each ids body w).1 with
  | Ok _ => requests_of (w_trace (for_each ids body w).2)
            = requests_of (w_trace w) ++ (call <$> ids)
  | Raise e => e = ConnectionError
  end
  ∧ ((∀ r n, ∃ resp n', session_request r n = (Some resp, n')) →
     (for_each ids body w).1 = Ok tt).
Proof.
  intros Hbody. revert w. induction ids as [|id ids IH]; intros w.
  - simpl. rewrite app_nil_r. auto.
  - cbn [for_each]. unfold bind.
    destruct (Hbody id w) as [Hreq Hres].
    destruct (body id w) as [[[]|e] w1]; simpl in Hreq, Hres.
    + destruct (IH w1) as [IH1 IH2]. split.
      * destruct (for_each ids body w1) as [[[]|e] w2]; simpl in *; [|exact IH1].
        rewrite IH1, Hreq, <- app_assoc. reflexivity.
      * exact IH2.
    + destruct Hres as [-> [n1 Hnone]]. simpl. split; [reflexivity|].
      intros Hserve. destruct (Hserve (call id) (w_net w)) as (resp & n' & Hsome). congruence.
Qed.

Lemma delete_role_tolerant (token : option string) (role_id : string) :
  tolerant_call (DeleteAccountData.deletion_call BASE_URL "/identity/resources/roles/v1/"
                   token role_id)
    (DeleteAccountData.delete_role BASE_URL token role_id).
Proof.
  intros w. unfold DeleteAccountData.delete_role.
  fold (DeleteAccountData.deletion_call BASE_URL "/identity/resources/roles/v1/" token role_id).
  unfold try_except, bind, do_request, raise_for_status, log, emit, ret, raise.
  destruct (session_request _ (w_net w)) as [[resp|] n1] eqn:Ereq.
  - destruct (is_error_status (status_code resp)).
    + simpl. destruct (status_code resp =? 404)%Z; simpl;
        rewrite ?requests_of_app; simpl; rewrite ?app_nil_r; auto.
    + simpl. rewrite ?requests_of_app. simpl. rewrite ?app_nil_r. auto.
  - simpl. rewrite ?requests_of_app. simpl. rewrite ?app_nil_r. eauto.
Qed.

Lemma delete_user_tolerant (token : option string) (user_id : string) :
  tolerant_call (DeleteAccountData.deletion_call BASE_URL "/identity/resources/users/v1/"
                   token user_id)
    (DeleteAccountData.delete_user BASE_URL token user_id).
Proof.
  intros w. unfold DeleteAccountData.delete_user.
  fold (DeleteAccountData.deletion_call BASE_URL "/identity/resources/users/v1/" token user_id).
  unfold try_except, bind, do_request, raise_for_status, log, emit, ret, raise.
  destruct (session_request _ (w_net w)) as [[resp|] n1] eqn:Ereq.
  - destruct (is_error_status (status_code resp)).
    + simpl. destruct (status_code resp =? 404)%Z; simpl;
        rewrite ?requests_of_app; simpl; rewrite ?app_nil_r; auto.
    + simpl. rewrite ?requests_of_app. simpl. rewrite ?app_nil_r. auto.
  - simpl. rewrite ?requests_of_app. simpl. rewrite ?app_nil_r. eauto.
Qed.

(** X24. The deletion of roles and the deletion of users go through
    error statuses: each loop sends one DELETE for every id, in order,
    whatever statuses come back, and can only be interrupted by a failed
    connection.  Against a platform that answers every call, both loops
    end normally. *)
Theorem role_and_user_deletion_goes_through_error_statuses :
  ∀ (token : option string) (ids : list string) (w : world),
    let roles := for_each ids (DeleteAccountData.delete_role BASE_URL token) w in
    let users := for_each ids (DeleteAccountData.delete_user BASE_URL token) w in
    match roles.1 with
    | Ok _ => requests_of (w_trace roles.2)
              = requests_of (w_trace w)
                ++ (DeleteAccountData.deletion_call BASE_URL "/identity/resources/roles/v1/" token
                      <$> ids)
    | Raise e => e = ConnectionError
    end
    ∧ match users.1 with
      | Ok _ => requests_of (w_trace users.2)
                = requests_of (w_trace w)
                  ++ (DeleteAccountData.deletion_call BASE_URL "/identity/resources/users/v1/" token
                        <$> ids)
      | Raise e => e = ConnectionError
      end
    ∧ ((∀ r n, ∃ resp n', session_request r n = (Some resp, n')) →
       roles.1 = Ok tt ∧ users.1 = Ok tt).
Proof.
  intros token ids w roles users. subst roles users.
  destruct (tolerant_loop
              (DeleteAccountData.deletion_call BASE_URL "/identity/resources/roles/v1/" token)
              (DeleteAccountData.delete_role BASE_URL token) ids w
              (delete_role_tolerant token)) as [Hr1 Hr2].
  destruct (tolerant_loop
              (DeleteAccountData.deletion_call BASE_URL "/identity/resources/users/v1/" token)
              (DeleteAccountData.delete_user BASE_URL token) ids w
              (delete_user_tolerant token)) as [Hu1 Hu2].
  auto.
Qed.

(** X25. The deletion of tenants stops at the first error status: the
    error is raised and the remaining tenants are not called.  The
    deletion of permissions stops in the same way at an error status
    other than 404, and goes on with the remaining permissions after a
    404. *)
Theorem tenant_and_permission_deletion_stops_at_a_failure :
  (∀ (token : option string) done id rest (w w1 : world) resp n1,
     let call := DeleteAccountData.deletion_call BASE_URL "/tenants/resources/tenants/v1/"
                   token id in
     let run := for_each (done ++ id :: rest) (DeleteAccountData.delete_tenant BASE_URL token) w in
     for_each done (DeleteAccountData.delete_tenant BASE_URL token) w = (Ok tt, w1) →
     session_request call (w_net w1) = (Some resp, n1) →
     is_error_status (status_code resp) = true →
     run.1 = Raise (HTTPError resp)
     ∧ requests_of (w_trace run.2) = requests_of (w_trace w1) ++ [call])
  ∧ (∀ (token : option string) done id rest (w w1 : world) resp n1,
       let call := DeleteAccountData.deletion_call BASE_URL "/identity/resources/permissions/v1/"
                     token id in
       let run := for_each (done ++ id :: rest)
                    (DeleteAccountData.delete_permission BASE_URL token) w in
       for_each done (DeleteAccountData.delete_permission BASE_URL token) w = (Ok tt, w1) →
       session_request call (w_net w1) = (Some resp, n1) →
       is_error_status (status_code resp) = true →
       (status_code resp ≠ 404%Z →
        run.1 = Raise (HTTPError resp)
        ∧ requests_of (w_trace run.2) = requests_of (w_trace w1) ++ [call])
       ∧ (status_code resp = 404%Z →
          ∃ w2, DeleteAccountData.delete_permission BASE_URL token id w1 = (Ok tt, w2)
                ∧ run = for_each rest (DeleteAccountData.delete_permission BASE_URL token) w2)).
Proof.
  split.
  - intros token done id rest w w1 resp n1 call run Hdone Hreq Herr. subst run.
    rewrite for_each_app, (bind_run_ok _ _ _ _ _ Hdone). cbn [for_each].
    subst call. unfold DeleteAccountData.deletion_call in *.
    unfold DeleteAccountData.delete_tenant.
    unfold bind, do_request, raise_for_status, raise. rewrite Hreq, Herr. simpl.
    split; [reflexivity|]. rewrite requests_of_app. reflexivity.
  - intros token done id rest w w1 resp n1 call run Hdone Hreq Herr. subst run.
    rewrite for_each_app, (bind_run_ok _ _ _ _ _ Hdone). cbn [for_each].
    subst call. unfold DeleteAccountData.deletion_call in *.
    unfold DeleteAccountData.delete_permission.
    unfold try_except, bind, do_request, raise_for_status, raise, log, emit.
    rewrite Hreq, Herr. simpl. split.
    + intros Hne. apply Z.eqb_neq in Hne. rewrite Hne. simpl.
      split; [reflexivity|]. rewrite requests_of_app. reflexivity.
    + intros Heq. apply Z.eqb_eq in Heq. rewrite Heq. simpl. eexists. split; reflexivity.
Qed.

Lemma delete_application_step (token : option string) (app : application) (w : world) :
  let run := DeleteAccountData.delete_application BASE_URL token (a_id app) (a_name app) w in
  requests_of (w_trace run.2) = requests_of (w_trace w) ++ [application_removal BASE_URL token app]
  ∧ match run.1 with
    | Ok _ => True
    | Raise e => e = ConnectionError
    end.
Proof.
  unfold DeleteAccountData.delete_application, application_removal,
    DeleteAccountData.deletion_call.
  unfold try_except, bind, do_request, raise_for_status, log, emit, ret, raise.
  destruct (session_request _ (w_net w)) as [[resp|] n1] eqn:Ereq.
  - destruct (is_error_status (status_code resp)).
    + simpl. destruct (status_code resp =? 404)%Z; [|destruct (status_code resp =? 400)%Z];
        simpl; rewrite ?requests_of_app; simpl; rewrite ?app_nil_r; auto.
    + simpl. rewrite ?requests_of_app. simpl. rewrite ?app_nil_r. auto.
  - simpl. rewrite ?requests_of_app. simpl. rewrite ?app_nil_r. eauto.
Qed.

Lemma keep_for_deletion_step (dummy_app_id : option string) (acc : list application)
    (app : application) (w : world) :
  ∃ w', DeleteAccountData.keep_for_deletion dummy_app_id acc app w
        = (Ok (acc ++ filter (λ app, Some (a_id app) ≠ dummy_app_id) [app]), w')
        ∧ requests_of (w_trace w') = requests_of (w_trace w) ∧ w_net w' = w_net w.
Proof.
  unfold DeleteAccountData.keep_for_deletion. rewrite filter_cons, filter_nil.
  destruct (decide (Some (a_id app) = dummy_app_id)) as [Heq|Hne].
  - rewrite (bool_decide_eq_true_2 _ Heq). rewrite decide_False by auto.
    rewrite seq_log_run. eexists. split; [rewrite app_nil_r; reflexivity|].
    unfold after_events. simpl. rewrite requests_of_app. simpl. rewrite app_nil_r. auto.
  - rewrite (bool_decide_eq_false_2 _ Hne). rewrite decide_True by exact Hne.
    destruct (is_default app).
    + rewrite seq_log_run. eexists. split; [reflexivity|].
      unfold after_events. simpl. rewrite requests_of_app. simpl. rewrite app_nil_r. auto.
    + eexists. split; [reflexivity|]. auto.
Qed.

Lemma keep_for_deletion_run (dummy_app_id : option string) (applications acc : list application)
    (w : world) :
  ∃ w', for_fold applications acc (DeleteAccountData.keep_for_deletion dummy_app_id) w
        = (Ok (acc ++ filter (λ app, Some (a_id app) ≠ dummy_app_id) applications), w')
        ∧ requests_of (w_trace w') = requests_of (w_trace w) ∧ w_net w' = w_net w.
Proof.
  revert acc w. induction applications as [|app applications IH]; intros acc w.
  - exists w. simpl. rewrite app_nil_r. auto.
  - cbn [for_fold].
    destruct (keep_for_deletion_step dummy_app_id acc app w) as (w1 & E1 & Hr1 & Hn1).
    rewrite (bind_run_ok _ _ _ _ _ E1).
    destruct (IH (acc ++ filter (λ app, Some (a_id app) ≠ dummy_app_id) [app]) w1)
      as (w' & E & Hr & Hn).
    exists w'. rewrite E, <- app_assoc, <- filter_app. simpl.
    split; [reflexivity|]. rewrite Hr, Hn. auto.
Qed.

Lemma delete_and_count_step (token : option string) (counts : nat * nat) (app : application)
    (w : world) :
  ∃ res w1, DeleteAccountData.delete_and_count BASE_URL token counts app w = (res, w1)
            ∧ requests_of (w_trace w1) = requests_of (w_trace w) ++ [application_removal BASE_URL token app]
            ∧ match res with
              | Ok _ => True
              | Raise e => e = ConnectionError
              end.
Proof.
  unfold DeleteAccountData.delete_and_count, bind.
  destruct (delete_application_step token app w) as [Hreq Hres].
  destruct (DeleteAccountData.delete_application BASE_URL token (a_id app) (a_name app) w)
    as [[deleted|e] w1]; simpl in Hreq, Hres.
  - destruct deleted; eexists; eexists; (split; [reflexivity|]); auto.
  - eexists; eexists; (split; [reflexivity|]); auto.
Qed.

Lemma delete_and_count_loop (token : option string) (apps : list application)
    (counts : nat * nat) (w : world) :
  ∃ res w', for_fold apps counts (DeleteAccountData.delete_and_count BASE_URL token) w
            = (res, w')
            ∧ match res with
              | Ok _ => requests_of (w_trace w')
                        = requests_of (w_trace w) ++ (application_removal BASE_URL token <$> apps)
              | Raise e => e = ConnectionError
              end.
Proof.
  revert counts w. induction apps as [|app apps IH]; intros counts w.
  - exists (Ok counts), w. simpl. rewrite app_nil_r. auto.
  - cbn [for_fold].
    destruct (delete_and_count_step token counts app w) as ([counts'|e] & w1 & E1 & Hreq & Hres).
    + rewrite (bind_run_ok _ _ _ _ _ E1).
      destruct (IH counts' w1) as (res & w' & E & Hloop).
      exists res, w'. split; [exact E|].
      destruct res; [|exact Hloop]. rewrite Hloop, Hreq, <- app_assoc. reflexivity.
    + rewrite (bind_run_raise _ _ _ _ _ E1). exists (Raise e), w1. auto.
Qed.

Lemma get_applications_run (token : option string) (w : world) (resp : response) (n1 : net) :
  session_request (application_listing BASE_URL token) (w_net w) = (Some resp, n1) →
  ∃ w1, DeleteAccountData.get_applications BASE_URL token w
        = (if is_error_status (status_code resp) then Raise (HTTPError resp)
           else match content resp with
                | JApplications apps => Ok apps
                | _ => Raise DecodeError
                end, w1)
        ∧ requests_of (w_trace w1) = requests_of (w_trace w) ++ [application_listing BASE_URL token].
Proof.
  intros Hreq. unfold DeleteAccountData.get_applications. fold (application_listing BASE_URL token).
  unfold bind, do_request, raise_for_status, log, emit, ret, raise. rewrite Hreq.
  destruct (is_error_status (status_code resp)).
  - eexists. split; [reflexivity|]. simpl. rewrite requests_of_app. reflexivity.
  - destruct (content resp); eexists; (split; [reflexivity|]); simpl;
      rewrite ?requests_of_app; simpl; rewrite ?app_nil_r; reflexivity.
Qed.

Lemma deletion_summary_run (counts : nat * nat) (w : world) :
  ∃ w', bind (log INFO "Summary: Deleted applications")
          (λ _, if (0 <? counts.2)%nat then log INFO "(could not be deleted)" else ret tt) w
        = (Ok tt, w')
        ∧ requests_of (w_trace w') = requests_of (w_trace w).
Proof.
  rewrite seq_log_run. destruct (0 <? counts.2)%nat; eexists; (split; [reflexivity|]); simpl;
    rewrite ?requests_of_app; simpl; rewrite ?app_nil_r; reflexivity.
Qed.

(** X26. When the listing of the applications is refused, the deletion
    of the applications raises its error and deletes nothing.  When it
    succeeds, a run that ends normally has sent, after the listing, one
    DELETE for each listed application other than the dummy application,
    in the order of the listing, and then, if a dummy application was
    created and the listing is not empty, the DELETE of the dummy
    application, last; a run can only be interrupted by a failed
    connection. *)
Theorem dummy_application_is_deleted_last :
  ∀ (token : option string) (dummy_app : option application) (w : world) resp n1,
    let run := DeleteAccountData.delete_applications_with BASE_URL token dummy_app w in
    session_request (application_listing BASE_URL token) (w_net w) = (Some resp, n1) →
    (is_error_status (status_code resp) = true →
     run.1 = Raise (HTTPError resp)
     ∧ requests_of (w_trace run.2) = requests_of (w_trace w) ++ [application_listing BASE_URL token])
    ∧ (∀ applications,
         is_error_status (status_code resp) = false →
         content resp = JApplications applications →
         match run.1 with
         | Ok _ =>
             requests_of (w_trace run.2)
             = requests_of (w_trace w) ++ [application_listing BASE_URL token]
               ++ (application_removal BASE_URL token
                     <$> filter (λ app, Some (a_id app) ≠ a_id <$> dummy_app) applications)
               ++ match applications, dummy_app with
                  | _ :: _, Some dummy => [application_removal BASE_URL token dummy]
                  | _, _ => []
                  end
         | Raise e => e = ConnectionError
         end).
Proof.
  intros token dummy_app w resp n1 run Hreq. subst run.
  destruct (DeleteAccountData.delete_applications_with BASE_URL token dummy_app w)
    as [res wf] eqn:Erun. cbn [fst snd].
  unfold DeleteAccountData.delete_applications_with in Erun.
  assert (Hstart : ∃ w0, (match dummy_app with
                         | Some _ => ret tt
                         | None => log INFO
                             "Warning: Could not create dummy app, some applications may not be deletable"
                         end) w = (Ok tt, w0)
                        ∧ w_net w0 = w_net w
                        ∧ requests_of (w_trace w0) = requests_of (w_trace w)).
  { destruct dummy_app; eexists; (split; [reflexivity|]); simpl; [auto|].
    rewrite requests_of_app. simpl. rewrite app_nil_r. auto. }
  destruct Hstart as (w0 & E0 & Hn0 & Hr0).
  rewrite (bind_run_ok _ _ _ _ _ E0), seq_log_run in Erun.
  destruct (get_applications_run token
              (after_events w0 [EvLog INFO "Step 2: Fetching all applications..."]) resp n1)
    as (w1 & E1 & Hr1).
  { unfold after_events. simpl. rewrite Hn0. exact Hreq. }
  assert (Hr1' : requests_of (w_trace w1)
                 = requests_of (w_trace w) ++ [application_listing BASE_URL token]).
  { rewrite Hr1. unfold after_events. simpl. rewrite requests_of_app. simpl.
    rewrite app_nil_r, Hr0. reflexivity. }
  clear Hr1. split.
  - intros Herr. rewrite Herr in E1. rewrite (bind_run_raise _ _ _ _ _ E1) in Erun.
    injection Erun as <- <-. auto.
  - intros applications Herr Hcontent. rewrite Herr, Hcontent in E1.
    rewrite (bind_run_ok _ _ _ _ _ E1) in Erun.
    destruct applications as [|app0 apps'].
    { unfold log, emit in Erun. injection Erun as <- <-. simpl.
      rewrite requests_of_app. simpl. rewrite !app_nil_r. exact Hr1'. }
    cbv beta iota. cbv beta iota in Erun.
    remember (app0 :: apps') as applications eqn:Eapps.
    rename Erun into Erun'.
    destruct (keep_for_deletion_run (a_id <$> dummy_app) applications [] w1)
      as (w2 & E2 & Hr2 & Hn2).
    rewrite (bind_run_ok _ _ _ _ _ E2) in Erun'. cbn [app] in Erun'.
    rewrite seq_log_run in Erun'.
    set (apps_to_delete := filter (λ app, Some (a_id app) ≠ a_id <$> dummy_app) applications)
      in *.
    destruct (delete_and_count_loop token apps_to_delete (0, 0)%nat
                (after_events w2 [EvLog INFO "Step 3: Deleting original applications..."]))
      as ([counts|e] & w4 & E4 & Hloop).
    2: { rewrite (bind_run_raise _ _ _ _ _ E4) in Erun'. injection Erun' as <- <-.
         exact Hloop. }
    rewrite (bind_run_ok _ _ _ _ _ E4) in Erun'.
    assert (Hr4 : requests_of (w_trace w4)
                  = requests_of (w_trace w) ++ [application_listing BASE_URL token]
                    ++ (application_removal BASE_URL token <$> apps_to_delete)).
    { rewrite Hloop. unfold after_events. simpl. rewrite requests_of_app. simpl.
      rewrite app_nil_r, Hr2, Hr1', <- app_assoc. reflexivity. }
    clear Hloop.
    destruct dummy_app as [dummy|].
    + unfold bind at 1 in Erun'. rewrite seq_log_run in Erun'.
      destruct (delete_application_step token dummy
                  (after_events w4 [EvLog INFO "Step 4: Attempting to delete dummy application..."]))
        as [Hreq5 Hres5].
      destruct (DeleteAccountData.delete_application BASE_URL token (a_id dummy) (a_name dummy)
                  (after_events w4 [EvLog INFO "Step 4: Attempting to delete dummy application..."]))
        as [[deleted|e] w6] eqn:E6; simpl in Hreq5, Hres5.
      * assert (Hr6 : requests_of (w_trace w6)
                      = requests_of (w_trace w) ++ [application_listing BASE_URL token]
                        ++ (application_removal BASE_URL token <$> apps_to_delete)
                        ++ [application_removal BASE_URL token dummy]).
        { rewrite Hreq5, requests_of_app. simpl. rewrite app_nil_r, Hr4, <- !app_assoc.
          reflexivity. }
        rewrite (bind_run_ok _ _ _ _ _ E6) in Erun'.
        destruct deleted; rewrite seq_log_run in Erun'; unfold ret at 1 in Erun';
          cbv beta iota in Erun'.
        -- destruct (deletion_summary_run (S counts.1, counts.2)
                       (after_events w6 [EvLog INFO "Successfully cleaned up dummy application"]))
             as (wf' & Ef & Hrf).
           rewrite Ef in Erun'. injection Erun' as <- <-. rewrite Hrf.
           unfold after_events. simpl. rewrite requests_of_app. simpl.
           rewrite app_nil_r. exact Hr6.
        -- destruct (deletion_summary_run counts
                       (after_events w6 [EvLog INFO
                          "Dummy app remains (now default) - you may want to delete it manually"]))
             as (wf' & Ef & Hrf).
           rewrite Ef in Erun'. injection Erun' as <- <-. rewrite Hrf.
           unfold after_events. simpl. rewrite requests_of_app. simpl.
           rewrite app_nil_r. exact Hr6.
      * rewrite (bind_run_raise _ _ _ _ _ E6) in Erun'. injection Erun' as <- <-. exact Hres5.
    + unfold bind at 1 in Erun'. unfold ret at 1 in Erun'.
      destruct (deletion_summary_run counts w4) as (wf' & Ef & Hrf).
      rewrite Ef in Erun'. injection Erun' as <- <-. rewrite Hrf, Hr4, app_nil_r. reflexivity.
Qed.
End DeletionFacts.

Lemma role_and_user_deletion_goes_through_error_statuses_witness :
  let missing := {| status_code := 404; content := JErrors ["Not found"] |} in
  let w := @Build_world (answering (λ _, missing)) 0%Q [] (λ _, ∅) in
  (@for_each (answering (λ _, missing)) string ["r1"; "r2"]
     (@DeleteAccountData.delete_role (answering (λ _, missing)) "https://dst" (Some "tok")) w).1
  = Ok tt
  ∧ (@for_each (answering (λ _, missing)) string ["r1"; "r2"]
       (@DeleteAccountData.delete_user (answering (λ _, missing)) "https://dst" (Some "tok")) w).1
    = Ok tt.
Proof.
  intros missing w.
  apply (proj2 (proj2 (@role_and_user_deletion_goes_through_error_statuses
                         (answering (λ _, missing)) "https://dst" (Some "tok")
                         ["r1"; "r2"] w))).
  intros r n. exists missing, n. reflexivity.
Defined.

Lemma tenant_and_permission_deletion_stops_at_a_failure_witness :
  let failure := {| status_code := 500; content := JErrors ["Internal error"] |} in
  let w := script_world [Some failure; ok_response JNothing] in
  let run := @for_each scripted string ([] ++ "t1" :: ["t2"])
               (@DeleteAccountData.delete_tenant scripted "https://dst" (Some "tok")) w in
  run.1 = Raise (HTTPError failure)
  ∧ requests_of (w_trace run.2)
    = requests_of (w_trace w)
      ++ [DeleteAccountData.deletion_call "https://dst" "/tenants/resources/tenants/v1/"
            (Some "tok") "t1"].
Proof.
  intros failure w run.
  exact (proj1 (@tenant_and_permission_deletion_stops_at_a_failure scripted "https://dst")
           (Some "tok") [] "t1" ["t2"] w w failure ([ok_response JNothing], 0%Q)
           eq_refl eq_refl eq_refl).
Defined.

Lemma dummy_application_is_deleted_last_witness :
  let refused := {| status_code := 403; content := JErrors ["Forbidden"] |} in
  let w := script_world [Some refused] in
  let run := @DeleteAccountData.delete_applications_with scripted "https://dst" (Some "tok")
               None w in
  run.1 = Raise (HTTPError refused)
  ∧ requests_of (w_trace run.2)
    = requests_of (w_trace w) ++ [application_listing "https://dst" (Some "tok")].
Proof.
  intros refused w run.
  exact (proj1 (@dummy_application_is_deleted_last scripted "https://dst" (Some "tok") None w
                  refused ([], 0%Q) eq_refl) eq_refl).
Defined.
